(** * Attendance terminal controller: a shallow embedding of
      [tools/esp32_scan_send.ino]

    The sketch is a single-threaded control loop over a handful of global
    variables, a fingerprint sensor, an LCD, two LEDs, a keypad, WiFi and
    an HTTP client.  The embedding keeps the globals in a record, feeds
    every hardware or network read from an explicit input script and
    records every write to the outside world in an output trace.

    Not recorded: the [Serial] diagnostics, [delay] calls and the keypad
    row strobes; none of them is read back by the sketch. *)

From Stdlib Require Import ZArith Lia Ascii String.
From stdpp Require Import base strings list gmap pretty.

Open Scope Z_scope.

(** ** Machine integers *)

(** [uint16_t] and [unsigned long] (32 bits on the ESP32) as [Z] with the
    wrap-around written out. *)
Definition u16 (x : Z) : Z := x mod 2 ^ 16.
Definition u32 (x : Z) : Z := x mod 2 ^ 32.

(** ** Arduino [String] operations used by the sketch *)

Module WString.

Definition dquote : ascii := ascii_of_nat 34.

(** A one-character string holding the double quote. *)
Definition q : string := String dquote EmptyString.

Fixpoint dropChars (n : nat) (s : string) : string :=
  match n, s with
  | O, _ => s
  | S n', String _ s' => dropChars n' s'
  | S _, EmptyString => EmptyString
  end.

Fixpoint takeChars (n : nat) (s : string) : string :=
  match n, s with
  | S n', String c s' => String c (takeChars n' s')
  | _, _ => EmptyString
  end.

(** [s.substring(left, right)]: the arguments are swapped when out of
    order, an out-of-range [left] gives the empty string and [right]
    is clipped to the length. *)
Definition substring (left right : nat) (s : string) : string :=
  let lo := Nat.min left right in
  let hi := Nat.max left right in
  takeChars (hi - lo) (dropChars lo s).

(** First position at which [needle] starts in [s] ([strstr]). *)
Fixpoint find (needle s : string) : option nat :=
  if String.prefix needle s then Some O
  else match s with
       | EmptyString => None
       | String _ s' => S <$> find needle s'
       end.

(** [s.indexOf(needle, from)]; [-1] when absent or when [from] is not
    inside the string. *)
Definition indexOf (needle : string) (from : nat) (s : string) : Z :=
  if (String.length s <=? from)%nat then -1
  else match find needle (dropChars from s) with
       | Some k => Z.of_nat (from + k)
       | None => -1
       end.

(** [s.indexOf(ch, from)]. *)
Definition indexOfChar (ch : ascii) (from : nat) (s : string) : Z :=
  indexOf (String ch EmptyString) from s.

(** [s.remove(index)]: drops everything from [index] on. *)
Definition remove (index : nat) (s : string) : string := takeChars index s.

Definition isDigit (c : ascii) : bool :=
  ((48 <=? nat_of_ascii c) && (nat_of_ascii c <=? 57))%nat.

Fixpoint digitsValue (acc : Z) (s : string) : Z :=
  match s with
  | String c s' =>
      if isDigit c then digitsValue (10 * acc + Z.of_nat (nat_of_ascii c - 48)) s'
      else acc
  | EmptyString => acc
  end.

(** [s.toInt()] on the strings the keypad builds: the value of the
    leading decimal digits, [0] when there are none. *)
Definition toInt (s : string) : Z := digitsValue 0 s.

(** [String(n)] for an integer. *)
Definition ofInt (n : Z) : string := pretty n.

(** [snprintf("%0<w>d")] for a non-negative field. *)
Definition padded (width : nat) (n : N) : string :=
  let digits := pretty n in
  String.concat EmptyString (replicate (width - String.length digits) "0"%string) +:+ digits.

End WString.

(** ** Data model *)

Inductive OperationMode := MODE_HOME | MODE_TIME_IN | MODE_TIME_OUT | MODE_ENROLL.

Global Instance OperationMode_eq_dec : EqDecision OperationMode.
Proof. solve_decision. Defined.

(** The sketch's global variables. *)
Record Device := mkDevice {
  currentMode : OperationMode;
  enrollButtonState : bool;
  homeButtonState : bool;
  timeInButtonState : bool;
  timeOutButtonState : bool;
  studentsTimeIn : list Z;
  currentEventId : string;
  currentEventName : string;
  lastSentFingerprint : Z;
  lastSentMillis : Z;
  lastHomeUpdate : Z
}.

(** Values of the globals at power-up. *)
Definition bootDevice : Device :=
  mkDevice MODE_HOME false false false false [] EmptyString EmptyString 0 0 0.

(** The fingerprint module as the sketch sees it through the [finger]
    object: the identifiers that hold a template in the module's flash
    library, and the [fingerID] field filled in by a search. *)
Record Sensor := mkSensor {
  library : gset Z;
  fingerID : Z
}.

(** Confirmation codes of the sensor protocol. *)
Definition FINGERPRINT_OK : Z := 0.
Definition FINGERPRINT_NOFINGER : Z := 2.

Inductive Command :=
| GetImage
| Image2Tz (slot : Z)
| FingerSearch
| CreateModel
| StoreModel (id : Z)
| LoadModel (id : Z)
| DeleteModel (id : Z).

(** What the sensor answers to one command: the confirmation code and,
    for a search, the matched identifier. *)
Record Reply := mkReply { status : Z; matched : Z }.

Inductive Button := BtnEnroll | BtnHome | BtnTimeIn | BtnTimeOut.

(** One pass over the keypad matrix: the cells whose column reads LOW
    while their row is strobed. *)
Record KeyScan := mkKeyScan { lowCells : list (nat * nat) }.

Record HttpReply := mkHttpReply { httpCode : Z; httpPayload : string }.

Record DateTime := mkDateTime {
  dtValid : bool;
  dtYear : N; dtMonth : N; dtDay : N;
  dtHour : N; dtMinute : N; dtSecond : N
}.

(** The input script.  Each read takes the next item of its own queue:
    - [sensorIn]: the sensor's answer to the next command;
    - [irqIn]: the buttons whose interrupt handler accepted an edge (the
      handlers' 200 ms debounce is taken as decided) since the flags
      were last looked at;
    - [keypadIn]: the next pass over the keypad matrix;
    - [clockIn]: the next value of [millis()];
    - [wifiIn]: the next value of [WiFi.status() == WL_CONNECTED];
    - [httpIn]: the answer to the next HTTP request;
    - [rtcIn]: the next [rtc.now()]. *)
Record Inputs := mkInputs {
  sensorIn : list Reply;
  irqIn : list (list Button);
  keypadIn : list KeyScan;
  clockIn : list Z;
  wifiIn : list bool;
  httpIn : list HttpReply;
  rtcIn : list DateTime
}.

Definition noInputs : Inputs := mkInputs [] [] [] [] [] [] [].

(** Writes to the outside world, in the order they happen. *)
Inductive Effect :=
| LcdClear
| LcdSetCursor (col row : Z)
| LcdPrint (text : string)
| DigitalWrite (pin : Z) (high : bool)
| WifiBegin
| HttpPost (url body : string)
| HttpGet (url : string)
| SensorCmd (cmd : Command) (code : Z).

Record World := mkWorld {
  dev : Device;
  finger : Sensor;
  input : Inputs;
  output : list Effect
}.

(** ** The run monad *)

(** A run either returns, or is still blocked on a read for which the
    script has no item left; in both cases the world reached so far is
    kept. *)
Inductive Outcome (A : Type) :=
| Done (a : A) (w : World)
| Starved (w : World).
Arguments Done {A} a w.
Arguments Starved {A} w.

Definition M (A : Type) : Type := World → Outcome A.

Definition final {A} (o : Outcome A) : World :=
  match o with Done _ w => w | Starved w => w end.

Definition result {A} (o : Outcome A) : option A :=
  match o with Done a _ => Some a | Starved _ => None end.

Definition ret {A} (a : A) : M A := λ w, Done a w.

Definition bind {A B} (m : M A) (f : A → M B) : M B :=
  λ w, match m w with
       | Done a w' => f a w'
       | Starved w' => Starved w'
       end.

Declare Scope run_scope.
Delimit Scope run_scope with run.
Bind Scope run_scope with M.
Notation "x ← y ; z" := (bind y (λ x : _, z))
  (at level 20, y at level 100, z at level 200, only parsing) : run_scope.
Notation "' x ← y ; z" := (bind y (λ x : _, z))
  (at level 20, x pattern, y at level 100, z at level 200, only parsing) : run_scope.
Notation "x ;; z" := (bind x (λ _, z))
  (at level 100, z at level 200, only parsing, right associativity) : run_scope.
Open Scope run_scope.

Definition starve {A} : M A := λ w, Starved w.
Definition getDev : M Device := λ w, Done (dev w) w.
Definition modDev (f : Device → Device) : M unit :=
  λ w, Done () (mkWorld (f (dev w)) (finger w) (input w) (output w)).
Definition getFinger : M Sensor := λ w, Done (finger w) w.
Definition modFinger (f : Sensor → Sensor) : M unit :=
  λ w, Done () (mkWorld (dev w) (f (finger w)) (input w) (output w)).
Definition emit (es : list Effect) : M unit :=
  λ w, Done () (mkWorld (dev w) (finger w) (input w) (output w ++ es)).

(** Run a polling loop with as many rounds as the queue it reads from
    has items, plus one: every round takes an item, so the loop is
    never cut short by the bound. *)
Definition polling {X A} (queue : Inputs → list X) (body : nat → M A) : M A :=
  λ w, body (S (List.length (queue (input w)))) w.

(** *** Setters *)

Definition set_currentMode (m : OperationMode) (d : Device) : Device :=
  mkDevice m (enrollButtonState d) (homeButtonState d) (timeInButtonState d)
    (timeOutButtonState d) (studentsTimeIn d) (currentEventId d)
    (currentEventName d) (lastSentFingerprint d) (lastSentMillis d) (lastHomeUpdate d).
Definition set_enrollButtonState (b : bool) (d : Device) : Device :=
  mkDevice (currentMode d) b (homeButtonState d) (timeInButtonState d)
    (timeOutButtonState d) (studentsTimeIn d) (currentEventId d)
    (currentEventName d) (lastSentFingerprint d) (lastSentMillis d) (lastHomeUpdate d).
Definition set_homeButtonState (b : bool) (d : Device) : Device :=
  mkDevice (currentMode d) (enrollButtonState d) b (timeInButtonState d)
    (timeOutButtonState d) (studentsTimeIn d) (currentEventId d)
    (currentEventName d) (lastSentFingerprint d) (lastSentMillis d) (lastHomeUpdate d).
Definition set_timeInButtonState (b : bool) (d : Device) : Device :=
  mkDevice (currentMode d) (enrollButtonState d) (homeButtonState d) b
    (timeOutButtonState d) (studentsTimeIn d) (currentEventId d)
    (currentEventName d) (lastSentFingerprint d) (lastSentMillis d) (lastHomeUpdate d).
Definition set_timeOutButtonState (b : bool) (d : Device) : Device :=
  mkDevice (currentMode d) (enrollButtonState d) (homeButtonState d)
    (timeInButtonState d) b (studentsTimeIn d) (currentEventId d)
    (currentEventName d) (lastSentFingerprint d) (lastSentMillis d) (lastHomeUpdate d).
Definition set_studentsTimeIn (l : list Z) (d : Device) : Device :=
  mkDevice (currentMode d) (enrollButtonState d) (homeButtonState d)
    (timeInButtonState d) (timeOutButtonState d) l (currentEventId d)
    (currentEventName d) (lastSentFingerprint d) (lastSentMillis d) (lastHomeUpdate d).
Definition set_currentEventId (s : string) (d : Device) : Device :=
  mkDevice (currentMode d) (enrollButtonState d) (homeButtonState d)
    (timeInButtonState d) (timeOutButtonState d) (studentsTimeIn d) s
    (currentEventName d) (lastSentFingerprint d) (lastSentMillis d) (lastHomeUpdate d).
Definition set_currentEventName (s : string) (d : Device) : Device :=
  mkDevice (currentMode d) (enrollButtonState d) (homeButtonState d)
    (timeInButtonState d) (timeOutButtonState d) (studentsTimeIn d)
    (currentEventId d) s (lastSentFingerprint d) (lastSentMillis d) (lastHomeUpdate d).
Definition set_lastSentFingerprint (x : Z) (d : Device) : Device :=
  mkDevice (currentMode d) (enrollButtonState d) (homeButtonState d)
    (timeInButtonState d) (timeOutButtonState d) (studentsTimeIn d)
    (currentEventId d) (currentEventName d) x (lastSentMillis d) (lastHomeUpdate d).
Definition set_lastSentMillis (x : Z) (d : Device) : Device :=
  mkDevice (currentMode d) (enrollButtonState d) (homeButtonState d)
    (timeInButtonState d) (timeOutButtonState d) (studentsTimeIn d)
    (currentEventId d) (currentEventName d) (lastSentFingerprint d) x (lastHomeUpdate d).
Definition set_lastHomeUpdate (x : Z) (d : Device) : Device :=
  mkDevice (currentMode d) (enrollButtonState d) (homeButtonState d)
    (timeInButtonState d) (timeOutButtonState d) (studentsTimeIn d)
    (currentEventId d) (currentEventName d) (lastSentFingerprint d)
    (lastSentMillis d) x.

Definition set_sensorIn (l : list Reply) (i : Inputs) : Inputs :=
  mkInputs l (irqIn i) (keypadIn i) (clockIn i) (wifiIn i) (httpIn i) (rtcIn i).
Definition set_irqIn (l : list (list Button)) (i : Inputs) : Inputs :=
  mkInputs (sensorIn i) l (keypadIn i) (clockIn i) (wifiIn i) (httpIn i) (rtcIn i).
Definition set_keypadIn (l : list KeyScan) (i : Inputs) : Inputs :=
  mkInputs (sensorIn i) (irqIn i) l (clockIn i) (wifiIn i) (httpIn i) (rtcIn i).
Definition set_clockIn (l : list Z) (i : Inputs) : Inputs :=
  mkInputs (sensorIn i) (irqIn i) (keypadIn i) l (wifiIn i) (httpIn i) (rtcIn i).
Definition set_wifiIn (l : list bool) (i : Inputs) : Inputs :=
  mkInputs (sensorIn i) (irqIn i) (keypadIn i) (clockIn i) l (httpIn i) (rtcIn i).
Definition set_httpIn (l : list HttpReply) (i : Inputs) : Inputs :=
  mkInputs (sensorIn i) (irqIn i) (keypadIn i) (clockIn i) (wifiIn i) l (rtcIn i).
Definition set_rtcIn (l : list DateTime) (i : Inputs) : Inputs :=
  mkInputs (sensorIn i) (irqIn i) (keypadIn i) (clockIn i) (wifiIn i) (httpIn i) l.

(** Take the next item of a queue, or block. *)
Definition next {X} (queue : Inputs → list X)
    (put : list X → Inputs → Inputs) : M X :=
  λ w, match queue (input w) with
       | x :: rest => Done x (mkWorld (dev w) (finger w) (put rest (input w)) (output w))
       | [] => Starved w
       end.

(** ** Hardware and network primitives *)

Definition millis : M Z := t ← next clockIn set_clockIn; ret (u32 t).
Definition wifiConnected : M bool := next wifiIn set_wifiIn.
Definition rtcNow : M DateTime := next rtcIn set_rtcIn.

(** The four interrupt handlers: an accepted edge sets the button's flag. *)
Definition raise (b : Button) (d : Device) : Device :=
  match b with
  | BtnEnroll => set_enrollButtonState true d
  | BtnHome => set_homeButtonState true d
  | BtnTimeIn => set_timeInButtonState true d
  | BtnTimeOut => set_timeOutButtonState true d
  end.

(** Interrupts are delivered just before the main flow looks at a flag;
    with nothing left in [irqIn] no button is pressed any more. *)
Definition interrupts : M unit :=
  λ w, match irqIn (input w) with
       | bs :: rest =>
           Done () (mkWorld (foldr raise (dev w) bs) (finger w)
                      (set_irqIn rest (input w)) (output w))
       | [] => Done () w
       end.

Definition readFlag (flag : Device → bool) : M bool :=
  interrupts;; d ← getDev; ret (flag d).

(** What an answered command does inside the sensor: only an
    acknowledged store or delete changes the template library; a search
    answer fills in [fingerID]. *)
Definition obey (c : Command) (r : Reply) (s : Sensor) : Sensor :=
  match c with
  | FingerSearch => mkSensor (library s) (u16 (matched r))
  | StoreModel id =>
      if status r =? FINGERPRINT_OK then mkSensor ({[id]} ∪ library s) (fingerID s) else s
  | DeleteModel id =>
      if status r =? FINGERPRINT_OK then mkSensor (library s ∖ {[id]}) (fingerID s) else s
  | _ => s
  end.

(** One command to the sensor, logged with the code it came back with. *)
Definition sensor (c : Command) : M Z :=
  r ← next sensorIn set_sensorIn;
  modFinger (obey c r);;
  emit [SensorCmd c (status r)];;
  ret (status r).

Definition serverBase : string := "https://fingerprint-system.onrender.com".

(** The request is logged when it is sent, the answer is read after. *)
Definition httpPOST (url body : string) : M Z :=
  emit [HttpPost url body];;
  r ← next httpIn set_httpIn;
  ret (httpCode r).

Definition httpGET (url : string) : M HttpReply :=
  emit [HttpGet url];;
  next httpIn set_httpIn.

(** ** LED, RTC and LCD helpers *)

Definition GREEN_LED_PIN : Z := 23.
Definition RED_LED_PIN : Z := 4.

Definition ledFlashSuccess : M unit :=
  emit [DigitalWrite GREEN_LED_PIN true; DigitalWrite GREEN_LED_PIN false].

Definition ledFlashFailure : M unit :=
  emit [DigitalWrite RED_LED_PIN true; DigitalWrite RED_LED_PIN false].

Definition formatDateTime (t : DateTime) : string :=
  WString.takeChars 19
    (WString.padded 4 (dtYear t) +:+ "-" +:+ WString.padded 2 (dtMonth t) +:+ "-"
     +:+ WString.padded 2 (dtDay t) +:+ "T" +:+ WString.padded 2 (dtHour t) +:+ ":"
     +:+ WString.padded 2 (dtMinute t) +:+ ":" +:+ WString.padded 2 (dtSecond t)).

Definition getTimestamp : M string :=
  probe ← rtcNow;
  if negb (dtValid probe) then ret "1970-01-01T00:00:00"%string
  else now ← rtcNow; ret (formatDateTime now).

Definition displayLines (l1 l2 l3 l4 : string) : list Effect :=
  [ LcdClear;
    LcdSetCursor 0 0; LcdPrint (WString.substring 0 20 l1);
    LcdSetCursor 0 1; LcdPrint (WString.substring 0 20 l2);
    LcdSetCursor 0 2; LcdPrint (WString.substring 0 20 l3);
    LcdSetCursor 0 3; LcdPrint (WString.substring 0 20 l4) ].

Definition displayMessage (l1 l2 l3 l4 : string) : M unit :=
  emit (displayLines l1 l2 l3 l4).

Definition displayHomeScreen : M unit :=
  dt ← getTimestamp;
  let date := WString.substring 0 10 dt in
  let time := WString.substring 11 19 dt in
  displayMessage "  Student Biometric" ("      " +:+ date) ("      " +:+ time)
    "Status: HOME (Idle)".

(** The lines of the mode screen for a given state of the globals. *)
Definition modeScreen (d : Device) : list Effect :=
  let modeStr : string :=
    if decide (currentMode d = MODE_TIME_IN) then "TIME-IN" else "TIME-OUT" in
  if (String.length (currentEventId d) =? 0)%nat then
    displayLines ("MODE: " +:+ modeStr) "!! NO ACTIVE EVENT !!" EmptyString " (Check server)"
  else
    displayLines ("MODE: " +:+ modeStr)
      ("Event: " +:+ WString.substring 0 13 (currentEventName d))
      "Place finger on" "sensor to log...".

Definition displayModeScreen : M unit :=
  d ← getDev; emit (modeScreen d).

Definition cancelledScreen : M unit :=
  displayMessage "--- CANCELLED ---" "Returning to" "Home Screen..." EmptyString.

(** ** Keypad entry *)

Definition keys (r c : nat) : ascii :=
  match r, c with
  | 0, 0 => "1" | 0, 1 => "2" | 0, 2 => "3"
  | 1, 0 => "4" | 1, 1 => "5" | 1, 2 => "6"
  | 2, 0 => "7" | 2, 1 => "8" | 2, 2 => "9"
  | 3, 0 => "*" | 3, 1 => "0" | 3, 2 => "#"
  | _, _ => Ascii.zero
  end%nat%char.

(** The twelve cells in the order the two nested [for] loops visit them. *)
Definition scanOrder : list (nat * nat) :=
  flat_map (λ r, map (λ c, (r, c)) (seq 0 3)) (seq 0 4).

Definition KEY_DEBOUNCE_MS : Z := 150.

(** One pass of the scan: the first LOW cell that is past the debounce
    time gives the key and ends the pass ([goto keyFound]); ['\0'] when
    there is none. *)
Fixpoint scanKeys (cells : list (nat * nat)) (ks : KeyScan) (lastKeyTime : Z)
    : M (ascii * Z) :=
  match cells with
  | [] => ret (Ascii.zero, lastKeyTime)
  | cell :: rest =>
      if bool_decide (cell ∈ lowCells ks) then
        t ← millis;
        if KEY_DEBOUNCE_MS <? u32 (t - lastKeyTime) then
          t' ← millis; ret (keys cell.1 cell.2, t')
        else scanKeys rest ks lastKeyTime
      else scanKeys rest ks lastKeyTime
  end.

(** The [while (true)] loop of [getKeypadID]: [inl v] when the loop
    returns [v] from the function, [inr idString] when it is left by
    [break]. *)
Fixpoint keypadLoop (rounds : nat) (idString : string) (lastKeyTime : Z)
    : M (Z + string) :=
  match rounds with
  | O => starve
  | S rounds' =>
      home ← readFlag homeButtonState;
      if home then
        modDev (set_homeButtonState false);;
        modDev (set_currentMode MODE_HOME);;
        cancelledScreen;;
        ret (inl 0)
      else
        ks ← next keypadIn set_keypadIn;
        '(key, lastKeyTime') ← scanKeys scanOrder ks lastKeyTime;
        if decide (key = Ascii.zero) then keypadLoop rounds' idString lastKeyTime'
        else if WString.isDigit key then
          if (String.length idString <? 4)%nat then
            emit [LcdPrint (String key EmptyString)];;
            keypadLoop rounds' (idString +:+ String key EmptyString) lastKeyTime'
          else keypadLoop rounds' idString lastKeyTime'
        else if decide (key = "#"%char) then
          emit [LcdSetCursor 0 2; LcdPrint ("ID Confirmed: " +:+ idString)];;
          ret (inr idString)
        else if decide (key = "*"%char) then
          if (0 <? String.length idString)%nat then
            let idString' := WString.remove (String.length idString - 1) idString in
            let cursorPos := 4 + Z.of_nat (String.length idString') in
            emit [LcdSetCursor cursorPos 1; LcdPrint " "; LcdSetCursor cursorPos 1];;
            keypadLoop rounds' idString' lastKeyTime'
          else keypadLoop rounds' idString lastKeyTime'
        else keypadLoop rounds' idString lastKeyTime'
  end.

Definition getKeypadID : M Z :=
  displayMessage "--- ID ENTRY ---" "ID: " EmptyString "(*=Back, #=Enter)";;
  emit [LcdSetCursor 4 1];;
  how ← polling keypadIn (λ rounds, keypadLoop rounds EmptyString 0);
  match how with
  | inl v => ret v
  | inr idString =>
      if (0 <? String.length idString)%nat then
        let id := WString.toInt idString in
        if (1 <=? id) && (id <=? 1000) then ret (u16 id) else ret 0
      else ret 0
  end.

(** ** WiFi and server *)

(** The wait of [connectWiFi]: until connected or 15 s have passed. *)
Fixpoint wifiWait (rounds : nat) (start : Z) : M unit :=
  match rounds with
  | O => starve
  | S rounds' =>
      up ← wifiConnected;
      if up then ret ()
      else
        t ← millis;
        if u32 (t - start) <? 15000 then
          emit [LcdPrint "."];; wifiWait rounds' start
        else ret ()
  end.

Definition connectWiFi : M unit :=
  up ← wifiConnected;
  if up then ret ()
  else
    emit [WifiBegin; LcdSetCursor 0 3; LcdPrint "Connecting WiFi..."];;
    start ← millis;
    polling wifiIn (λ rounds, wifiWait rounds start);;
    up ← wifiConnected;
    if up then emit [LcdSetCursor 0 3; LcdPrint "WiFi Connected!     "]
    else emit [LcdSetCursor 0 3; LcdPrint "WiFi Failed!        "].

Definition idMarker : string :=
  WString.q +:+ "_id" +:+ WString.q +:+ ":" +:+ WString.q.
Definition nameMarker : string :=
  WString.q +:+ "name" +:+ WString.q +:+ ":" +:+ WString.q.

(** The text between the end of the first [marker] and the next double
    quote, as both extractions of [refreshActiveEvent] compute it;
    [skip] is the constant added to the marker's position. *)
Definition fieldAfter (marker : string) (skip : Z) (payload : string) : string :=
  let start := WString.indexOf marker 0 payload in
  if 0 <=? start then
    let start := start + skip in
    let stop := WString.indexOfChar WString.dquote (Z.to_nat start) payload in
    if start <? stop then WString.substring (Z.to_nat start) (Z.to_nat stop) payload
    else EmptyString
  else EmptyString.

Definition activeEventUrl : string := serverBase +:+ "/events/active".

Definition refreshActiveEvent : M unit :=
  connectWiFi;;
  up ← wifiConnected;
  if negb up then ret ()
  else
    reply ← httpGET activeEventUrl;
    d ← getDev;
    let code := httpCode reply in
    let oldEventId := currentEventId d in
    if code =? 200 then
      let payload := httpPayload reply in
      let newEventId := fieldAfter idMarker 7 payload in
      let newEventName := fieldAfter nameMarker 8 payload in
      modDev (set_currentEventId newEventId);;
      modDev (set_currentEventName newEventName);;
      if decide (newEventId ≠ oldEventId) then modDev (set_studentsTimeIn [])
      else ret ()
    else if code =? 404 then
      modDev (set_currentEventId EmptyString);;
      modDev (set_currentEventName "No Active Event");;
      if (0 <? String.length oldEventId)%nat then modDev (set_studentsTimeIn [])
      else ret ()
    else ret ().

(** The JSON body of a log request. *)
Definition logBody (fpID : Z) (eventId type timestamp : string) : string :=
  "{" +:+ WString.q +:+ "fingerprintID" +:+ WString.q +:+ ": " +:+ WString.ofInt fpID
  +:+ ", " +:+ WString.q +:+ "eventId" +:+ WString.q +:+ ": " +:+ WString.q +:+ eventId
  +:+ WString.q +:+ ", " +:+ WString.q +:+ "type" +:+ WString.q +:+ ": " +:+ WString.q
  +:+ type +:+ WString.q +:+ ", " +:+ WString.q +:+ "timestamp" +:+ WString.q +:+ ": "
  +:+ WString.q +:+ timestamp +:+ WString.q +:+ " }".

Definition logUrl : string := serverBase +:+ "/esp-log".

Definition postAttendance (fpID : Z) (type : string) : M bool :=
  d ← getDev;
  if (String.length (currentEventId d) =? 0)%nat then
    displayMessage "--- FAILED ---" "No Active Event" "Log skipped." EmptyString;;
    ledFlashFailure;;
    ret false
  else
    connectWiFi;;
    up ← wifiConnected;
    if negb up then
      displayMessage "--- FAILED ---" "WiFi Offline" "Cannot send log." EmptyString;;
      ledFlashFailure;;
      ret false
    else
      timestamp ← getTimestamp;
      code ← httpPOST logUrl (logBody fpID (currentEventId d) type timestamp);
      if (code =? 200) || (code =? 201) then
        ledFlashSuccess;;
        (if decide (type = "Time-In"%string) then
           d' ← getDev; modDev (set_studentsTimeIn (studentsTimeIn d' ++ [fpID]))
         else ret ());;
        ret true
      else if code =? 404 then
        displayMessage "--- FAILED ---" "No Active Event" "(Server 404)" "Refreshing...";;
        refreshActiveEvent;;
        ledFlashFailure;;
        ret false
      else
        displayMessage "--- FAILED ---" "Server Error" ("Code: " +:+ WString.ofInt code)
          EmptyString;;
        ledFlashFailure;;
        ret false.

(** ** Fingerprint logic *)

(** The three waits of [enrollFingerprint]: poll [getImage] until it
    answers [want]; on every other answer look at the Home flag.  The
    interrupts that arrived while the sensor was polled are delivered
    when it has answered, whatever the answer.  [true] when the awaited
    answer came, [false] when the wait was cancelled (the function
    returns). *)
Fixpoint awaitImage (want : Z) (rounds : nat) : M bool :=
  match rounds with
  | O => starve
  | S rounds' =>
      p ← sensor GetImage;
      home ← readFlag homeButtonState;
      if p =? want then ret true
      else if home then
        modDev (set_homeButtonState false);;
        modDev (set_currentMode MODE_HOME);;
        cancelledScreen;;
        ret false
      else awaitImage want rounds'
  end.

(** [enrollFingerprint] is [void]; the model returns which of its
    [return] statements was taken. *)
Inductive EnrollExit :=
| DeleteFailed
| Cancelled (wait : nat)
| Image1Failed
| Image2Failed
| Mismatch
| StoreFailed
| Enrolled.

Definition enrollFingerprint (id : Z) : M EnrollExit :=
  let title : string := "Enrolling ID: " +:+ WString.ofInt id in
  displayMessage title "Checking..." EmptyString EmptyString;;
  p ← sensor (LoadModel id);
  cleared ←
    (if p =? FINGERPRINT_OK then
       displayMessage title "ID already exists." "Deleting old one..." EmptyString;;
       p ← sensor (DeleteModel id);
       if negb (p =? FINGERPRINT_OK) then
         displayMessage "--- FAILED ---" "Could not delete" "old ID template." "Aborting...";;
         ledFlashFailure;;
         ret false
       else ret true
     else ret true);
  if negb cleared then ret DeleteFailed
  else
    displayMessage title EmptyString "Place finger..." "(Scan 1 of 2)";;
    placed ← polling sensorIn (awaitImage FINGERPRINT_OK);
    if negb placed then ret (Cancelled 1)
    else
      p ← sensor (Image2Tz 1);
      if negb (p =? FINGERPRINT_OK) then
        displayMessage "--- FAILED ---" "Image 1 failed." "Please try again." EmptyString;;
        ledFlashFailure;;
        ret Image1Failed
      else
        displayMessage title "Scan 1 OK." "Remove finger..." EmptyString;;
        ledFlashSuccess;;
        removed ← polling sensorIn (awaitImage FINGERPRINT_NOFINGER);
        if negb removed then ret (Cancelled 2)
        else
          displayMessage title EmptyString "Place same finger..." "(Scan 2 of 2)";;
          placed ← polling sensorIn (awaitImage FINGERPRINT_OK);
          if negb placed then ret (Cancelled 3)
          else
            p ← sensor (Image2Tz 2);
            if negb (p =? FINGERPRINT_OK) then
              displayMessage "--- FAILED ---" "Image 2 failed." "Please try again."
                EmptyString;;
              ledFlashFailure;;
              ret Image2Failed
            else
              displayMessage title "Scan 2 OK." "Creating model..." EmptyString;;
              ledFlashSuccess;;
              p ← sensor CreateModel;
              if negb (p =? FINGERPRINT_OK) then
                displayMessage "--- FAILED ---" "Scans did not match." "Please try again."
                  EmptyString;;
                ledFlashFailure;;
                ret Mismatch
              else
                p ← sensor (StoreModel id);
                if p =? FINGERPRINT_OK then
                  displayMessage "--- SUCCESS ---" ("ID: " +:+ WString.ofInt id +:+ " Enrolled!")
                    EmptyString EmptyString;;
                  ledFlashSuccess;;
                  ret Enrolled
                else
                  displayMessage "--- FAILED ---" "Could not store" "model in sensor."
                    "Aborting...";;
                  ledFlashFailure;;
                  ret StoreFailed.

Definition SEND_COOLDOWN_MS : Z := 5000.

(** The two LCD writes that follow a captured image. *)
Definition processingBanner : list Effect :=
  [ LcdSetCursor 0 2; LcdPrint "Processing finger...";
    LcdSetCursor 0 3; LcdPrint "                    " ].

Definition noMatchScreen : M unit :=
  displayMessage "--- NO MATCH ---" "Finger not found." "Please try again." EmptyString;;
  ledFlashFailure.

(** The success screen shown after a log request went through; it reads
    [currentEventName] at that moment. *)
Definition loggedScreen (id : Z) (type : string) : M unit :=
  d ← getDev;
  displayMessage "--- SUCCESS ---" ("ID: " +:+ WString.ofInt id +:+ " Logged")
    type ("Event: " +:+ WString.substring 0 13 (currentEventName d)).

Definition processTimeIn : M unit :=
  p ← sensor GetImage;
  if negb (p =? FINGERPRINT_OK) then ret ()
  else
    emit processingBanner;;
    p ← sensor (Image2Tz 1);
    if negb (p =? FINGERPRINT_OK) then displayModeScreen
    else
      p ← sensor FingerSearch;
      if p =? FINGERPRINT_OK then
        f ← getFinger;
        let id := fingerID f in
        now ← millis;
        d ← getDev;
        if (id =? lastSentFingerprint d) && (u32 (now - lastSentMillis d) <? SEND_COOLDOWN_MS)
        then displayModeScreen
        else
          (if bool_decide (id ∈ studentsTimeIn d) then
             displayMessage "--- FAILED ---" ("ID: " +:+ WString.ofInt id +:+ " already")
               "logged TIME-IN." EmptyString;;
             ledFlashFailure
           else
             modDev (set_lastSentFingerprint id);;
             modDev (set_lastSentMillis now);;
             displayMessage "--- MATCH ---" ("ID: " +:+ WString.ofInt id)
               "Sending to server..." EmptyString;;
             sent ← postAttendance id "Time-In";
             if sent then loggedScreen id "Time-In" else ret ());;
          displayModeScreen
      else
        noMatchScreen;;
        displayModeScreen.

Definition processTimeOut : M unit :=
  p ← sensor GetImage;
  if negb (p =? FINGERPRINT_OK) then ret ()
  else
    emit processingBanner;;
    p ← sensor (Image2Tz 1);
    if negb (p =? FINGERPRINT_OK) then displayModeScreen
    else
      p ← sensor FingerSearch;
      if p =? FINGERPRINT_OK then
        f ← getFinger;
        let id := fingerID f in
        now ← millis;
        d ← getDev;
        if (id =? lastSentFingerprint d) && (u32 (now - lastSentMillis d) <? SEND_COOLDOWN_MS)
        then displayModeScreen
        else
          modDev (set_lastSentFingerprint id);;
          modDev (set_lastSentMillis now);;
          displayMessage "--- MATCH ---" ("ID: " +:+ WString.ofInt id)
            "Sending to server..." EmptyString;;
          sent ← postAttendance id "Time-Out";
          (if sent then loggedScreen id "Time-Out" else ret ());;
          displayModeScreen
      else
        noMatchScreen;;
        displayModeScreen.

(** ** The main loop *)

(** One pass of [loop()]. *)
Definition loop : M unit :=
  home ← readFlag homeButtonState;
  if home then
    modDev (set_homeButtonState false);;
    modDev (set_currentMode MODE_HOME);;
    displayHomeScreen
  else
    timeIn ← readFlag timeInButtonState;
    if timeIn then
      modDev (set_timeInButtonState false);;
      modDev (set_currentMode MODE_TIME_IN);;
      refreshActiveEvent;;
      displayModeScreen
    else
      timeOut ← readFlag timeOutButtonState;
      if timeOut then
        modDev (set_timeOutButtonState false);;
        modDev (set_currentMode MODE_TIME_OUT);;
        refreshActiveEvent;;
        displayModeScreen
      else
        enroll ← readFlag enrollButtonState;
        if enroll then
          modDev (set_enrollButtonState false);;
          modDev (set_currentMode MODE_ENROLL);;
          id ← getKeypadID;
          d ← getDev;
          (if decide (currentMode d = MODE_ENROLL) then
             if 0 <? id then enrollFingerprint id;; ret ()
             else
               displayMessage "--- FAILED ---" "Invalid or no ID" "was entered."
                 "Enrollment aborted.";;
               ledFlashFailure
           else ret ());;
          d ← getDev;
          if decide (currentMode d = MODE_ENROLL) then
            modDev (set_currentMode MODE_HOME);;
            displayHomeScreen
          else ret ()
        else
          d ← getDev;
          match currentMode d with
          | MODE_TIME_IN => processTimeIn
          | MODE_TIME_OUT => processTimeOut
          | MODE_HOME =>
              t ← millis;
              if 1000 <? u32 (t - lastHomeUpdate d) then
                t' ← millis;
                modDev (set_lastHomeUpdate t');;
                dt ← getTimestamp;
                emit [ LcdSetCursor 6 1; LcdPrint (WString.substring 0 10 dt);
                       LcdSetCursor 6 2; LcdPrint (WString.substring 11 19 dt) ]
              else ret ()
          | MODE_ENROLL => ret ()
          end.

(** A run from a given state of the device and the sensor on a given
    script, with an empty output trace. *)
Definition boot (d : Device) (s : Sensor) (i : Inputs) : World := mkWorld d s i [].

(** ** Notions used to state properties of runs *)

(** [wp m w Q]: the run of [m] from [w] ends, returned or blocked, in a
    world that satisfies [Q]; the first argument of [Q] is the returned
    value, if any. *)
Definition wp {A} (m : M A) (w : World) (Q : option A → World → Prop) : Prop :=
  match m w with
  | Done a w' => Q (Some a) w'
  | Starved w' => Q None w'
  end.

(** Every run of [m] relates its first world to its last by [R]. *)
Definition keeps (R : relation World) {A} (m : M A) : Prop :=
  ∀ w, R w (final (m w)).

(** The effects of a run from [w] to [w'] are [new]. *)
Definition emitted (w w' : World) (new : list Effect) : Prop :=
  output w' = output w ++ new.

Definition isPost (e : Effect) : Prop :=
  match e with HttpPost _ _ => True | _ => False end.

Definition isGet (e : Effect) : Prop :=
  match e with HttpGet _ => True | _ => False end.

Definition isNetwork (e : Effect) : Prop :=
  match e with HttpPost _ _ | HttpGet _ | WifiBegin => True | _ => False end.

Global Instance isPost_dec e : Decision (isPost e).
Proof. destruct e; simpl; apply _. Defined.
Global Instance isGet_dec e : Decision (isGet e).
Proof. destruct e; simpl; apply _. Defined.
Global Instance isNetwork_dec e : Decision (isNetwork e).
Proof. destruct e; simpl; apply _. Defined.

(** The sensor commands among some effects, with their codes. *)
Definition sensorLog (es : list Effect) : list (Command * Z) :=
  omap (λ e, match e with SensorCmd c k => Some (c, k) | _ => None end) es.

(** The dedup guard. *)
Definition guard (d : Device) : Z * Z := (lastSentFingerprint d, lastSentMillis d).

(** The cached active event. *)
Definition cache (d : Device) : string * string := (currentEventId d, currentEventName d).

(** What everything but a submission does to the globals and the
    outside: the guard stays, the Time-In list stays or is emptied, and
    no log request is sent. *)
Definition calm : relation World := λ w w',
  guard (dev w') = guard (dev w)
  ∧ (studentsTimeIn (dev w') = studentsTimeIn (dev w) ∨ studentsTimeIn (dev w') = [])
  ∧ ∃ new, emitted w w' new ∧ Forall (λ e, ¬ isPost e) new.

(** The globals after the pending interrupts have been delivered. *)
Definition delivered (w : World) : Device := dev (final (interrupts w)).

(** Effects that stay on the terminal: LCD and LED writes. *)
Definition isLocal (e : Effect) : Prop :=
  match e with
  | LcdClear | LcdSetCursor _ _ | LcdPrint _ | DigitalWrite _ _ => True
  | _ => False
  end.

(** What [connectWiFi] can do: read the WiFi status and the clock, start
    the WiFi and write to the LCD. *)
Definition wifiOnly : relation World := λ w w',
  dev w' = dev w ∧ finger w' = finger w
  ∧ sensorIn (input w') = sensorIn (input w)
  ∧ irqIn (input w') = irqIn (input w)
  ∧ keypadIn (input w') = keypadIn (input w)
  ∧ httpIn (input w') = httpIn (input w)
  ∧ rtcIn (input w') = rtcIn (input w)
  ∧ ∃ new, emitted w w' new ∧ Forall (λ e, isLocal e ∨ e = WifiBegin) new.

(** The screen and LED flash of a submission refused for want of an
    active event. *)
Definition noEventScreen : list Effect :=
  displayLines "--- FAILED ---" "No Active Event" "Log skipped." EmptyString
  ++ [DigitalWrite RED_LED_PIN true; DigitalWrite RED_LED_PIN false].

(** What an answer to the active-event query does to the globals, as a
    function of the answer: the assignments of [refreshActiveEvent]
    after [http.GET()]. *)
Definition absorbReply (reply : HttpReply) (d : Device) : Device :=
  if httpCode reply =? 200 then
    let newEventId := fieldAfter idMarker 7 (httpPayload reply) in
    let newEventName := fieldAfter nameMarker 8 (httpPayload reply) in
    let d' := set_currentEventName newEventName (set_currentEventId newEventId d) in
    if decide (newEventId ≠ currentEventId d) then set_studentsTimeIn [] d' else d'
  else if httpCode reply =? 404 then
    let d' := set_currentEventName "No Active Event" (set_currentEventId EmptyString d) in
    if (0 <? String.length (currentEventId d))%nat then set_studentsTimeIn [] d' else d'
  else d.

(** A text without a double quote. *)
Fixpoint quoteFree (s : string) : bool :=
  match s with
  | EmptyString => true
  | String c s' => negb (Ascii.eqb c WString.dquote) && quoteFree s'
  end.

(** A payload has a recognizable identifier field when its first
    identifier marker is followed by a non-empty text free of double
    quotes and a closing double quote.  It lacks one when it holds no
    marker, or when its first marker is followed by a double quote at
    once or by a text that is never closed. *)
Definition hasIdField (payload : string) : Prop :=
  ∃ pre v post,
    payload = pre +:+ idMarker +:+ v +:+ WString.q +:+ post
    ∧ v ≠ EmptyString ∧ quoteFree v = true
    ∧ ∀ pre' post', payload = pre' +:+ idMarker +:+ post' →
        (String.length pre ≤ String.length pre')%nat.

(** A log request is well formed when it goes to the log URL with a
    body built around a non-empty event identifier. *)
Definition wellFormedPost (e : Effect) : Prop :=
  match e with
  | HttpPost url body =>
      url = logUrl
      ∧ ∃ fpID eventId type timestamp,
          eventId ≠ EmptyString ∧ body = logBody fpID eventId type timestamp
  | _ => True
  end.

(** What every part of the sketch maintains: the Time-In list stays
    free of duplicates and every log request is well formed. *)
Definition sound : relation World := λ w w',
  (NoDup (studentsTimeIn (dev w)) → NoDup (studentsTimeIn (dev w')))
  ∧ ∃ new, emitted w w' new ∧ Forall wellFormedPost new.

(** A run that only reads inputs. *)
Definition readsOnly : relation World := λ w w',
  dev w' = dev w ∧ finger w' = finger w ∧ output w' = output w.

(** The log requests a submission from [w] may send: to the log URL,
    for this identifier and type, and only with a non-empty cached
    event identifier, which they carry. *)
Definition submits (w : World) (fpID : Z) (type : string) (e : Effect) : Prop :=
  match e with
  | HttpPost url body =>
      currentEventId (dev w) ≠ EmptyString ∧ url = logUrl
      ∧ ∃ timestamp, body = logBody fpID (currentEventId (dev w)) type timestamp
  | _ => True
  end.

(** ** Matched scans *)

(** The script of [w] starts with a scan that matches [id] at time
    [now]: the image is captured, its features are extracted, the
    search answers [id], and [millis()] reads [now]. *)
Definition matchedScan (w : World) (id now : Z) : Prop :=
  ∃ r1 r2 r3 rs t ts,
    sensorIn (input w) = r1 :: r2 :: r3 :: rs
    ∧ status r1 = FINGERPRINT_OK ∧ status r2 = FINGERPRINT_OK
    ∧ status r3 = FINGERPRINT_OK ∧ u16 (matched r3) = id
    ∧ clockIn (input w) = t :: ts ∧ u32 t = now.

(** The guard holds [id] and less than the cooldown has passed. *)
Definition suppressed (d : Device) (id now : Z) : Prop :=
  id = lastSentFingerprint d ∧ u32 (now - lastSentMillis d) < SEND_COOLDOWN_MS.

Global Instance suppressed_dec d id now : Decision (suppressed d id now).
Proof. unfold suppressed. apply _. Defined.

(** What a matched scan writes before the guard is looked at. *)
Definition scanEffects : list Effect :=
  [SensorCmd GetImage FINGERPRINT_OK] ++ processingBanner
  ++ [SensorCmd (Image2Tz 1) FINGERPRINT_OK; SensorCmd FingerSearch FINGERPRINT_OK].

(** The world once a matched scan has been read, before the guard is
    looked at. *)
Definition scanned (w : World) (id : Z) : World :=
  mkWorld (dev w) (mkSensor (library (finger w)) id)
    (set_clockIn (tail (clockIn (input w)))
       (set_sensorIn (drop 3 (sensorIn (input w))) (input w)))
    (output w ++ scanEffects).

Definition emitOn (w : World) (es : list Effect) : World :=
  mkWorld (dev w) (finger w) (input w) (output w ++ es).

Definition withDev (d : Device) (w : World) : World :=
  mkWorld d (finger w) (input w) (output w).

(** A suppressed scan: back to the mode screen, nothing else. *)
Definition hushed (w : World) (id : Z) : World :=
  emitOn (scanned w id) (modeScreen (dev w)).

(** A scan that passed the local checks: the guard is set and the
    match is announced; the submission starts from here. *)
Definition armed (w : World) (id now : Z) : World :=
  emitOn
    (withDev (set_lastSentMillis now (set_lastSentFingerprint id (dev w))) (scanned w id))
    (displayLines "--- MATCH ---" ("ID: " +:+ WString.ofInt id) "Sending to server..."
       EmptyString).

(** A Time-In scan of an identifier that is already in the list. *)
Definition alreadyLogged (w : World) (id : Z) : World :=
  emitOn (scanned w id)
    (displayLines "--- FAILED ---" ("ID: " +:+ WString.ofInt id +:+ " already")
       "logged TIME-IN." EmptyString
     ++ [DigitalWrite RED_LED_PIN true; DigitalWrite RED_LED_PIN false]
     ++ modeScreen (dev w)).

(** The rest of [processTimeIn] / [processTimeOut] once the guard is
    set: submit, report, return to the mode screen. *)
Definition submitAndReport (id : Z) (type : string) : M unit :=
  sent ← postAttendance id type;
  (if sent then loggedScreen id type else ret ());;
  displayModeScreen.

(** [n] passes of the main loop. *)
Fixpoint passes (n : nat) : M unit :=
  match n with
  | O => ret ()
  | S n' => loop;; passes n'
  end.

(** What [getTimestamp] reads from the RTC queue: the text it returns
    and the rest of the queue; [None] when the queue runs out. *)
Definition readStamp (rtc : list DateTime) : option (string * list DateTime) :=
  match rtc with
  | probe :: rest =>
      if negb (dtValid probe) then Some ("1970-01-01T00:00:00"%string, rest)
      else match rest with
           | now :: rest' => Some (formatDateTime now, rest')
           | [] => None
           end
  | [] => None
  end.

(** The screen shown when the server answers a log request with 404. *)
Definition notFoundScreen : list Effect :=
  displayLines "--- FAILED ---" "No Active Event" "(Server 404)" "Refreshing...".

(** What follows that screen in [postAttendance]. *)
Definition refreshAndFail : M bool :=
  refreshActiveEvent;; ledFlashFailure;; ret false.

(** The world in which a log request has just been answered: WiFi was
    up (two status reads), the timestamp [ts] was read leaving [rtc],
    the request went out and its answer was taken from the queue. *)
Definition posted (w : World) (fpID : Z) (type ts : string) (rtc : list DateTime) : World :=
  mkWorld (dev w) (finger w)
    (set_httpIn (tail (httpIn (input w)))
       (set_rtcIn rtc (set_wifiIn (drop 2 (wifiIn (input w))) (input w))))
    (output w ++ [HttpPost logUrl (logBody fpID (currentEventId (dev w)) type ts)]).

(** Nothing went over the network between [w] and [w']. *)
Definition offline (w w' : World) : Prop :=
  ∃ new, emitted w w' new ∧ Forall (λ e, ¬ isNetwork e) new.

(** ** Keypad entry, in the words of the specification *)

(** What one key does to the digits entered so far: a digit is appended
    while there are fewer than four, the backspace key removes the last
    digit, any other key leaves them as they are. *)
Definition editId (idString : string) (key : ascii) : string :=
  if WString.isDigit key then
    if (String.length idString <? 4)%nat then idString +:+ String key EmptyString
    else idString
  else if decide (key = "*"%char) then
    WString.remove (String.length idString - 1) idString
  else idString.

(** The world at the start of a keypad round once the Home flag has
    been looked at and the matrix has been read: [rest] is what is left
    of the keypad queue. *)
Definition polled (w : World) (rest : list KeyScan) : World :=
  let w0 := final (interrupts w) in
  mkWorld (dev w0) (finger w0) (set_keypadIn rest (input w0)) (output w0).

(** The world after a cancellation: flag cleared, mode Home, the
    cancelled screen shown. *)
Definition cancelled (w : World) : World :=
  emitOn
    (withDev (set_currentMode MODE_HOME (set_homeButtonState false (dev w))) w)
    (displayLines "--- CANCELLED ---" "Returning to" "Home Screen..." EmptyString).

Fixpoint digitsOnly (s : string) : bool :=
  match s with
  | EmptyString => true
  | String c s' => WString.isDigit c && digitsOnly s'
  end.

(** What [getKeypadID] writes before its loop. *)
Definition entryScreen : list Effect :=
  displayLines "--- ID ENTRY ---" "ID: " EmptyString "(*=Back, #=Enter)"
  ++ [LcdSetCursor 4 1].

Definition confirmedScreen (idString : string) : list Effect :=
  [LcdSetCursor 0 2; LcdPrint ("ID Confirmed: " +:+ idString)].

(** A log in which both scans were captured and extracted, and the
    two were combined, before the template was sent to be stored:
    [s1], [s2] and [s3] are the polls of the three waits. *)
Definition bothScans (id : Z) (L : list (Command * Z)) : Prop :=
  ∃ pre s1 s2 s3 code,
    L = pre ++ s1 ++ [(Image2Tz 1, FINGERPRINT_OK)] ++ s2 ++ s3
        ++ [(Image2Tz 2, FINGERPRINT_OK); (CreateModel, FINGERPRINT_OK);
            (StoreModel id, code)]
    ∧ (GetImage, FINGERPRINT_OK) ∈ s1
    ∧ (GetImage, FINGERPRINT_NOFINGER) ∈ s2
    ∧ (GetImage, FINGERPRINT_OK) ∈ s3.

(** What every run of [enrollFingerprint id] from [w] satisfies, in
    terms of its exit [r], its last world [w'] and the log [L] of the
    sensor commands it sent. *)
Definition enrollment (id : Z) (w : World) (r : option EnrollExit) (w' : World)
    (L : list (Command * Z)) : Prop :=
  (∀ code, (StoreModel id, code) ∈ L → bothScans id L)
  ∧ (r = Some Enrolled →
     (StoreModel id, FINGERPRINT_OK) ∈ L
     ∧ library (finger w') = {[id]} ∪ library (finger w))
  ∧ (r ≠ Some Enrolled →
     ((StoreModel id, FINGERPRINT_OK) ∉ L)
     ∧ ((DeleteModel id, FINGERPRINT_OK) ∈ L →
        library (finger w') = library (finger w) ∖ {[id]})
     ∧ ((DeleteModel id, FINGERPRINT_OK) ∉ L →
        library (finger w') = library (finger w)))
  ∧ (∀ k, r = Some (Cancelled k) →
     currentMode (dev w') = MODE_HOME ∧ homeButtonState (dev w') = false
     ∧ ∀ code, (StoreModel id, code) ∉ L)
  ∧ ((DeleteModel id, FINGERPRINT_OK) ∈ L → (LoadModel id, FINGERPRINT_OK) ∈ L).

Global Instance Command_eq_dec : EqDecision Command.
Proof. solve_decision. Defined.

(** The world in which the sensor has just answered [r] to the command
    [c]. *)
Definition answered (c : Command) (w : World) (r : Reply) (rest : list Reply) : World :=
  mkWorld (dev w) (obey c r (finger w)) (set_sensorIn rest (input w))
    (output w ++ [SensorCmd c (status r)]).

(** What [getKeypadID] makes of the text left by the terminator key. *)
Definition idOf (idString : string) : Z :=
  if (0 <? String.length idString)%nat then
    let id := WString.toInt idString in
    if (1 <=? id) && (id <=? 1000) then u16 id else 0
  else 0.

(** The entry loop of [getKeypadID], from the entry screen on. *)
Definition entry : M (Z + string) :=
  emit entryScreen;;
  polling keypadIn (λ rounds, keypadLoop rounds EmptyString 0).

(** ** Scripts *)

Definition enrolling : Device := set_currentMode MODE_ENROLL bootDevice.

Definition ok : Reply := mkReply FINGERPRINT_OK 0.
Definition noFinger : Reply := mkReply FINGERPRINT_NOFINGER 0.
Definition notFound : Reply := mkReply 12 0.

(** Identifier 7 is enrolled again: its old template is found and
    deleted, then Home is pressed while the first scan is awaited. *)
Definition reenrollDemo : World :=
  boot enrolling (mkSensor {[7]} 0)
    (mkInputs [ok; ok; noFinger] [[BtnHome]] [] [] [] [] []).

(** A new identifier is enrolled without a hitch; Home is pressed while
    the sensor takes the image of the second scan. *)
Definition homeDemo : World :=
  boot enrolling (mkSensor ∅ 0)
    (mkInputs [notFound; ok; ok; noFinger; noFinger; ok; ok; ok; ok]
       [[]; []; []; [BtnHome]] [] [] [] [] []).

(** Home is pressed before the first key. *)
Definition cancelDemo : World :=
  boot enrolling (mkSensor ∅ 0) (mkInputs [] [[BtnHome]] [] [] [] [] []).

(** The terminator key is pressed at once. *)
Definition emptyDemo : World :=
  boot enrolling (mkSensor ∅ 0)
    (mkInputs [] [] [mkKeyScan [(3, 2)%nat]] [200; 200] [] [] []).

(** The keys 0 and # are pressed. *)
Definition zeroDemo : World :=
  boot enrolling (mkSensor ∅ 0)
    (mkInputs [] [] [mkKeyScan [(3, 1)%nat]; mkKeyScan [(3, 2)%nat]]
       [200; 200; 400; 400] [] [] []).

(** The keys 4, 2 and # are pressed. *)
Definition keyDemo : World :=
  boot enrolling (mkSensor ∅ 0)
    (mkInputs [] [] [mkKeyScan [(1, 0)%nat]; mkKeyScan [(0, 1)%nat]; mkKeyScan [(3, 2)%nat]]
       [200; 200; 400; 400; 600; 600] [] [] []).

(** Identifier 42 is scanned in Time-In mode at 10 s; it is in the
    Time-In list already and the guard holds nothing. *)
Definition timeInDemo : World :=
  boot (set_studentsTimeIn [42] (set_currentEventId "E1" (set_currentMode MODE_TIME_IN bootDevice)))
    (mkSensor {[42]} 0)
    (mkInputs [ok; ok; mkReply FINGERPRINT_OK 42] [] [] [10000] [true; true]
       [mkHttpReply 200 EmptyString] []).

(** The same scan in Time-Out mode. *)
Definition timeOutDemo : World :=
  boot (set_currentEventId "E1" (set_currentMode MODE_TIME_OUT bootDevice))
    (mkSensor {[42]} 0)
    (mkInputs [ok; ok; mkReply FINGERPRINT_OK 42] [] [] [10000] [true; true]
       [mkHttpReply 200 EmptyString] []).

(** A 200 answer with an empty identifier followed by a name, received
    after WiFi had to be brought up first. *)
Definition lackingDemo : World :=
  boot (set_studentsTimeIn [7] (set_currentEventId "E1" bootDevice)) (mkSensor ∅ 0)
    (mkInputs [] [] [] [1000] [false; true; true; true]
       [mkHttpReply 200
          ("{" +:+ idMarker +:+ WString.q +:+ "," +:+ nameMarker +:+ "X" +:+ WString.q
           +:+ "}")]
       []).

(** A log request is answered 404; the query that follows finds the
    event E2. *)
Definition notFoundDemo : World :=
  boot (set_studentsTimeIn [7] (set_currentEventId "E1" (set_currentMode MODE_TIME_IN bootDevice)))
    (mkSensor ∅ 0)
    (mkInputs [] [] [] [] [true; true; true; true]
       [ mkHttpReply 404 EmptyString;
         mkHttpReply 200 ("{" +:+ idMarker +:+ "E2" +:+ WString.q +:+ "}") ]
       [mkDateTime false 0 0 0 0 0 0]).

(** A log request is answered 404 after WiFi had to be brought up
    first; the query that follows finds the event E2. *)
Definition reconnectDemo : World :=
  boot (set_studentsTimeIn [7] (set_currentEventId "E1" (set_currentMode MODE_TIME_IN bootDevice)))
    (mkSensor ∅ 0)
    (mkInputs [] [] [] [1000] [false; true; true; true; true; true]
       [ mkHttpReply 404 EmptyString;
         mkHttpReply 200 ("{" +:+ idMarker +:+ "E2" +:+ WString.q +:+ "}") ]
       [mkDateTime false 0 0 0 0 0 0]).

(** An outcome from its parts. *)
Definition outcome {A} (r : option A) (w : World) : Outcome A :=
  match r with Some a => Done a w | None => Starved w end.

(** The event changes from E1 to E2 while one student is logged. *)
Definition refreshDemo : World :=
  boot (set_studentsTimeIn [42] (set_currentEventId "E1" bootDevice)) (mkSensor ∅ 0)
    (mkInputs [] [] [] [] [true; true]
       [mkHttpReply 200 ("{" +:+ idMarker +:+ "E2" +:+ WString.q +:+ "}")] []).

(** ** Interrupt service routines *)

Global Instance Button_eq_dec : EqDecision Button.
Proof. solve_decision. Defined.

(** The [static] [last_interrupt_time] of each of the four handlers. *)
Record IsrState := mkIsrState {
  lastEnrollIrq : Z;
  lastHomeIrq : Z;
  lastTimeInIrq : Z;
  lastTimeOutIrq : Z
}.

Definition bootIsr : IsrState := mkIsrState 0 0 0 0.

(** A handler runs on a falling edge of its pin; [clock] is what
    [millis()] reads at that moment.  The edge is accepted when more
    than 200 ms have passed since the last accepted edge of the same
    button. *)
Definition handleEnrollButton (clock : Z) (st : IsrState * Device) : IsrState * Device :=
  let '(s, d) := st in
  let interrupt_time := u32 clock in
  if 200 <? u32 (interrupt_time - lastEnrollIrq s) then
    (mkIsrState interrupt_time (lastHomeIrq s) (lastTimeInIrq s) (lastTimeOutIrq s),
     set_enrollButtonState true d)
  else (s, d).

Definition handleHomeButton (clock : Z) (st : IsrState * Device) : IsrState * Device :=
  let '(s, d) := st in
  let interrupt_time := u32 clock in
  if 200 <? u32 (interrupt_time - lastHomeIrq s) then
    (mkIsrState (lastEnrollIrq s) interrupt_time (lastTimeInIrq s) (lastTimeOutIrq s),
     set_homeButtonState true d)
  else (s, d).

Definition handleTimeInButton (clock : Z) (st : IsrState * Device) : IsrState * Device :=
  let '(s, d) := st in
  let interrupt_time := u32 clock in
  if 200 <? u32 (interrupt_time - lastTimeInIrq s) then
    (mkIsrState (lastEnrollIrq s) (lastHomeIrq s) interrupt_time (lastTimeOutIrq s),
     set_timeInButtonState true d)
  else (s, d).

Definition handleTimeOutButton (clock : Z) (st : IsrState * Device) : IsrState * Device :=
  let '(s, d) := st in
  let interrupt_time := u32 clock in
  if 200 <? u32 (interrupt_time - lastTimeOutIrq s) then
    (mkIsrState (lastEnrollIrq s) (lastHomeIrq s) (lastTimeInIrq s) interrupt_time,
     set_timeOutButtonState true d)
  else (s, d).

(** The handler attached to each button's pin in [setup]. *)
Definition handler (b : Button) : Z → IsrState * Device → IsrState * Device :=
  match b with
  | BtnEnroll => handleEnrollButton
  | BtnHome => handleHomeButton
  | BtnTimeIn => handleTimeInButton
  | BtnTimeOut => handleTimeOutButton
  end.

(** The time of the last accepted edge of a button. *)
Definition lastIrq (b : Button) (s : IsrState) : Z :=
  match b with
  | BtnEnroll => lastEnrollIrq s
  | BtnHome => lastHomeIrq s
  | BtnTimeIn => lastTimeInIrq s
  | BtnTimeOut => lastTimeOutIrq s
  end.

(** The flag of a button. *)
Definition flagOf (b : Button) (d : Device) : bool :=
  match b with
  | BtnEnroll => enrollButtonState d
  | BtnHome => homeButtonState d
  | BtnTimeIn => timeInButtonState d
  | BtnTimeOut => timeOutButtonState d
  end.

(** A series of edges, each with the button and the clock reading. *)
Definition edges (es : list (Button * Z)) (st : IsrState * Device) : IsrState * Device :=
  foldl (λ st e, handler e.1 e.2 st) st es.

(** ** Dates *)

(** The fields of a date fit the widths of the format: four digits of
    year, two of everything else. *)
Definition fitsFormat (t : DateTime) : Prop :=
  (dtYear t < 10000 ∧ dtMonth t < 100 ∧ dtDay t < 100
   ∧ dtHour t < 100 ∧ dtMinute t < 100 ∧ dtSecond t < 100)%N.

(** The date and the time of day as the home screen shows them. *)
Definition dateText (t : DateTime) : string :=
  WString.padded 4 (dtYear t) +:+ "-" +:+ WString.padded 2 (dtMonth t) +:+ "-"
  +:+ WString.padded 2 (dtDay t).

Definition timeText (t : DateTime) : string :=
  WString.padded 2 (dtHour t) +:+ ":" +:+ WString.padded 2 (dtMinute t) +:+ ":"
  +:+ WString.padded 2 (dtSecond t).

(** What [getTimestamp] returns when the RTC reports an invalid time. *)
Definition epochStamp : string := "1970-01-01T00:00:00".

(** An LCD write fits the 20 columns of a row. *)
Definition fitsRow (e : Effect) : Prop :=
  match e with
  | LcdPrint text => (String.length text ≤ 20)%nat
  | _ => True
  end.

(** The home screen for a given timestamp. *)
Definition homeScreen (date time : string) : list Effect :=
  displayLines "  Student Biometric" ("      " +:+ date) ("      " +:+ time)
    "Status: HOME (Idle)".

(** Two valid readings of a clock that shows the last second of 2024. *)
Definition newYearsEve : DateTime := mkDateTime true 2024 12 31 23 59 59.

Definition clockDemo : World :=
  boot bootDevice (mkSensor ∅ 0) (mkInputs [] [] [] [] [] [] [newYearsEve; newYearsEve]).

(** ** Typing on the keypad *)

(** One pass over the matrix with a single key held down. *)
Definition press (cell : nat * nat) : KeyScan := mkKeyScan [cell].

(** The cell of each key of the pad. *)
Definition cellOf (key : ascii) : nat * nat :=
  if decide (key = "1"%char) then (0, 0)%nat
  else if decide (key = "2"%char) then (0, 1)%nat
  else if decide (key = "3"%char) then (0, 2)%nat
  else if decide (key = "4"%char) then (1, 0)%nat
  else if decide (key = "5"%char) then (1, 1)%nat
  else if decide (key = "6"%char) then (1, 2)%nat
  else if decide (key = "7"%char) then (2, 0)%nat
  else if decide (key = "8"%char) then (2, 1)%nat
  else if decide (key = "9"%char) then (2, 2)%nat
  else if decide (key = "*"%char) then (3, 0)%nat
  else if decide (key = "0"%char) then (3, 1)%nat
  else (3, 2)%nat.

Definition onPad (key : ascii) : Prop := keys (cellOf key).1 (cellOf key).2 = key.

(** The two clock readings of each accepted key: every key comes more
    than the debounce time after the one before. *)
Fixpoint spaced (lastKeyTime : Z) (times : list (Z * Z)) : Prop :=
  match times with
  | [] => True
  | (t, t') :: rest => KEY_DEBOUNCE_MS < u32 (u32 t - lastKeyTime) ∧ spaced (u32 t') rest
  end.

Definition readings (times : list (Z * Z)) : list Z :=
  flat_map (λ p, [p.1; p.2]) times.

(** The time of the last accepted key. *)
Definition lastOf (lastKeyTime : Z) (times : list (Z * Z)) : Z :=
  foldl (λ _ p, u32 p.2) lastKeyTime times.

(** No Home press: the flag is down and none of the interrupts still
    to come raises it. *)
Definition undisturbed (w : World) : Prop :=
  homeButtonState (dev w) = false ∧ Forall (λ bs, BtnHome ∉ bs) (irqIn (input w)).

(** The keys of a text followed by the terminator. *)
Definition entryKeys (text : string) : list ascii :=
  list_ascii_of_string text ++ ["#"%char].

(** The identifier 42 is typed, a key every 300 ms. *)
Definition typingDemo : World :=
  boot enrolling (mkSensor ∅ 0)
    (mkInputs [] [] (press <$> (cellOf <$> entryKeys "42"))
       (readings [(300, 301); (600, 601); (900, 901)]) [] [] []).

(** The key 5 is still held 100 ms after it was accepted at 1000 ms. *)
Definition bounceDemo : World :=
  boot enrolling (mkSensor ∅ 0) (mkInputs [] [] [] [1100; 1100] [] [] []).

(** ** What attendance processing leaves alone *)

(** The three commands of a scan. *)
Definition readsFinger (e : Effect) : Prop :=
  match e with
  | SensorCmd c _ => c = GetImage ∨ c = Image2Tz 1 ∨ c = FingerSearch
  | _ => True
  end.

(** The mode and the button flags are the same. *)
Definition steady (d d' : Device) : Prop :=
  currentMode d' = currentMode d ∧ ∀ b, flagOf b d' = flagOf b d.

(** A run that takes no part in mode changes, enrollment or keypad
    entry: the mode, the flags and the template library are as before,
    no interrupt was delivered, no key was read, and the sensor was
    only asked to scan. *)
Definition attends : relation World := λ w w',
  steady (dev w) (dev w')
  ∧ library (finger w') = library (finger w)
  ∧ irqIn (input w') = irqIn (input w)
  ∧ keypadIn (input w') = keypadIn (input w)
  ∧ ∃ new, emitted w w' new ∧ Forall readsFinger new.

(** ** Log requests *)

(** What a successful log request does to the globals. *)
Definition logged (fpID : Z) (type : string) (d : Device) : Device :=
  if decide (type = "Time-In"%string) then set_studentsTimeIn (studentsTimeIn d ++ [fpID]) d
  else d.

(** How a call of [postAttendance] from [w] can end: with nothing sent,
    or with one log request sent after [n1], answered by the head of
    the HTTP queue and followed by [n2]. *)
Definition postOutcome (fpID : Z) (type : string) (w : World) (r : option bool) (w' : World)
    : Prop :=
  ∃ n1, Forall (λ e, isLocal e ∨ e = WifiBegin) n1
    ∧ ((emitted w w' n1 ∧ dev w' = dev w ∧ r ≠ Some true)
       ∨ ∃ ts n2,
           emitted w w'
             (n1 ++ HttpPost logUrl (logBody fpID (currentEventId (dev w)) type ts) :: n2)
           ∧ Forall (λ e, ¬ isPost e) n2
           ∧ currentEventId (dev w) ≠ EmptyString
           ∧ match httpIn (input w) with
             | [] => r = None ∧ dev w' = dev w
             | reply :: _ =>
                 if (httpCode reply =? 200) || (httpCode reply =? 201) then
                   r = Some true ∧ dev w' = logged fpID type (dev w) ∧ Forall isLocal n2
                 else
                   r ≠ Some true
                   ∧ (httpCode reply ≠ 404 → dev w' = dev w ∧ Forall isLocal n2)
             end).

(** A Time-Out of identifier 42 is accepted by the server. *)
Definition acceptedDemo : World :=
  boot (set_studentsTimeIn [42] (set_currentEventId "E1" (set_currentMode MODE_TIME_OUT bootDevice)))
    (mkSensor {[42]} 0)
    (mkInputs [] [] [] [] [true; true] [mkHttpReply 201 EmptyString]
       [mkDateTime false 0 0 0 0 0 0]).

(** The server cannot be reached: WiFi stays down for the 15 s of the
    wait. *)
Definition offlineDemo : World :=
  boot (set_currentEventId "E1" (set_currentMode MODE_TIME_OUT bootDevice))
    (mkSensor {[42]} 0)
    (mkInputs [] [] [] [0; 16000] [false; false; false; false] [] []).

(** ** Scans that match nothing *)

(** The world after [used] answers of the sensor, with the sensor in
    state [f] and [es] written. *)
Definition afterScan (w : World) (used : nat) (f : Sensor) (es : list Effect) : World :=
  mkWorld (dev w) f (set_sensorIn (drop used (sensorIn (input w))) (input w))
    (output w ++ es).

(** What is written when the image cannot be converted. *)
Definition unreadableEffects (w : World) (code : Z) : list Effect :=
  [SensorCmd GetImage FINGERPRINT_OK] ++ processingBanner
  ++ [SensorCmd (Image2Tz 1) code] ++ modeScreen (dev w).

(** What is written when the search finds no template. *)
Definition noMatchEffects (w : World) (code : Z) : list Effect :=
  [SensorCmd GetImage FINGERPRINT_OK] ++ processingBanner
  ++ [SensorCmd (Image2Tz 1) FINGERPRINT_OK; SensorCmd FingerSearch code]
  ++ displayLines "--- NO MATCH ---" "Finger not found." "Please try again." EmptyString
  ++ [DigitalWrite RED_LED_PIN true; DigitalWrite RED_LED_PIN false]
  ++ modeScreen (dev w).

(** An unknown finger is scanned in Time-In mode. *)
Definition strangerDemo : World :=
  boot (set_currentEventId "E1" (set_currentMode MODE_TIME_IN bootDevice))
    (mkSensor {[42]} 0)
    (mkInputs [ok; ok; mkReply 9 0] [] [] [] [] [] []).

(** ** Connecting *)






(** The active event is queried twice and is E2 both times. *)
Definition twiceDemo : World :=
  boot (set_studentsTimeIn [7] (set_currentEventId "E1" bootDevice)) (mkSensor ∅ 0)
    (mkInputs [] [] [] [] [true; true; true; true]
       [ mkHttpReply 200 ("{" +:+ idMarker +:+ "E2" +:+ WString.q +:+ "}");
         mkHttpReply 200 ("{" +:+ idMarker +:+ "E2" +:+ WString.q +:+ "}") ] []).

(** ** Passes of the main loop *)

(** The world after the interrupts that were pending at each of [n]
    successive looks at a flag have been delivered. *)
Fixpoint looks (n : nat) (w : World) : World :=
  match n with
  | O => w
  | S n' => final (interrupts (looks n' w))
  end.

(** The branches of [loop]. *)
Definition homePass : M unit :=
  modDev (set_homeButtonState false);;
  modDev (set_currentMode MODE_HOME);;
  displayHomeScreen.

Definition timeInPass : M unit :=
  modDev (set_timeInButtonState false);;
  modDev (set_currentMode MODE_TIME_IN);;
  refreshActiveEvent;;
  displayModeScreen.

Definition timeOutPass : M unit :=
  modDev (set_timeOutButtonState false);;
  modDev (set_currentMode MODE_TIME_OUT);;
  refreshActiveEvent;;
  displayModeScreen.

Definition enrollPass : M unit :=
  modDev (set_enrollButtonState false);;
  modDev (set_currentMode MODE_ENROLL);;
  id ← getKeypadID;
  d ← getDev;
  (if decide (currentMode d = MODE_ENROLL) then
     if 0 <? id then enrollFingerprint id;; ret ()
     else
       displayMessage "--- FAILED ---" "Invalid or no ID" "was entered."
         "Enrollment aborted.";;
       ledFlashFailure
   else ret ());;
  d ← getDev;
  if decide (currentMode d = MODE_ENROLL) then
    modDev (set_currentMode MODE_HOME);;
    displayHomeScreen
  else ret ().

Definition idlePass : M unit :=
  d ← getDev;
  match currentMode d with
  | MODE_TIME_IN => processTimeIn
  | MODE_TIME_OUT => processTimeOut
  | MODE_HOME =>
      t ← millis;
      if 1000 <? u32 (t - lastHomeUpdate d) then
        t' ← millis;
        modDev (set_lastHomeUpdate t');;
        dt ← getTimestamp;
        emit [ LcdSetCursor 6 1; LcdPrint (WString.substring 0 10 dt);
               LcdSetCursor 6 2; LcdPrint (WString.substring 11 19 dt) ]
      else ret ()
  | MODE_ENROLL => ret ()
  end.

(** Home and Time-In are pressed together in Time-Out mode. *)
Definition twoButtonsDemo : World :=
  boot (set_currentMode MODE_TIME_OUT bootDevice) (mkSensor ∅ 0)
    (mkInputs [] [[BtnTimeIn; BtnHome]] [] [] [] [] [mkDateTime false 0 0 0 0 0 0]).

(** Time-In is pressed on the home screen; the server has the event E2. *)
Definition timeInPressDemo : World :=
  boot bootDevice (mkSensor ∅ 0)
    (mkInputs [] [[BtnTimeIn]] [] [] [true; true]
       [mkHttpReply 200 ("{" +:+ idMarker +:+ "E2" +:+ WString.q +:+ "}")] []).

(** Enroll is pressed and the entry is left empty. *)
Definition enrollPressDemo : World :=
  boot bootDevice (mkSensor ∅ 0)
    (mkInputs [] [[BtnEnroll]] [press (cellOf "#")] [300; 301] [] []
       [mkDateTime false 0 0 0 0 0 0]).

(** Nothing is pressed on the home screen for two seconds. *)
Definition idleDemo : World :=
  boot bootDevice (mkSensor ∅ 0)
    (mkInputs [ok] [] [] [2000; 2001] [] [] [mkDateTime false 0 0 0 0 0 0]).

(** What a press of a mode button does in the pass that handles it,
    from the world [w0] in which its flag was found set: the mode is
    [m], the flag of [b] is cleared, the cache was refreshed with at
    most one query, nothing was logged, the sensor was left alone, and
    a pass that returns has drawn the mode screen last. *)
Definition modeSwitched (m : OperationMode) (b : Button) (w0 : World)
    (r : option unit) (w' : World) : Prop :=
  currentMode (dev w') = m
  ∧ flagOf b (dev w') = false
  ∧ (∀ b', b' ≠ b → flagOf b' (dev w') = flagOf b' (dev w0))
  ∧ finger w' = finger w0
  ∧ guard (dev w') = guard (dev w0)
  ∧ (studentsTimeIn (dev w') = studentsTimeIn (dev w0) ∨ studentsTimeIn (dev w') = [])
  ∧ ∃ new, emitted w0 w' new
      ∧ Forall (λ e, ¬ isPost e) new
      ∧ (List.length (filter isGet new) ≤ 1)%nat
      ∧ sensorLog new = []
      ∧ (r = Some () → ∃ pre, new = pre ++ modeScreen (dev w')).

(** ** The answer of the server *)

(** The JSON of an active event as the server sends it: the identifier
    first, then the name, then whatever else. *)
Definition eventPayload (id name rest : string) : string :=
  "{" +:+ idMarker +:+ id +:+ WString.q +:+ "," +:+ nameMarker +:+ name +:+ WString.q
  +:+ rest.

(** The server answers with the event 64f0 named Assembly. *)
Definition eventDemo : World :=
  boot (set_studentsTimeIn [7] (set_currentEventId "E1" bootDevice)) (mkSensor ∅ 0)
    (mkInputs [] [] [] [] [true; true]
       [mkHttpReply 200 (eventPayload "64f0" "Assembly" "}")] []).

(** ** Start-up *)

Definition baudRates : list Z := [57600; 115200; 9600].

(** The loop of [scanBaudRates] over the rates still to try:
    [verifyPassword br] tells whether the sensor answers at [br]; the
    first rate that does is kept in [foundBaud]. *)
Fixpoint scanFrom (verifyPassword : Z → bool) (rates : list Z) (foundBaud : Z) : Z :=
  match rates with
  | [] => foundBaud
  | br :: rest => if verifyPassword br then br else scanFrom verifyPassword rest foundBaud
  end.

Definition scanBaudRates (verifyPassword : Z → bool) : Z :=
  scanFrom verifyPassword baudRates 0.

(** What [setup] writes before it connects: both LEDs off and the
    three status lines. *)
Definition bootLines (rtcBegin : bool) (foundBaud : Z) : list Effect :=
  [ DigitalWrite GREEN_LED_PIN false; DigitalWrite RED_LED_PIN false;
    LcdSetCursor 0 0; LcdPrint "System Booting..." ]
  ++ (if negb rtcBegin then [LcdSetCursor 0 1; LcdPrint "RTC INIT FAILED!"]
      else [LcdSetCursor 0 1; LcdPrint "RTC INIT OK!"])
  ++ (if foundBaud =? 0 then [LcdSetCursor 0 2; LcdPrint "FP SENSOR FAILED!"]
      else [LcdSetCursor 0 2; LcdPrint "FP SENSOR OK!"]).

(** [setup]: [rtcBegin] is what [rtc.begin()] returns and
    [verifyPassword] what the sensor answers at each baud rate; these
    exchanges, the pin modes, the attachment of the four handlers,
    [Wire.begin], [lcd.init] and [lcd.backlight] are not recorded in
    the output. *)
Definition setup (rtcBegin : bool) (verifyPassword : Z → bool) : M unit :=
  emit [DigitalWrite GREEN_LED_PIN false];;
  emit [DigitalWrite RED_LED_PIN false];;
  emit [LcdSetCursor 0 0; LcdPrint "System Booting..."];;
  (if negb rtcBegin then emit [LcdSetCursor 0 1; LcdPrint "RTC INIT FAILED!"]
   else emit [LcdSetCursor 0 1; LcdPrint "RTC INIT OK!"]);;
  let foundBaud := scanBaudRates verifyPassword in
  (if foundBaud =? 0 then emit [LcdSetCursor 0 2; LcdPrint "FP SENSOR FAILED!"]
   else emit [LcdSetCursor 0 2; LcdPrint "FP SENSOR OK!"]);;
  connectWiFi;;
  refreshActiveEvent;;
  displayHomeScreen.

(** * Properties of runs *)

Global Arguments wp : simpl never.

(** * Rules for runs *)

Section rules.
Context {A B : Type}.
Implicit Types (w : World).

Lemma wp_ret (a : A) w Q : Q (Some a) w → wp (ret a) w Q.
Proof. done. Qed.

Lemma wp_starve w (Q : option A → World → Prop) : Q None w → wp starve w Q.
Proof. done. Qed.

Lemma wp_bind (m : M A) (f : A → M B) w Q :
  wp m w (λ r w', match r with Some a => wp (f a) w' Q | None => Q None w' end) →
  wp (bind m f) w Q.
Proof. unfold wp, bind. by destruct (m w). Qed.

Lemma wp_mono (m : M A) w (Q Q' : option A → World → Prop) :
  wp m w Q → (∀ r w', Q r w' → Q' r w') → wp m w Q'.
Proof. unfold wp. destruct (m w); auto. Qed.

Lemma wp_final (m : M A) w (Q : World → Prop) :
  wp m w (λ _ w', Q w') ↔ Q (final (m w)).
Proof. unfold wp. by destruct (m w). Qed.

Lemma wp_outcome (m : M A) w (Q : option A → World → Prop) :
  wp m w Q ↔ Q (result (m w)) (final (m w)).
Proof. unfold wp. by destruct (m w). Qed.

Lemma wp_keeps R (m : M A) w (Q : option A → World → Prop) :
  keeps R m → (∀ r w', R w w' → Q r w') → wp m w Q.
Proof. intros HR HQ. apply wp_outcome, HQ, HR. Qed.

Lemma wp_polling {X} (queue : Inputs → list X) (body : nat → M A) w Q :
  wp (body (S (List.length (queue (input w))))) w Q → wp (polling queue body) w Q.
Proof. done. Qed.
End rules.

Lemma wp_next {X} (queue : Inputs → list X) put w (Q : option X → World → Prop) :
  match queue (input w) with
  | x :: rest => Q (Some x) (mkWorld (dev w) (finger w) (put rest (input w)) (output w))
  | [] => Q None w
  end → wp (next queue put) w Q.
Proof. unfold wp, next. by destruct (queue (input w)). Qed.

Lemma wp_emit es w (Q : option unit → World → Prop) :
  Q (Some ()) (mkWorld (dev w) (finger w) (input w) (output w ++ es)) → wp (emit es) w Q.
Proof. done. Qed.

Lemma wp_modDev f w (Q : option unit → World → Prop) :
  Q (Some ()) (mkWorld (f (dev w)) (finger w) (input w) (output w)) → wp (modDev f) w Q.
Proof. done. Qed.

Lemma wp_modFinger f w (Q : option unit → World → Prop) :
  Q (Some ()) (mkWorld (dev w) (f (finger w)) (input w) (output w)) → wp (modFinger f) w Q.
Proof. done. Qed.

Lemma wp_getDev w (Q : option Device → World → Prop) :
  Q (Some (dev w)) w → wp getDev w Q.
Proof. done. Qed.

Lemma wp_getFinger w (Q : option Sensor → World → Prop) :
  Q (Some (finger w)) w → wp getFinger w Q.
Proof. done. Qed.

Lemma wp_interrupts w (Q : option unit → World → Prop) :
  Q (Some ()) (final (interrupts w)) → wp interrupts w Q.
Proof. unfold wp, interrupts. by destruct (irqIn (input w)). Qed.

Ltac wp_prim :=
  lazymatch goal with
  | |- wp (bind _ _) _ _ => apply wp_bind
  | |- wp (ret _) _ _ => apply wp_ret
  | |- wp starve _ _ => apply wp_starve
  | |- wp (emit _) _ _ => apply wp_emit
  | |- wp (modDev _) _ _ => apply wp_modDev
  | |- wp (modFinger _) _ _ => apply wp_modFinger
  | |- wp getDev _ _ => apply wp_getDev
  | |- wp getFinger _ _ => apply wp_getFinger
  | |- wp interrupts _ _ => apply wp_interrupts
  | |- wp (polling _ _) _ _ => apply wp_polling
  | |- wp (next _ _) _ _ => apply wp_next
  end; cbn beta iota.

(** * Frames *)

Section keeps_rules.
Context (R : relation World) `{!PreOrder R} {A B : Type}.

Lemma keeps_ret (a : A) : keeps R (ret a).
Proof. intros w. simpl. reflexivity. Qed.

Lemma keeps_starve : keeps R (@starve A).
Proof. intros w. simpl. reflexivity. Qed.

Lemma keeps_bind (m : M A) (f : A → M B) :
  keeps R m → (∀ a, keeps R (f a)) → keeps R (bind m f).
Proof.
  intros Hm Hf w. unfold bind. specialize (Hm w).
  destruct (m w) as [a w1|w1]; simpl in *; [|done].
  etransitivity; [exact Hm|apply Hf].
Qed.

Lemma keeps_polling {X} (queue : Inputs → list X) (body : nat → M A) :
  (∀ n, keeps R (body n)) → keeps R (polling queue body).
Proof. intros H w. apply H. Qed.

Lemma keeps_getDev : keeps R getDev.
Proof. intros w. simpl. reflexivity. Qed.

Lemma keeps_getFinger : keeps R getFinger.
Proof. intros w. simpl. reflexivity. Qed.
End keeps_rules.

Global Instance calm_preorder : PreOrder calm.
Proof.
  split.
  - intros w. repeat split; [by left|]. exists []. split; [|by constructor].
    unfold emitted. by rewrite app_nil_r.
  - intros w1 w2 w3 (Hg1 & Hs1 & n1 & He1 & Hf1) (Hg2 & Hs2 & n2 & He2 & Hf2).
    split; [congruence|]. split.
    + destruct Hs2 as [Hs2|Hs2]; [rewrite Hs2; exact Hs1|by right].
    + exists (n1 ++ n2). split; [|by apply Forall_app].
      unfold emitted in *. by rewrite He2, He1, app_assoc.
Qed.

Lemma calm_same d f i i' o : calm (mkWorld d f i o) (mkWorld d f i' o).
Proof.
  repeat split; [by left|]. exists []. split; [|by constructor].
  unfold emitted. simpl. by rewrite app_nil_r.
Qed.

Lemma calm_emit es : Forall (λ e, ¬ isPost e) es → keeps calm (emit es).
Proof. intros H w. repeat split; [by left|]. by exists es. Qed.

Lemma calm_modFinger f : keeps calm (modFinger f).
Proof.
  intros w. repeat split; [by left|]. exists []. split; [|by constructor].
  unfold emitted. simpl. by rewrite app_nil_r.
Qed.

Lemma calm_modDev f :
  (∀ d, guard (f d) = guard d
        ∧ (studentsTimeIn (f d) = studentsTimeIn d ∨ studentsTimeIn (f d) = [])) →
  keeps calm (modDev f).
Proof.
  intros H w. destruct (H (dev w)) as [Hg Hs]. repeat split; [done..|].
  exists []. split; [|by constructor]. unfold emitted. simpl. by rewrite app_nil_r.
Qed.

Lemma calm_next {X} (queue : Inputs → list X) put : keeps calm (next queue put).
Proof.
  intros w. unfold next. destruct (queue (input w)); simpl; [reflexivity|].
  destruct w; apply calm_same.
Qed.

Lemma raise_guard bs d :
  guard (foldr raise d bs) = guard d
  ∧ studentsTimeIn (foldr raise d bs) = studentsTimeIn d
  ∧ cache (foldr raise d bs) = cache d
  ∧ currentMode (foldr raise d bs) = currentMode d.
Proof.
  induction bs as [|b bs IH]; [done|]. simpl.
  destruct IH as (? & ? & ? & ?). by destruct b.
Qed.

Lemma calm_interrupts : keeps calm interrupts.
Proof.
  intros w. unfold interrupts. destruct (irqIn (input w)) as [|bs rest]; [reflexivity|].
  simpl. destruct (raise_guard bs (dev w)) as (Hg & Hs & _).
  repeat split; [done|by left|]. exists []. split; [|by constructor].
  unfold emitted. simpl. by rewrite app_nil_r.
Qed.

Create HintDb calm discriminated.
Global Hint Resolve calm_next calm_interrupts calm_modFinger : calm.

Ltac calm_side :=
  lazymatch goal with
  | |- Forall _ _ => repeat constructor; simpl; tauto
  | |- ∀ d, _ => intros []; simpl; split; [reflexivity | first [by left | by right]]
  | _ => idtac
  end.

Ltac calm_step :=
  lazymatch goal with
  | |- keeps _ (bind _ _) => apply keeps_bind; [apply _ | | intros ?]
  | |- keeps _ (ret _) => apply keeps_ret; apply _
  | |- keeps _ starve => apply keeps_starve; apply _
  | |- keeps _ getDev => apply keeps_getDev; apply _
  | |- keeps _ getFinger => apply keeps_getFinger; apply _
  | |- keeps _ (polling _ _) => apply keeps_polling; intros ?
  | |- keeps _ (emit _) => apply calm_emit; calm_side
  | |- keeps _ (modDev _) => apply calm_modDev; calm_side
  | |- keeps _ (if ?c then _ else _) => destruct c
  | |- keeps _ (match ?x with _ => _ end) => destruct x
  | |- keeps _ _ => first [assumption | solve [auto with calm]]
  end.

Ltac calm_auto := repeat calm_step.

Lemma calm_millis : keeps calm millis.
Proof. unfold millis. calm_auto. Qed.
Lemma calm_wifiConnected : keeps calm wifiConnected.
Proof. unfold wifiConnected. calm_auto. Qed.
Lemma calm_rtcNow : keeps calm rtcNow.
Proof. unfold rtcNow. calm_auto. Qed.
Lemma calm_readFlag flag : keeps calm (readFlag flag).
Proof. unfold readFlag. calm_auto. Qed.
Lemma calm_sensor c : keeps calm (sensor c).
Proof. unfold sensor. calm_auto. Qed.
Lemma calm_httpGET url : keeps calm (httpGET url).
Proof. unfold httpGET. calm_auto. Qed.
Lemma calm_displayMessage l1 l2 l3 l4 : keeps calm (displayMessage l1 l2 l3 l4).
Proof. unfold displayMessage, displayLines. calm_auto. Qed.
Lemma calm_ledFlashSuccess : keeps calm ledFlashSuccess.
Proof. unfold ledFlashSuccess. calm_auto. Qed.
Lemma calm_ledFlashFailure : keeps calm ledFlashFailure.
Proof. unfold ledFlashFailure. calm_auto. Qed.
Global Hint Resolve calm_millis calm_wifiConnected calm_rtcNow calm_readFlag calm_sensor
  calm_httpGET calm_displayMessage calm_ledFlashSuccess calm_ledFlashFailure : calm.

Lemma calm_getTimestamp : keeps calm getTimestamp.
Proof. unfold getTimestamp. calm_auto. Qed.
Global Hint Resolve calm_getTimestamp : calm.

Lemma calm_displayHomeScreen : keeps calm displayHomeScreen.
Proof. unfold displayHomeScreen. calm_auto. Qed.

Lemma calm_displayModeScreen : keeps calm displayModeScreen.
Proof.
  unfold displayModeScreen. calm_step; [calm_auto|].
  apply calm_emit. unfold modeScreen.
  destruct (_ =? _)%nat; repeat constructor; simpl; tauto.
Qed.

Lemma calm_cancelledScreen : keeps calm cancelledScreen.
Proof. unfold cancelledScreen. calm_auto. Qed.
Global Hint Resolve calm_displayHomeScreen calm_displayModeScreen calm_cancelledScreen : calm.

Lemma calm_wifiWait n start : keeps calm (wifiWait n start).
Proof. induction n as [|n IH]; simpl; calm_auto. Qed.
Global Hint Resolve calm_wifiWait : calm.

Lemma calm_connectWiFi : keeps calm connectWiFi.
Proof. unfold connectWiFi. calm_auto. Qed.
Global Hint Resolve calm_connectWiFi : calm.

Lemma calm_refreshActiveEvent : keeps calm refreshActiveEvent.
Proof. unfold refreshActiveEvent. calm_auto. Qed.
Global Hint Resolve calm_refreshActiveEvent : calm.

Lemma calm_scanKeys cells ks t : keeps calm (scanKeys cells ks t).
Proof. revert t. induction cells as [|cell cells IH]; intros t; simpl; calm_auto. Qed.
Global Hint Resolve calm_scanKeys : calm.

Lemma calm_keypadLoop n s t : keeps calm (keypadLoop n s t).
Proof. revert s t. induction n as [|n IH]; intros s t; cbn [keypadLoop]; calm_auto. Qed.
Global Hint Resolve calm_keypadLoop : calm.

Lemma calm_getKeypadID : keeps calm getKeypadID.
Proof. unfold getKeypadID. calm_auto. Qed.

Lemma calm_awaitImage want n : keeps calm (awaitImage want n).
Proof. induction n as [|n IH]; simpl; calm_auto. Qed.
Global Hint Resolve calm_awaitImage calm_getKeypadID : calm.

Lemma calm_enrollFingerprint id : keeps calm (enrollFingerprint id).
Proof. unfold enrollFingerprint. calm_auto. Qed.
Global Hint Resolve calm_enrollFingerprint : calm.

Lemma emitted_nil w w' : output w' = output w → emitted w w' [].
Proof. unfold emitted. intros ->. by rewrite app_nil_r. Qed.

Lemma emitted_refl w : emitted w w [].
Proof. by apply emitted_nil. Qed.

Lemma emitted_trans w1 w2 w3 n1 n2 :
  emitted w1 w2 n1 → emitted w2 w3 n2 → emitted w1 w3 (n1 ++ n2).
Proof. unfold emitted. intros H1 H2. by rewrite H2, H1, app_assoc. Qed.

Global Instance wifiOnly_preorder : PreOrder wifiOnly.
Proof.
  split.
  - intros w. repeat split. exists []. split; [apply emitted_refl|by constructor].
  - intros w1 w2 w3 (? & ? & ? & ? & ? & ? & ? & n1 & ? & ?)
      (? & ? & ? & ? & ? & ? & ? & n2 & ? & ?).
    repeat split; try congruence.
    exists (n1 ++ n2). split; [by eapply emitted_trans|by apply Forall_app].
Qed.

Lemma wifiOnly_emit es :
  Forall (λ e, isLocal e ∨ e = WifiBegin) es → keeps wifiOnly (emit es).
Proof. intros H w. repeat split. by exists es. Qed.

Lemma wifiOnly_wifi : keeps wifiOnly wifiConnected.
Proof.
  intros w. unfold wifiConnected, next. destruct (wifiIn (input w)); [reflexivity|].
  simpl. repeat split. exists []. split; [by apply emitted_nil|by constructor].
Qed.

Lemma wifiOnly_millis : keeps wifiOnly millis.
Proof.
  intros w. unfold millis, bind, next. destruct (clockIn (input w)); [reflexivity|].
  simpl. repeat split. exists []. split; [by apply emitted_nil|by constructor].
Qed.

Ltac wifi_step :=
  lazymatch goal with
  | |- keeps _ (bind _ _) => apply keeps_bind; [apply _ | | intros ?]
  | |- keeps _ (ret _) => apply keeps_ret; apply _
  | |- keeps _ starve => apply keeps_starve; apply _
  | |- keeps _ (polling _ _) => apply keeps_polling; intros ?
  | |- keeps _ (emit _) => apply wifiOnly_emit; repeat constructor; simpl; tauto
  | |- keeps _ wifiConnected => apply wifiOnly_wifi
  | |- keeps _ millis => apply wifiOnly_millis
  | |- keeps _ (if ?c then _ else _) => destruct c
  | |- keeps _ _ => assumption
  end.

Lemma wifiOnly_wifiWait n start : keeps wifiOnly (wifiWait n start).
Proof. induction n as [|n IH]; simpl; repeat wifi_step. Qed.

Lemma wifiOnly_connectWiFi : keeps wifiOnly connectWiFi.
Proof. unfold connectWiFi. repeat wifi_step. apply wifiOnly_wifiWait. Qed.

(** * Composite primitives *)

Lemma wp_sensor c w (Q : option Z → World → Prop) :
  match sensorIn (input w) with
  | r :: rest =>
      Q (Some (status r))
        (mkWorld (dev w) (obey c r (finger w)) (set_sensorIn rest (input w))
           (output w ++ [SensorCmd c (status r)]))
  | [] => Q None w
  end → wp (sensor c) w Q.
Proof. unfold wp, sensor, bind, next. by destruct (sensorIn (input w)). Qed.

Lemma wp_millis w (Q : option Z → World → Prop) :
  match clockIn (input w) with
  | t :: rest =>
      Q (Some (u32 t)) (mkWorld (dev w) (finger w) (set_clockIn rest (input w)) (output w))
  | [] => Q None w
  end → wp millis w Q.
Proof. unfold wp, millis, bind, next. by destruct (clockIn (input w)). Qed.

Lemma wp_displayMessage l1 l2 l3 l4 w (Q : option unit → World → Prop) :
  Q (Some ()) (mkWorld (dev w) (finger w) (input w) (output w ++ displayLines l1 l2 l3 l4)) →
  wp (displayMessage l1 l2 l3 l4) w Q.
Proof. done. Qed.

Ltac wp_step :=
  cbn beta iota;
  lazymatch goal with
  | |- wp (sensor _) _ _ => apply wp_sensor
  | |- wp millis _ _ => apply wp_millis
  | |- wp (displayMessage _ _ _ _) _ _ => apply wp_displayMessage
  | |- wp ledFlashFailure _ _ => apply wp_emit
  | |- wp ledFlashSuccess _ _ => apply wp_emit
  | |- wp displayModeScreen _ _ => unfold displayModeScreen
  | |- wp cancelledScreen _ _ => apply wp_displayMessage
  | |- wp noMatchScreen _ _ => unfold noMatchScreen
  | |- wp wifiConnected _ _ => apply wp_next
  | |- wp rtcNow _ _ => apply wp_next
  | |- wp (readFlag _) _ _ => unfold readFlag
  | |- wp (httpPOST _ _) _ _ => unfold httpPOST
  | |- wp (httpGET _) _ _ => unfold httpGET
  | |- _ => wp_prim
  end; cbn beta iota.

Ltac by_wp :=
  lazymatch goal with
  | |- context [final (?m ?w)] =>
      let x := fresh "w'" in
      set (x := final (m w)); pattern x; subst x; apply wp_final
  end.

(** C5.  A call of [postAttendance] with an empty cached event
    identifier returns [false] after the no-event screen and the red
    LED flash: the globals, the Time-In list and the cache among them,
    the sensor and the input script are as before and nothing went over
    the network. *)
Theorem postAttendance_without_event fpID type w :
  currentEventId (dev w) = EmptyString →
  postAttendance fpID type w
  = Done false (mkWorld (dev w) (finger w) (input w) (output w ++ noEventScreen))
  ∧ Forall (λ e, ¬ isNetwork e) noEventScreen.
Proof.
  intros Hid. split.
  - unfold postAttendance, bind, getDev. rewrite Hid. simpl.
    unfold noEventScreen. by rewrite app_assoc.
  - unfold noEventScreen, displayLines. repeat constructor; simpl; tauto.
Qed.

Lemma postAttendance_without_event_witness :
  ∃ w', postAttendance 42 "Time-In" (boot bootDevice (mkSensor ∅ 0) noInputs) = Done false w'
        ∧ dev w' = bootDevice ∧ input w' = noInputs.
Proof.
  eexists. split.
  - apply (postAttendance_without_event 42 "Time-In" (boot bootDevice (mkSensor ∅ 0) noInputs)).
    reflexivity.
  - split; reflexivity.
Defined.

(** * Strings *)

Lemma append_cons x (a b : string) : String x a +:+ b = String x (a +:+ b).
Proof. reflexivity. Qed.

Lemma append_nil (b : string) : EmptyString +:+ b = b.
Proof. reflexivity. Qed.

Lemma prefix_app a s : String.prefix a s = true → ∃ post, s = a +:+ post.
Proof.
  revert s. induction a as [|c a IH]; intros s H; simpl in *.
  - by exists s.
  - destruct s as [|c' s]; simpl in H; [done|].
    destruct (Ascii.ascii_dec c c') as [->|]; [|done].
    destruct (IH _ H) as [post ->]. by exists post.
Qed.

Lemma find_app needle s k :
  WString.find needle s = Some k →
  ∃ pre post, s = pre +:+ needle +:+ post ∧ String.length pre = k.
Proof.
  revert k. induction s as [|c s IH]; intros k; cbn [WString.find].
  - destruct (String.prefix needle EmptyString) eqn:Hp; [|done].
    intros [= <-]. destruct (prefix_app _ _ Hp) as [post Hpost].
    by exists EmptyString, post.
  - destruct (String.prefix needle (String c s)) eqn:Hp.
    + intros [= <-]. destruct (prefix_app _ _ Hp) as [post Hpost].
      by exists EmptyString, post.
    + destruct (WString.find needle s) as [k'|]; [|done].
      simpl. intros [= <-]. destruct (IH k' eq_refl) as (pre & post & -> & Hlen).
      exists (String c pre), post. simpl. by rewrite Hlen.
Qed.

Lemma dropChars_app pre s : WString.dropChars (String.length pre) (pre +:+ s) = s.
Proof. induction pre as [|c pre IH]; simpl; [by destruct s|done]. Qed.

Lemma takeChars_app pre s : WString.takeChars (String.length pre) (pre +:+ s) = pre.
Proof. induction pre as [|c pre IH]; simpl; [by destruct s|by rewrite IH]. Qed.

Lemma dropChars_split n s :
  (n ≤ String.length s)%nat →
  ∃ pre, s = pre +:+ WString.dropChars n s ∧ String.length pre = n.
Proof.
  revert s. induction n as [|n IH]; intros s Hn.
  - by exists EmptyString.
  - destruct s as [|c s]; simpl in *; [lia|].
    destruct (IH s) as (pre & Hs & Hlen); [lia|].
    exists (String c pre). split; [|simpl; lia].
    change (String c pre +:+ WString.dropChars n s)
      with (String c (pre +:+ WString.dropChars n s)).
    by rewrite <- Hs.
Qed.

Lemma append_assoc (a b c : string) : (a +:+ b) +:+ c = a +:+ (b +:+ c).
Proof. induction a as [|x a IH]; [done|]. rewrite !append_cons. by f_equal. Qed.

Lemma append_length (a b : string) :
  String.length (a +:+ b) = (String.length a + String.length b)%nat.
Proof. induction a as [|x a IH]; [done|]. rewrite append_cons. simpl. by rewrite IH. Qed.

Lemma indexOf_app needle from s k :
  WString.indexOf needle from s = Z.of_nat k →
  ∃ pre post, s = pre +:+ needle +:+ post ∧ String.length pre = k ∧ (from ≤ k)%nat.
Proof.
  unfold WString.indexOf. destruct (_ <=? _)%nat eqn:Hlen; [lia|].
  apply Nat.leb_gt in Hlen.
  destruct (WString.find needle (WString.dropChars from s)) as [j|] eqn:Hfind; [|lia].
  intros Hk. assert (k = (from + j)%nat) as -> by lia.
  destruct (find_app _ _ _ Hfind) as (mid & post & Hdrop & Hmid).
  destruct (dropChars_split from s) as (pre & Hs & Hpre); [lia|].
  exists (pre +:+ mid), post. rewrite append_assoc, <- Hdrop, append_length.
  split; [done|]. lia.
Qed.

Lemma prefix_self a b : String.prefix a (a +:+ b) = true.
Proof.
  induction a as [|c a IH]; [by destruct b|]. rewrite append_cons. simpl.
  by destruct (ascii_dec c c).
Qed.

Lemma find_unfold needle s :
  WString.find needle s
  = if String.prefix needle s then Some 0%nat
    else match s with
         | EmptyString => None
         | String _ s' => S <$> WString.find needle s'
         end.
Proof. by destruct s. Qed.

Lemma find_here needle s : WString.find needle (needle +:+ s) = Some 0%nat.
Proof. by rewrite find_unfold, prefix_self. Qed.

Lemma find_skip needle c s :
  String.prefix needle (String c s) = false →
  WString.find needle (String c s) = S <$> WString.find needle s.
Proof. intros H. by rewrite find_unfold, H. Qed.

Lemma quote_other c : Ascii.eqb c WString.dquote = false → c ≠ WString.dquote.
Proof. intros H ->. by rewrite Ascii.eqb_refl in H. Qed.

Lemma find_past v needle s :
  quoteFree v = true →
  WString.find (String WString.dquote needle) (v +:+ s)
  = (λ k, String.length v + k)%nat <$> WString.find (String WString.dquote needle) s.
Proof.
  induction v as [|c v IH]; intros Hq.
  { rewrite append_nil. by destruct (WString.find _ s). }
  simpl in Hq. apply andb_true_iff in Hq as [Hc Hv]. apply negb_true_iff in Hc.
  rewrite append_cons, find_skip.
  - rewrite (IH Hv). by destruct (WString.find _ s).
  - cbn [String.prefix]. match goal with |- context [ascii_dec ?a c] => destruct (ascii_dec a c) as [Heq|] end;
      [|done]. rewrite <- Heq in Hc. by vm_compute in Hc.
Qed.

Lemma indexOf_found needle pre mid k :
  WString.find needle mid = Some k → mid ≠ EmptyString →
  WString.indexOf needle (String.length pre) (pre +:+ mid)
  = Z.of_nat (String.length pre + k).
Proof.
  intros Hfind Hmid. unfold WString.indexOf.
  destruct (Nat.leb_spec (String.length (pre +:+ mid)) (String.length pre)) as [Hle|_].
  { rewrite append_length in Hle. destruct mid; [done|simpl in Hle; lia]. }
  by rewrite dropChars_app, Hfind.
Qed.

Lemma takeChars_exact pre s : WString.takeChars (String.length pre) (pre +:+ s) = pre.
Proof. apply takeChars_app. Qed.

(** The text after the first marker is extracted whole when it holds
    no double quote. *)
Lemma fieldAfter_found marker pre v post :
  WString.find marker (pre +:+ marker +:+ v +:+ WString.q +:+ post)
  = Some (String.length pre) →
  quoteFree v = true →
  fieldAfter marker (Z.of_nat (String.length marker))
    (pre +:+ marker +:+ v +:+ WString.q +:+ post) = v.
Proof.
  intros Hfind Hq. set (s := pre +:+ marker +:+ v +:+ WString.q +:+ post).
  unfold fieldAfter.
  assert (Hstart : WString.indexOf marker 0 s = Z.of_nat (String.length pre)).
  { pose proof (indexOf_found marker EmptyString s (String.length pre) Hfind) as H.
    rewrite append_nil in H. apply H. subst s. intros Hs.
    apply (f_equal String.length) in Hs. rewrite !append_length in Hs. simpl in Hs. lia. }
  rewrite Hstart. destruct (Z.leb_spec 0 (Z.of_nat (String.length pre))) as [_|]; [|lia].
  replace (Z.of_nat (String.length pre) + Z.of_nat (String.length marker))
    with (Z.of_nat (String.length (pre +:+ marker))) by (rewrite append_length; lia).
  rewrite Nat2Z.id.
  assert (Hs : s = (pre +:+ marker) +:+ (v +:+ WString.q +:+ post)).
  { subst s. by rewrite append_assoc. }
  assert (Hstop : WString.indexOfChar WString.dquote (String.length (pre +:+ marker)) s
                  = Z.of_nat (String.length (pre +:+ marker) + String.length v)).
  { unfold WString.indexOfChar. rewrite Hs. apply indexOf_found.
    - rewrite find_past by done. change (String WString.dquote EmptyString) with WString.q.
      rewrite find_here. simpl. by rewrite Nat.add_0_r.
    - intros H. apply (f_equal String.length) in H. rewrite !append_length in H.
      simpl in H. lia. }
  rewrite Hstop.
  destruct (Z.ltb_spec (Z.of_nat (String.length (pre +:+ marker)))
              (Z.of_nat (String.length (pre +:+ marker) + String.length v))) as [Hlt|Hge].
  - rewrite !Nat2Z.id. unfold WString.substring.
    rewrite Nat.min_l, Nat.max_r by lia. rewrite Hs, dropChars_app.
    replace (String.length (pre +:+ marker) + String.length v - String.length (pre +:+ marker))%nat
      with (String.length v) by lia.
    apply takeChars_app.
  - destruct v; [done|simpl in Hge; lia].
Qed.

Lemma idMarker_length : Z.of_nat (String.length idMarker) = 7.
Proof. reflexivity. Qed.

(** [find] returns the first occurrence. *)
Lemma find_first needle s pre post :
  s = pre +:+ needle +:+ post →
  ∃ k, WString.find needle s = Some k ∧ (k ≤ String.length pre)%nat.
Proof.
  revert s. induction pre as [|c pre IH]; intros s ->.
  - rewrite append_nil, find_here. exists 0%nat. split; [done|simpl; lia].
  - rewrite append_cons, find_unfold.
    destruct (String.prefix needle _); [exists 0%nat; split; [done|lia]|].
    destruct (IH _ eq_refl) as (k & -> & Hk). exists (S k). split; [done|simpl; lia].
Qed.

Lemma find_least needle s k pre post :
  WString.find needle s = Some k → s = pre +:+ needle +:+ post →
  (k ≤ String.length pre)%nat.
Proof.
  intros Hk Hs. destruct (find_first _ _ _ _ Hs) as (k' & Hk' & Hle). congruence.
Qed.

Lemma find_quote_free s j :
  WString.find WString.q s = Some j → quoteFree (WString.takeChars j s) = true.
Proof.
  revert j. induction s as [|c s IH]; intros j; rewrite find_unfold.
  - destruct (String.prefix _ _); [by intros [= <-]|done].
  - destruct (String.prefix WString.q (String c s)) eqn:Hp; [by intros [= <-]|].
    destruct (WString.find WString.q s) as [j'|]; [|done].
    simpl. intros [= <-]. simpl. rewrite (IH j' eq_refl), andb_true_r.
    apply negb_true_iff. destruct (Ascii.eqb_spec c WString.dquote) as [->|]; [|done].
    exfalso. unfold WString.q in Hp. cbn [String.prefix] in Hp.
    destruct (ascii_dec WString.dquote WString.dquote); [|done].
    by destruct s.
Qed.

(** What a non-empty extraction tells about the payload: the text
    stands between the first marker and the next double quote. *)
Lemma fieldAfter_first marker payload v :
  fieldAfter marker (Z.of_nat (String.length marker)) payload = v →
  v ≠ EmptyString →
  ∃ pre post, payload = pre +:+ marker +:+ v +:+ WString.q +:+ post
    ∧ WString.find marker payload = Some (String.length pre)
    ∧ quoteFree v = true.
Proof.
  unfold fieldAfter.
  destruct (0 <=? WString.indexOf marker 0 payload) eqn:Hfound; [|by intros <-].
  apply Z.leb_le in Hfound.
  destruct (Z_of_nat_complete _ Hfound) as [k Hk]. rewrite Hk.
  destruct (indexOf_app _ _ _ _ Hk) as (pre & post & Hp & Hpre & _).
  assert (Hfirst : WString.find marker payload = Some (String.length pre)).
  { unfold WString.indexOf in Hk. destruct (_ <=? _)%nat; [lia|]. simpl in Hk.
    destruct (WString.find marker payload) as [j|]; [|lia]. f_equal. lia. }
  replace (Z.to_nat (Z.of_nat k + Z.of_nat (String.length marker)))
    with (String.length (pre +:+ marker)) by (rewrite append_length; lia).
  destruct (_ <? _) eqn:Hstop; [|by intros <-].
  apply Z.ltb_lt in Hstop.
  set (start := String.length (pre +:+ marker)) in *.
  assert (0 <= WString.indexOfChar WString.dquote start payload) as Hnn by lia.
  destruct (Z_of_nat_complete _ Hnn) as [e He]. rewrite He in *.
  rewrite Nat2Z.id.
  destruct (indexOf_app _ _ _ _ He) as (pre2 & post2 & Hp2 & Hpre2 & Hfrom).
  intros <- _.
  assert (Hdrop : WString.dropChars start payload = post).
  { subst start. rewrite Hp, <- append_assoc. apply dropChars_app. }
  unfold WString.substring. rewrite Nat.min_l, Nat.max_r by lia. rewrite Hdrop.
  unfold WString.indexOfChar, WString.indexOf in He.
  destruct (_ <=? _)%nat; [lia|]. rewrite Hdrop in He.
  destruct (WString.find _ post) as [j|] eqn:Hj; [|lia].
  assert (e - start = j)%nat as -> by lia.
  pose proof (find_quote_free post j Hj) as Hq.
  destruct (find_app _ _ _ Hj) as (v & rest & Hpost & Hv).
  rewrite Hpost, <- Hv, takeChars_app in *.
  exists pre, rest. by split.
Qed.

(** The declarative notion and the extraction agree on every payload. *)
Lemma hasIdField_fieldAfter payload :
  hasIdField payload ↔ fieldAfter idMarker 7 payload ≠ EmptyString.
Proof.
  rewrite <- idMarker_length. split.
  - intros (pre & v & post & -> & Hv & Hq & Hmin).
    rewrite fieldAfter_found; [done| |done].
    destruct (find_first idMarker _ pre (v +:+ WString.q +:+ post) eq_refl)
      as (k & Hk & Hle).
    rewrite Hk. f_equal.
    destruct (find_app _ _ _ Hk) as (pre2 & post2 & Heq & Hlen).
    specialize (Hmin pre2 post2 Heq). lia.
  - intros Hne.
    destruct (fieldAfter_first idMarker payload _ eq_refl Hne) as (pre & post & Hp & Hf & Hq).
    exists pre, (fieldAfter idMarker (Z.of_nat (String.length idMarker)) payload), post.
    split_and!; [done|done|done|].
    intros pre' post' Hp'. eapply find_least; [exact Hf|exact Hp'].
Qed.

Lemma fieldAfter_lacking payload :
  ¬ hasIdField payload → fieldAfter idMarker 7 payload = EmptyString.
Proof.
  rewrite hasIdField_fieldAfter. intros H.
  destruct (fieldAfter idMarker 7 payload); [done|]. by exfalso; apply H.
Qed.

Lemma fieldAfter_quoteFree marker payload :
  quoteFree (fieldAfter marker (Z.of_nat (String.length marker)) payload) = true.
Proof.
  destruct (fieldAfter marker _ payload) as [|c v] eqn:Hf; [done|].
  by destruct (fieldAfter_first marker payload _ Hf) as (_ & _ & _ & _ & Hq).
Qed.

(** The indices handed to [substring] lie inside the payload. *)
Lemma fieldAfter_bounds marker payload :
  let start := WString.indexOf marker 0 payload + Z.of_nat (String.length marker) in
  let stop := WString.indexOfChar WString.dquote (Z.to_nat start) payload in
  0 ≤ WString.indexOf marker 0 payload →
  start ≤ Z.of_nat (String.length payload)
  ∧ (start < stop → stop < Z.of_nat (String.length payload)).
Proof.
  cbv zeta. intros Hfound.
  destruct (Z_of_nat_complete _ Hfound) as [k Hk]. rewrite Hk.
  destruct (indexOf_app _ _ _ _ Hk) as (pre & post & Hp & Hpre & _).
  split.
  - rewrite Hp, !append_length. lia.
  - intros Hlt.
    set (stop := WString.indexOfChar _ _ _) in *.
    assert (0 <= stop) as Hnn by lia.
    destruct (Z_of_nat_complete _ Hnn) as [e He]. rewrite He.
    destruct (indexOf_app _ _ _ _ He) as (pre2 & post2 & Hp2 & Hpre2 & _).
    rewrite Hp2, !append_length. simpl. lia.
Qed.

Lemma nameMarker_length : Z.of_nat (String.length nameMarker) = 8.
Proof. reflexivity. Qed.

Lemma fieldAfter_length marker payload :
  (String.length (fieldAfter marker (Z.of_nat (String.length marker)) payload)
   ≤ String.length payload)%nat.
Proof.
  destruct (fieldAfter marker _ payload) as [|c v] eqn:Hf; [simpl; lia|].
  destruct (fieldAfter_first marker payload _ Hf) as (pre & post & Hp & _); [done|].
  rewrite Hp, !append_length. simpl. lia.
Qed.

(** * The active-event refresh *)

Lemma isGet_local n : Forall (λ e, isLocal e ∨ e = WifiBegin) n → Forall (λ e, ¬ isGet e) n.
Proof.
  intros H. eapply Forall_impl; [exact H|].
  intros e [He| ->]; [destruct e; simpl in *; tauto|simpl; tauto].
Qed.

Lemma isPost_local n : Forall (λ e, isLocal e ∨ e = WifiBegin) n → Forall (λ e, ¬ isPost e) n.
Proof.
  intros H. eapply Forall_impl; [exact H|].
  intros e [He| ->]; [destruct e; simpl in *; tauto|simpl; tauto].
Qed.

Lemma emitted_step w w1 n1 d f i es :
  emitted w w1 n1 → emitted w (mkWorld d f i (output w1 ++ es)) (n1 ++ es).
Proof. unfold emitted. simpl. intros ->. by rewrite app_assoc. Qed.

Lemma emitted_keep w w1 n1 d f i :
  emitted w w1 n1 → emitted w (mkWorld d f i (output w1)) n1.
Proof. done. Qed.

(** Every run of [refreshActiveEvent]: either no query goes out and the
    globals stay, or exactly one does and the globals absorb its answer. *)
Lemma refreshActiveEvent_run w :
  wp refreshActiveEvent w (λ r w',
    finger w' = finger w
    ∧ ∃ n1, Forall (λ e, isLocal e ∨ e = WifiBegin) n1
      ∧ ((emitted w w' n1 ∧ dev w' = dev w)
         ∨ (emitted w w' (n1 ++ [HttpGet activeEventUrl])
            ∧ match httpIn (input w) with
              | [] => r = None ∧ dev w' = dev w
              | reply :: hs =>
                  r = Some () ∧ dev w' = absorbReply reply (dev w)
                  ∧ httpIn (input w') = hs
              end))).
Proof.
  unfold refreshActiveEvent.
  wp_step. eapply wp_keeps; [apply wifiOnly_connectWiFi|].
  intros [[]|] w1 (Hd & Hf & _ & _ & _ & Hh & _ & n1 & He1 & Hn1); cbn beta iota.
  2:{ split; [done|]. exists n1. split; [done|]. by left. }
  repeat wp_step.
  destruct (wifiIn (input w1)) as [|up ws] eqn:Hw.
  { split; [done|]. exists n1. split; [done|]. by left. }
  destruct up; simpl; repeat wp_step; simpl.
  2:{ split; [done|]. exists n1. split; [done|]. left. by rewrite Hd. }
  rewrite Hh.
  destruct (httpIn (input w)) as [|reply hs] eqn:Hhttp; simpl.
  { split; [done|]. exists n1. split; [done|]. right. split; [by apply emitted_step|].
    by rewrite Hd. }
  repeat wp_step. simpl. rewrite Hd. unfold absorbReply.
  destruct (httpCode reply =? 200) eqn:H200.
  { repeat wp_step. destruct (decide _) as [Hne|Heq]; repeat wp_step; simpl.
    all: split; [done|]; exists n1; split; [done|]; right.
    all: split; [by apply emitted_step|done]. }
  destruct (httpCode reply =? 404) eqn:H404.
  { repeat wp_step. destruct (0 <? _)%nat eqn:Hlen; repeat wp_step; simpl.
    all: split; [done|]; exists n1; split; [done|]; right.
    all: split; [by apply emitted_step|done]. }
  repeat wp_step. simpl.
  split; [done|]. exists n1. split; [done|]. right.
  split; [by apply emitted_step|done].
Qed.

Lemma absorbReply_time_in_set reply d :
  (currentEventId (absorbReply reply d) ≠ currentEventId d →
   studentsTimeIn (absorbReply reply d) = [])
  ∧ (currentEventId (absorbReply reply d) = currentEventId d →
     studentsTimeIn (absorbReply reply d) = studentsTimeIn d).
Proof.
  unfold absorbReply.
  destruct (httpCode reply =? 200).
  { destruct (decide _) as [Hne|Heq]; simpl; [done|].
    apply dec_stable in Heq. done. }
  destruct (httpCode reply =? 404); [|done].
  destruct (0 <? _)%nat eqn:Hlen; simpl.
  - split; [done|]. intros H. rewrite <- H in Hlen. done.
  - split; [|done]. intros Hne. exfalso. apply Hne. apply Nat.ltb_ge in Hlen.
    destruct (currentEventId d); [done|simpl in Hlen; lia].
Qed.

Lemma not_all_quiet n url : ¬ Forall (λ e, ¬ isGet e) (n ++ [HttpGet url]).
Proof.
  intros HF. apply Forall_app in HF as [_ HF]. inversion HF; subst. simpl in *. tauto.
Qed.

(** C2.  For every run of [refreshActiveEvent]: when the cached event
    identifier after the run differs from the one before, the Time-In
    list is empty after it; when it is the same, the list is as before;
    and when no query was sent, or the answer is neither a 200 nor a
    404, all the globals, the cache and the list among them, are as
    before. *)
Theorem refreshActiveEvent_time_in_set w :
  let w' := final (refreshActiveEvent w) in
  (currentEventId (dev w') ≠ currentEventId (dev w) → studentsTimeIn (dev w') = [])
  ∧ (currentEventId (dev w') = currentEventId (dev w) →
     studentsTimeIn (dev w') = studentsTimeIn (dev w))
  ∧ ∃ new, emitted w w' new
      ∧ (Forall (λ e, ¬ isGet e) new → dev w' = dev w)
      ∧ ((∀ reply, head (httpIn (input w)) = Some reply →
            httpCode reply ≠ 200 ∧ httpCode reply ≠ 404) →
         dev w' = dev w).
Proof.
  cbv zeta. by_wp. eapply wp_mono; [apply refreshActiveEvent_run|].
  intros r w' (_ & n1 & Hn1 & [[Hem Hd]|[Hem Hin]]); cbn beta.
  - rewrite Hd. repeat split; try done. by exists n1.
  - destruct (httpIn (input w)) as [|reply hs].
    + destruct Hin as [_ Hd]. rewrite Hd. repeat split; try done.
      eexists. split; [exact Hem|]. split; [|done]. intros HF. by apply not_all_quiet in HF.
    + destruct Hin as (_ & Hd & _). rewrite Hd.
      destruct (absorbReply_time_in_set reply (dev w)) as [H1 H2].
      repeat split; try done.
      eexists. split; [exact Hem|]. split.
      * intros HF. by apply not_all_quiet in HF.
      * intros Hc. destruct (Hc reply eq_refl) as [Hc1 Hc2]. unfold absorbReply.
        destruct (Z.eqb_spec (httpCode reply) 200); [done|].
        destruct (Z.eqb_spec (httpCode reply) 404); done.
Qed.

Lemma refreshActiveEvent_time_in_set_witness :
  studentsTimeIn (dev (final (refreshActiveEvent refreshDemo))) = [].
Proof.
  apply (proj1 (refreshActiveEvent_time_in_set refreshDemo)).
  vm_compute. discriminate.
Defined.

(** C8.  When the answer to the active-event query is a 200 whose
    payload lacks a recognizable identifier field, the extraction gives
    the empty text, and every run of [refreshActiveEvent] that sends
    the query, whether WiFi was up or had to be brought up first,
    returns with an empty cached event identifier, the name the
    payload gives, and the Time-In list emptied unless the cached
    identifier was empty already.  On every payload the two
    extractions give a text free of double quotes and no longer than
    the payload, the identifier being empty exactly when the payload
    lacks the field, as it does when no marker in it is followed by a
    non-empty text free of double quotes and a closing quote; a marker
    that is found lies inside the payload, and so does the closing
    quote at which [substring] cuts. *)
Theorem refreshActiveEvent_lacking_id w reply hs :
  httpIn (input w) = reply :: hs →
  httpCode reply = 200 →
  ¬ hasIdField (httpPayload reply) →
  let run := refreshActiveEvent w in
  fieldAfter idMarker 7 (httpPayload reply) = EmptyString
  ∧ (∀ new, emitted w (final run) new → Exists isGet new →
       result run = Some ()
       ∧ currentEventId (dev (final run)) = EmptyString
       ∧ currentEventName (dev (final run)) = fieldAfter nameMarker 8 (httpPayload reply)
       ∧ studentsTimeIn (dev (final run))
         = (if decide (currentEventId (dev w) = EmptyString) then studentsTimeIn (dev w)
            else []))
  ∧ (∀ ws, wifiIn (input w) = true :: true :: ws →
       ∃ w', run = Done () w'
             ∧ currentEventId (dev w') = EmptyString
             ∧ currentEventName (dev w') = fieldAfter nameMarker 8 (httpPayload reply))
  ∧ (∀ payload,
       (hasIdField payload ↔ fieldAfter idMarker 7 payload ≠ EmptyString)
       ∧ ((∀ pre v post, payload = pre +:+ idMarker +:+ v +:+ WString.q +:+ post →
             v = EmptyString ∨ quoteFree v = false) →
          ¬ hasIdField payload)
       ∧ quoteFree (fieldAfter idMarker 7 payload) = true
       ∧ quoteFree (fieldAfter nameMarker 8 payload) = true
       ∧ (String.length (fieldAfter idMarker 7 payload) ≤ String.length payload)%nat
       ∧ (String.length (fieldAfter nameMarker 8 payload) ≤ String.length payload)%nat
       ∧ (0 ≤ WString.indexOf idMarker 0 payload →
          let start := WString.indexOf idMarker 0 payload + 7 in
          let stop := WString.indexOfChar WString.dquote (Z.to_nat start) payload in
          start ≤ Z.of_nat (String.length payload)
          ∧ (start < stop → stop < Z.of_nat (String.length payload)))
       ∧ (0 ≤ WString.indexOf nameMarker 0 payload →
          let start := WString.indexOf nameMarker 0 payload + 8 in
          let stop := WString.indexOfChar WString.dquote (Z.to_nat start) payload in
          start ≤ Z.of_nat (String.length payload)
          ∧ (start < stop → stop < Z.of_nat (String.length payload)))).
Proof.
  intros Hin H200 Hlack. cbv zeta.
  pose proof (fieldAfter_lacking _ Hlack) as Hnone.
  split; [done|]. split; [|split].
  - pose proof (refreshActiveEvent_run w) as H. apply wp_outcome in H.
    destruct H as (_ & n1 & Hn1 & [[Hem Hd]|[Hem Hd]]); intros new Hnew Hex.
    + exfalso. unfold emitted in *. rewrite Hem in Hnew. apply app_inv_head in Hnew as <-.
      apply isGet_local in Hn1. apply Exists_exists in Hex as (e & He & Hg).
      rewrite Forall_forall in Hn1. by apply Hn1 in He.
    + rewrite Hin in Hd. destruct Hd as (-> & -> & _). split; [done|].
      unfold absorbReply. rewrite H200, Hnone. simpl.
      destruct (decide (EmptyString ≠ currentEventId (dev w))) as [Hne|Heq].
      * rewrite decide_False by done. done.
      * apply dec_stable in Heq. rewrite decide_True by done. done.
  - intros ws Hw.
    unfold refreshActiveEvent, connectWiFi, httpGET, wifiConnected, bind, next, emit, getDev.
    rewrite Hw. simpl. rewrite Hin. simpl. rewrite H200, Hnone. simpl.
    unfold modDev. simpl.
    destruct (decide _); simpl; eexists; done.
  - intros payload. split_and!.
    + apply hasIdField_fieldAfter.
    + intros Hall (pre & v & post & Hp & Hv & Hq & _).
      destruct (Hall pre v post Hp) as [->|Hq']; [done|congruence].
    + rewrite <- idMarker_length. apply fieldAfter_quoteFree.
    + rewrite <- nameMarker_length. apply fieldAfter_quoteFree.
    + rewrite <- idMarker_length. apply fieldAfter_length.
    + rewrite <- nameMarker_length. apply fieldAfter_length.
    + rewrite <- idMarker_length. apply fieldAfter_bounds.
    + rewrite <- nameMarker_length. apply fieldAfter_bounds.
Qed.

Global Instance readsOnly_preorder : PreOrder readsOnly.
Proof.
  split; [done|].
  intros w1 w2 w3 (? & ? & ?) (? & ? & ?). repeat split; congruence.
Qed.

Lemma readsOnly_next {X} (queue : Inputs → list X) put : keeps readsOnly (next queue put).
Proof. intros w. unfold next. by destruct (queue (input w)). Qed.

Lemma readsOnly_getTimestamp : keeps readsOnly getTimestamp.
Proof.
  unfold getTimestamp, rtcNow.
  apply keeps_bind; [apply _|apply readsOnly_next|]. intros probe.
  destruct (negb _); [apply keeps_ret; apply _|].
  apply keeps_bind; [apply _|apply readsOnly_next|]. intros now.
  apply keeps_ret; apply _.
Qed.

Lemma absorbReply_frame reply d :
  guard (absorbReply reply d) = guard d
  ∧ currentMode (absorbReply reply d) = currentMode d
  ∧ (studentsTimeIn (absorbReply reply d) = studentsTimeIn d
     ∨ studentsTimeIn (absorbReply reply d) = []).
Proof.
  unfold absorbReply.
  destruct (_ =? 200); [destruct (decide _); simpl; auto|].
  destruct (_ =? 404); [destruct (_ <? _)%nat; simpl; auto|auto].
Qed.

Lemma submits_local w fp ty n :
  Forall (λ e, isLocal e ∨ e = WifiBegin) n → Forall (submits w fp ty) n.
Proof.
  intros H. eapply Forall_impl; [exact H|].
  intros e [He| ->]; [by destruct e|done].
Qed.

Lemma displayLines_local l1 l2 l3 l4 : Forall isLocal (displayLines l1 l2 l3 l4).
Proof. repeat constructor. Qed.

Lemma submits_isLocal w fp ty n : Forall isLocal n → Forall (submits w fp ty) n.
Proof. intros H. eapply Forall_impl; [exact H|]. by intros []. Qed.

Ltac split4 := split; [|split; [|split]].

(** Close [emitted w w' ?new] from the equations on outputs at hand. *)
Ltac emitted_tac :=
  unfold emitted in *; simpl in *;
  repeat match goal with
         | H : output _ = _ |- _ => rewrite H
         end;
  rewrite <- ?app_assoc; first [reflexivity | symmetry; apply app_nil_r].

Create HintDb effects discriminated.
Global Hint Resolve submits_local submits_isLocal displayLines_local : effects.

(** Close [Forall P es] for a concatenation of known pieces. *)
Ltac forall_tac :=
  repeat first
    [ assumption
    | apply Forall_nil
    | apply Forall_app; split
    | apply Forall_cons; split; [solve [simpl; auto]|]
    | solve [eauto with effects] ].

(** Every run of [postAttendance]. *)
Lemma postAttendance_run fpID type w :
  wp (postAttendance fpID type) w (λ r w',
    finger w' = finger w
    ∧ guard (dev w') = guard (dev w)
    ∧ (studentsTimeIn (dev w') = studentsTimeIn (dev w)
       ∨ studentsTimeIn (dev w') = []
       ∨ (type = "Time-In"%string ∧ r = Some true
          ∧ studentsTimeIn (dev w') = studentsTimeIn (dev w) ++ [fpID]))
    ∧ ∃ new, emitted w w' new ∧ Forall (submits w fpID type) new).
Proof.
  unfold postAttendance. repeat wp_step.
  destruct (String.length (currentEventId (dev w)) =? 0)%nat eqn:Hlen.
  { repeat wp_step. simpl. split4; [done|done|by left|].
    eexists. split; [emitted_tac|forall_tac]. }
  assert (Hid : currentEventId (dev w) ≠ EmptyString).
  { intros H. rewrite H in Hlen. done. }
  wp_step. eapply wp_keeps; [apply wifiOnly_connectWiFi|].
  intros [[]|] w1 (Hd & Hf & _ & _ & _ & _ & _ & n1 & He1 & Hn1); cbn beta iota.
  2:{ rewrite Hd, Hf. split4; [done|done|by left|]. exists n1. split; [done|forall_tac]. }
  repeat wp_step.
  destruct (wifiIn (input w1)) as [|up ws] eqn:Hw.
  { rewrite Hd, Hf. split4; [done|done|by left|]. exists n1. split; [done|forall_tac]. }
  destruct up; simpl; repeat wp_step; simpl.
  2:{ rewrite Hd, Hf. split4; [done|done|by left|].
      eexists. split; [emitted_tac|forall_tac]. }
  eapply wp_keeps; [apply readsOnly_getTimestamp|].
  intros [ts|] w2 (Hd2 & Hf2 & Ho2); cbn beta iota; simpl in *.
  2:{ rewrite Hd2, Hf2, Hd, Hf. split4; [done|done|by left|].
      eexists. split; [emitted_tac|forall_tac]. }
  repeat wp_step. simpl.
  assert (Hpost : submits w fpID type
            (HttpPost logUrl (logBody fpID (currentEventId (dev w)) type ts))).
  { repeat split; [done|]. by exists ts. }
  destruct (httpIn (input w2)) as [|reply hs] eqn:Hhttp; simpl.
  { rewrite Hd2, Hf2, Hd, Hf. split4; [done|done|by left|].
    eexists. split; [emitted_tac|forall_tac]. }
  repeat wp_step.
  destruct ((httpCode reply =? 200) || (httpCode reply =? 201)) eqn:Hcode.
  { repeat wp_step. destruct (decide _) as [->|Hty]; repeat wp_step; simpl.
    - rewrite Hd2, Hf2, Hd, Hf. split4; [done|done|by right; right|].
      eexists. split; [emitted_tac|forall_tac].
    - rewrite Hd2, Hf2, Hd, Hf. split4; [done|done|by left|].
      eexists. split; [emitted_tac|forall_tac]. }
  destruct (httpCode reply =? 404) eqn:H404.
  { repeat wp_step. eapply wp_mono; [apply refreshActiveEvent_run|].
    intros r w3 (Hf3 & n3 & Hn3 & Hcase); cbn beta iota; simpl in *.
    assert (∃ new3, emitted
              (mkWorld (dev w2) (finger w2) (set_httpIn hs (input w2))
                 ((output w2 ++ [HttpPost logUrl (logBody fpID (currentEventId (dev w)) type ts)])
                  ++ displayLines "--- FAILED ---" "No Active Event" "(Server 404)" "Refreshing..."))
              w3 new3
            ∧ Forall (submits w fpID type) new3
            ∧ guard (dev w3) = guard (dev w)
            ∧ (studentsTimeIn (dev w3) = studentsTimeIn (dev w)
               ∨ studentsTimeIn (dev w3) = [])) as (new3 & He3 & Hs3 & Hg3 & Hl3).
    { destruct Hcase as [[He3 Hd3]|[He3 Hd3]].
      - exists n3. split; [done|]. split; [forall_tac|].
        rewrite Hd3, Hd2, Hd. auto.
      - eexists. split; [exact He3|]. split; [forall_tac|].
        destruct hs as [|reply' hs'].
        + destruct Hd3 as [_ ->]. rewrite Hd2, Hd. auto.
        + destruct Hd3 as (_ & -> & _).
          destruct (absorbReply_frame reply' (dev w2)) as (Hg & _ & Hl).
          rewrite Hg, Hd2, Hd. split; [done|]. rewrite <- Hd, <- Hd2. done. }
    clear Hcase.
    destruct r as [[]|]; repeat wp_step; simpl.
    - rewrite Hf3, Hf2, Hf. split4; [done|done|by destruct Hl3; auto|].
      eexists. split; [emitted_tac|forall_tac].
    - rewrite Hf3, Hf2, Hf. split4; [done|done|by destruct Hl3; auto|].
      eexists. split; [emitted_tac|forall_tac]. }
  repeat wp_step; simpl.
  rewrite Hd2, Hf2, Hd, Hf. split4; [done|done|by left|].
  eexists. split; [emitted_tac|forall_tac].
Qed.

(** * Matched scans *)

Lemma modeScreen_local d : Forall isLocal (modeScreen d).
Proof. unfold modeScreen. destruct (_ =? _)%nat; apply displayLines_local. Qed.
Global Hint Resolve modeScreen_local : effects.

Lemma quiet_local es : Forall isLocal es → Forall (λ e, ¬ isNetwork e) es.
Proof.
  intros H. eapply Forall_impl; [exact H|]. intros e He. destruct e; simpl in *; tauto.
Qed.

Lemma wp_eq {A} (m : M A) w o : wp m w (λ r w', outcome r w' = o) ↔ m w = o.
Proof. unfold wp. by destruct (m w). Qed.

Ltac scan_start w :=
  let r1 := fresh "r1" in let r2 := fresh "r2" in let r3 := fresh "r3" in
  intros (r1 & r2 & r3 & rs & t & ts & Hs & H1 & H2 & H3 & Hid & Hc & Hnow);
  destruct w as [d f [sIn irq kIn cIn wIn hIn rIn] o]; simpl in *; subst sIn cIn;
  destruct r1 as [c1 m1], r2 as [c2 m2], r3 as [c3 m3]; simpl in *; subst c1 c2 c3.

Lemma suppressed_test d id now :
  (id =? lastSentFingerprint d) && (u32 (now - lastSentMillis d) <? SEND_COOLDOWN_MS)
  = bool_decide (suppressed d id now).
Proof.
  unfold suppressed. destruct (Z.eqb_spec id (lastSentFingerprint d)),
    (Z.ltb_spec (u32 (now - lastSentMillis d)) SEND_COOLDOWN_MS); simpl;
    symmetry; first [apply bool_decide_eq_true | apply bool_decide_eq_false]; tauto || lia.
Qed.

Lemma processTimeOut_matched w id now :
  matchedScan w id now →
  processTimeOut w
  = if bool_decide (suppressed (dev w) id now) then Done () (hushed w id)
    else submitAndReport id "Time-Out" (armed w id now).
Proof.
  scan_start w. apply wp_eq. unfold processTimeOut.
  repeat (repeat wp_step; simpl). rewrite Hid, Hnow, suppressed_test.
  destruct (bool_decide _).
  - repeat wp_step; simpl.
    unfold hushed, emitOn, scanned, scanEffects. simpl. by rewrite <- !app_assoc.
  - do 6 wp_step. apply wp_eq.
    unfold submitAndReport, armed, emitOn, withDev, scanned, scanEffects.
    simpl. by rewrite <- !app_assoc.
Qed.

Lemma processTimeIn_matched w id now :
  matchedScan w id now →
  processTimeIn w
  = if bool_decide (suppressed (dev w) id now) then Done () (hushed w id)
    else if bool_decide (id ∈ studentsTimeIn (dev w)) then Done () (alreadyLogged w id)
    else submitAndReport id "Time-In" (armed w id now).
Proof.
  scan_start w. apply wp_eq. unfold processTimeIn.
  repeat (repeat wp_step; simpl). rewrite Hid, Hnow, suppressed_test.
  destruct (bool_decide (suppressed _ _ _)).
  { repeat wp_step; simpl.
    unfold hushed, emitOn, scanned, scanEffects. simpl. by rewrite <- !app_assoc. }
  apply wp_eq. simpl. destruct (bool_decide (id ∈ _)).
  - apply wp_eq. repeat (repeat wp_step; simpl).
    unfold alreadyLogged, emitOn, scanned, scanEffects. simpl. by rewrite <- !app_assoc.
  - unfold submitAndReport, armed, emitOn, withDev, scanned, scanEffects.
    unfold bind, modDev, displayMessage, emit. simpl. rewrite <- !app_assoc. simpl.
    by destruct (postAttendance _ _ _).
Qed.

(** * Soundness of the main loop *)

Global Instance sound_preorder : PreOrder sound.
Proof.
  split.
  - intros w. split; [done|]. exists []. split; [apply emitted_refl|constructor].
  - intros w1 w2 w3 (Hn1 & n1 & He1 & Hf1) (Hn2 & n2 & He2 & Hf2).
    split; [auto|]. exists (n1 ++ n2).
    split; [by eapply emitted_trans|by apply Forall_app].
Qed.

Lemma wellFormed_quiet es : Forall (λ e, ¬ isPost e) es → Forall wellFormedPost es.
Proof. intros H. eapply Forall_impl; [exact H|]. intros [] He; simpl in *; tauto. Qed.

Lemma wellFormed_local es : Forall isLocal es → Forall wellFormedPost es.
Proof. intros H. eapply Forall_impl; [exact H|]. by intros []. Qed.

Lemma wellFormed_submits w fp ty es : Forall (submits w fp ty) es → Forall wellFormedPost es.
Proof.
  intros H. eapply Forall_impl; [exact H|]. intros [] He; simpl in *; try done.
  destruct He as (Hid & Hurl & ts & Hbody). split; [done|]. by exists fp, (currentEventId (dev w)), ty, ts.
Qed.

Lemma processingBanner_local : Forall isLocal processingBanner.
Proof. repeat constructor. Qed.

Global Hint Resolve wellFormed_local wellFormed_submits processingBanner_local : effects.

Lemma calm_sound w w' : calm w w' → sound w w'.
Proof.
  intros (_ & Hs & new & He & Hq). split.
  - destruct Hs as [->| ->]; [done|constructor].
  - exists new. split; [done|by apply wellFormed_quiet].
Qed.

Lemma keeps_calm_sound {A} (m : M A) : keeps calm m → keeps sound m.
Proof. intros H w. apply calm_sound, H. Qed.

(** Close [sound w w'] where the Time-In list is untouched. *)
Ltac sound_same :=
  split; [simpl; intros; assumption | eexists; split; [emitted_tac | forall_tac]].

Lemma submitAndReport_run id type w :
  wp (submitAndReport id type) w (λ _ w',
    finger w' = finger w
    ∧ guard (dev w') = guard (dev w)
    ∧ (studentsTimeIn (dev w') = studentsTimeIn (dev w)
       ∨ studentsTimeIn (dev w') = []
       ∨ (type = "Time-In"%string ∧ studentsTimeIn (dev w') = studentsTimeIn (dev w) ++ [id]))
    ∧ ∃ new, emitted w w' new ∧ Forall (submits w id type) new).
Proof.
  unfold submitAndReport. wp_step. eapply wp_mono; [apply postAttendance_run|].
  intros r w1 (Hf & Hg & Hs & new & He & Hn); cbn beta iota.
  assert (Hs' : studentsTimeIn (dev w1) = studentsTimeIn (dev w)
       ∨ studentsTimeIn (dev w1) = []
       ∨ (type = "Time-In"%string ∧ studentsTimeIn (dev w1) = studentsTimeIn (dev w) ++ [id])).
  { destruct Hs as [?|[?|(? & _ & ?)]]; auto. }
  clear Hs. destruct r as [[]|]; unfold loggedScreen; repeat wp_step; simpl.
  - split4; [done|done|done|]. eexists. split; [emitted_tac|forall_tac].
  - split4; [done|done|done|]. eexists. split; [emitted_tac|forall_tac].
  - split4; [done|done|done|]. by exists new.
Qed.

Lemma submitAndReport_sound id type w :
  (type = "Time-In"%string → id ∉ studentsTimeIn (dev w)) →
  sound w (final (submitAndReport id type w)).
Proof.
  intros Hfresh. by_wp. eapply wp_mono; [apply submitAndReport_run|].
  intros _ w' (_ & _ & Hs & new & He & Hn); cbn beta. split.
  - intros Hnd. destruct Hs as [->|[->|[Hty ->]]]; [done|constructor|].
    apply NoDup_app. split; [done|]. split; [|apply NoDup_singleton].
    intros x Hx ->%list_elem_of_singleton. by apply Hfresh.
  - exists new. split; [done|]. by eapply wellFormed_submits.
Qed.

Ltac wp_split :=
  match goal with
  | |- match ?q with [] => _ | _ :: _ => _ end => destruct q eqn:?
  | |- wp (if negb ?c then _ else _) _ _ => destruct c eqn:?
  | |- wp (if ?c then _ else _) _ _ => destruct c eqn:?
  end.

Ltac wp_crunch := repeat (first [wp_step | wp_split]; simpl).

Global Arguments displayLines : simpl never.
Global Arguments modeScreen : simpl never.
Global Arguments WString.ofInt : simpl never.
Global Arguments logBody : simpl never.

Lemma processTimeOut_sound : keeps sound processTimeOut.
Proof.
  intros w. by_wp. unfold processTimeOut. wp_crunch; try sound_same.
  eapply wp_mono; [apply postAttendance_run|].
  intros res w1 (Hf & Hg & Hs & new & He & Hn); cbn beta iota. simpl in *.
  assert (Hl : studentsTimeIn (dev w1) = studentsTimeIn (dev w)
               ∨ studentsTimeIn (dev w1) = []).
  { destruct Hs as [?|[?|(? & _ & ?)]]; auto; done. }
  apply wellFormed_submits in Hn.
  destruct res as [[]|]; unfold loggedScreen; wp_crunch.
  all: split; [simpl; intros Hnd; destruct Hl as [Hl|Hl]; rewrite Hl; [done|constructor]|].
  all: eexists; split; [emitted_tac|forall_tac].
Qed.

Lemma processTimeIn_sound : keeps sound processTimeIn.
Proof.
  intros w. by_wp. unfold processTimeIn. wp_crunch; try sound_same.
  eapply wp_mono; [apply postAttendance_run|].
  intros res w1 (Hf & Hg & Hs & new & He & Hn); cbn beta iota. simpl in *.
  apply wellFormed_submits in Hn.
  match goal with H : bool_decide _ = false |- _ => apply bool_decide_eq_false in H end.
  assert (Hnd : NoDup (studentsTimeIn (dev w)) → NoDup (studentsTimeIn (dev w1))).
  { intros Hnd. destruct Hs as [->|[->|(_ & _ & ->)]]; [done|constructor|].
    apply NoDup_app. split; [done|]. split; [|apply NoDup_singleton].
    by intros x Hx ->%list_elem_of_singleton. }
  destruct res as [[]|]; unfold loggedScreen; wp_crunch.
  all: split; [simpl; done|].
  all: eexists; split; [emitted_tac|forall_tac].
Qed.

Ltac sound_step :=
  lazymatch goal with
  | |- keeps _ (bind _ _) => apply keeps_bind; [apply _ | | intros ?]
  | |- keeps _ (ret _) => apply keeps_ret; apply _
  | |- keeps _ (if ?c then _ else _) => destruct c
  | |- keeps _ (match ?x with _ => _ end) => destruct x
  | |- keeps _ processTimeIn => apply processTimeIn_sound
  | |- keeps _ processTimeOut => apply processTimeOut_sound
  | |- keeps sound _ => apply keeps_calm_sound; solve [calm_auto]
  end.

Lemma loop_sound : keeps sound loop.
Proof. unfold loop. repeat sound_step. Qed.

Lemma refreshActiveEvent_sound : keeps sound refreshActiveEvent.
Proof. apply keeps_calm_sound, calm_refreshActiveEvent. Qed.

Lemma wp_done {A} (m : M A) w a w' (Q : option A → World → Prop) :
  m w = Done a w' → Q (Some a) w' → wp m w Q.
Proof. unfold wp. by intros ->. Qed.

Lemma getTimestamp_readStamp w ts rest :
  readStamp (rtcIn (input w)) = Some (ts, rest) →
  getTimestamp w = Done ts (mkWorld (dev w) (finger w) (set_rtcIn rest (input w)) (output w)).
Proof.
  destruct w as [d f [sIn irq kIn cIn wIn hIn rIn] o]. simpl.
  unfold getTimestamp, rtcNow, bind, next. simpl.
  destruct rIn as [|probe rIn]; [done|]. simpl.
  destruct (negb (dtValid probe)); [by intros [= <- <-]|].
  destruct rIn as [|now rIn]; [done|]. by intros [= <- <-].
Qed.

Lemma passes_sound n : keeps sound (passes n).
Proof.
  induction n as [|n IH]; simpl.
  - apply keeps_ret; apply _.
  - apply keeps_bind; [apply _|apply loop_sound|]. by intros _.
Qed.

Lemma scanEffects_quiet : Forall (λ e, ¬ isNetwork e) scanEffects.
Proof. repeat constructor; simpl; tauto. Qed.

Lemma hushed_offline w id : offline w (hushed w id) ∧ dev (hushed w id) = dev w.
Proof.
  split; [|done]. exists (scanEffects ++ modeScreen (dev w)). split.
  - unfold emitted, hushed, emitOn, scanned. cbn [output]. by rewrite <- app_assoc.
  - apply Forall_app. split; [apply scanEffects_quiet|apply quiet_local, modeScreen_local].
Qed.

Lemma alreadyLogged_offline w id :
  offline w (alreadyLogged w id) ∧ dev (alreadyLogged w id) = dev w.
Proof.
  split; [|done]. eexists. split.
  - unfold emitted, alreadyLogged, emitOn, scanned. cbn [output].
    rewrite <- app_assoc. reflexivity.
  - apply Forall_app. split; [apply scanEffects_quiet|]. apply quiet_local. forall_tac.
Qed.

(** C10.  The Time-In list is free of duplicates at power-up, and stays
    so through [refreshActiveEvent], [processTimeIn], a pass of the
    main loop and any number of passes.  [postAttendance] leaves the
    list as it was, empties it, or, for a Time-In that it reports as a
    success, appends the identifier.  A matched Time-In scan of an
    identifier that is in the list already sends nothing and leaves the
    globals as they were. *)
Theorem studentsTimeIn_no_duplicates :
  NoDup (studentsTimeIn bootDevice)
  ∧ (∀ w, NoDup (studentsTimeIn (dev w)) →
       NoDup (studentsTimeIn (dev (final (refreshActiveEvent w))))
       ∧ NoDup (studentsTimeIn (dev (final (processTimeIn w))))
       ∧ NoDup (studentsTimeIn (dev (final (loop w))))
       ∧ ∀ n, NoDup (studentsTimeIn (dev (final (passes n w)))))
  ∧ (∀ fpID type w,
       let w' := final (postAttendance fpID type w) in
       studentsTimeIn (dev w') = studentsTimeIn (dev w)
       ∨ studentsTimeIn (dev w') = []
       ∨ (type = "Time-In"%string
          ∧ postAttendance fpID type w = Done true w'
          ∧ studentsTimeIn (dev w') = studentsTimeIn (dev w) ++ [fpID]))
  ∧ (∀ w id now,
       matchedScan w id now → id ∈ studentsTimeIn (dev w) →
       offline w (final (processTimeIn w))
       ∧ dev (final (processTimeIn w)) = dev w).
Proof.
  split; [constructor|]. split; [|split].
  - intros w Hnd. split; [|split; [|split]].
    + by apply refreshActiveEvent_sound.
    + by apply processTimeIn_sound.
    + by apply loop_sound.
    + intros n. by apply passes_sound.
  - intros fpID type w. cbv zeta.
    pose proof (postAttendance_run fpID type w) as H. unfold wp in H.
    destruct (postAttendance fpID type w) as [b w'|w']; simpl.
    + destruct H as (_ & _ & [?|[?|(? & [= ->] & ?)]] & _); auto.
    + destruct H as (_ & _ & [?|[?|(? & ? & ?)]] & _); auto. done.
  - intros w id now Hscan Hin.
    rewrite (processTimeIn_matched w id now Hscan).
    destruct (bool_decide (suppressed _ _ _)); simpl; [apply hushed_offline|].
    rewrite bool_decide_eq_true_2 by done. apply alreadyLogged_offline.
Qed.

Lemma submitAndReport_guard id type w :
  guard (dev (final (submitAndReport id type w))) = guard (dev w).
Proof.
  by_wp. eapply wp_mono; [apply submitAndReport_run|]. by intros _ w' (_ & Hg & _).
Qed.

Lemma armed_guard w id now : guard (dev (armed w id now)) = (id, now).
Proof. by destruct w as [[] ? ? ?]. Qed.

Lemma armed_offline w id now : offline w (armed w id now).
Proof.
  eexists. split.
  - unfold emitted, armed, emitOn, withDev, scanned. cbn [output].
    rewrite <- app_assoc. reflexivity.
  - apply Forall_app. split; [apply scanEffects_quiet|]. apply quiet_local. forall_tac.
Qed.

Lemma suppressed_by_guard d id now t :
  guard d = (id, t) → u32 (now - t) < SEND_COOLDOWN_MS → suppressed d id now.
Proof. unfold guard, suppressed. by intros [= <- <-]. Qed.

Lemma hushed_after w id now :
  matchedScan w id now → suppressed (dev w) id now →
  processTimeIn w = Done () (hushed w id) ∧ processTimeOut w = Done () (hushed w id).
Proof.
  intros Hscan Hsup.
  rewrite (processTimeIn_matched w id now Hscan), (processTimeOut_matched w id now Hscan).
  by rewrite bool_decide_eq_true_2.
Qed.

(** C3, amended.  For a matched scan of [id] at [now].  When the guard
    holds [id] and less than 5000 ms have passed, Time-In and Time-Out
    processing both end suppressed: the globals are as before, nothing
    went over the network, and the display got the processing banner
    and then the mode screen.  When the cooldown does not apply,
    Time-Out processing sets the guard to [(id, now)] and submits;
    Time-In processing does so when [id] is not in the Time-In list,
    and when it is, reports the identifier as already logged, leaves
    the globals and so the guard as before, and sends nothing.  After a
    submission, whatever its outcome, a matched scan of [id] less than
    5000 ms after [now] is suppressed in either mode. *)
Theorem cooldown_suppression w id now :
  matchedScan w id now →
  (suppressed (dev w) id now →
     processTimeIn w = Done () (hushed w id)
     ∧ processTimeOut w = Done () (hushed w id)
     ∧ dev (hushed w id) = dev w
     ∧ output (hushed w id) = output w ++ scanEffects ++ modeScreen (dev w)
     ∧ Forall (λ e, ¬ isNetwork e) (scanEffects ++ modeScreen (dev w)))
  ∧ (¬ suppressed (dev w) id now →
     guard (dev (armed w id now)) = (id, now)
     ∧ processTimeOut w = submitAndReport id "Time-Out" (armed w id now)
     ∧ (id ∉ studentsTimeIn (dev w) →
        processTimeIn w = submitAndReport id "Time-In" (armed w id now))
     ∧ (id ∈ studentsTimeIn (dev w) →
        processTimeIn w = Done () (alreadyLogged w id)
        ∧ dev (alreadyLogged w id) = dev w
        ∧ offline w (alreadyLogged w id))
     ∧ ∀ type w' now',
         w' = final (submitAndReport id type (armed w id now)) →
         matchedScan w' id now' →
         u32 (now' - now) < SEND_COOLDOWN_MS →
         processTimeIn w' = Done () (hushed w' id)
         ∧ processTimeOut w' = Done () (hushed w' id)).
Proof.
  intros Hscan. split.
  - intros Hsup. destruct (hushed_after w id now Hscan Hsup) as [-> ->].
    split; [done|]. split; [done|]. split; [done|]. split.
    + unfold hushed, emitOn, scanned. cbn [output]. by rewrite <- app_assoc.
    + apply Forall_app. split; [apply scanEffects_quiet|apply quiet_local, modeScreen_local].
  - intros Hnot. split; [apply armed_guard|].
    rewrite (processTimeIn_matched w id now Hscan), (processTimeOut_matched w id now Hscan).
    rewrite bool_decide_eq_false_2 by done. split; [done|]. split; [|split].
    + intros Hfresh. by rewrite bool_decide_eq_false_2.
    + intros Hin. rewrite bool_decide_eq_true_2 by done.
      split; [done|]. split; [done|]. apply alreadyLogged_offline.
    + intros type w' now' -> Hscan' Hnear. apply (hushed_after _ id now' Hscan').
      apply (suppressed_by_guard _ _ _ now); [|done].
      by rewrite submitAndReport_guard, armed_guard.
Qed.

(** C9.  For a matched scan of [id] at [now] to which the cooldown does
    not apply: Time-Out processing, and Time-In processing when [id] is
    not in the Time-In list, set the guard to [(id, now)] before
    anything goes over the network, and then submit; the guard is still
    [(id, now)] after the submission, whatever its type and outcome;
    with that guard, a matched scan of [id] less than 5000 ms after
    [now] is suppressed in either mode, with nothing sent and the
    globals unchanged.  A Time-In scan of an identifier already in the
    Time-In list leaves the guard as it was and sends nothing. *)
Theorem guard_set_before_relay w id now :
  matchedScan w id now →
  ¬ suppressed (dev w) id now →
  (processTimeOut w = submitAndReport id "Time-Out" (armed w id now)
   ∧ (id ∉ studentsTimeIn (dev w) →
      processTimeIn w = submitAndReport id "Time-In" (armed w id now))
   ∧ guard (dev (armed w id now)) = (id, now)
   ∧ offline w (armed w id now))
  ∧ (∀ type, guard (dev (final (submitAndReport id type (armed w id now)))) = (id, now))
  ∧ (∀ w' now',
       guard (dev w') = (id, now) → matchedScan w' id now' →
       u32 (now' - now) < SEND_COOLDOWN_MS →
       processTimeIn w' = Done () (hushed w' id)
       ∧ processTimeOut w' = Done () (hushed w' id)
       ∧ offline w' (hushed w' id)
       ∧ dev (hushed w' id) = dev w')
  ∧ (id ∈ studentsTimeIn (dev w) →
     processTimeIn w = Done () (alreadyLogged w id)
     ∧ guard (dev (alreadyLogged w id)) = guard (dev w)
     ∧ offline w (alreadyLogged w id)).
Proof.
  intros Hscan Hnot. split; [|split; [|split]].
  - rewrite (processTimeIn_matched w id now Hscan), (processTimeOut_matched w id now Hscan).
    rewrite bool_decide_eq_false_2 by done. split; [done|]. split.
    + intros Hfresh. by rewrite bool_decide_eq_false_2.
    + split; [apply armed_guard|apply armed_offline].
  - intros type. by rewrite submitAndReport_guard, armed_guard.
  - intros w' now' Hg Hscan' Hnear.
    destruct (hushed_after w' id now' Hscan') as [-> ->].
    { by apply (suppressed_by_guard _ _ _ now). }
    split; [done|]. split; [done|]. apply hushed_offline.
  - intros Hin. rewrite (processTimeIn_matched w id now Hscan).
    rewrite bool_decide_eq_false_2 by done. rewrite bool_decide_eq_true_2 by done.
    split; [done|]. split; [done|]. apply alreadyLogged_offline.
Qed.

Lemma filter_none {A} (P : A → Prop) `{∀ x, Decision (P x)} (l : list A) :
  Forall (λ x, ¬ P x) l → filter P l = [].
Proof.
  induction 1 as [|x l Hx _ IH]; [done|]. by rewrite filter_cons_False.
Qed.

Lemma getTimestamp_inputs w :
  wp getTimestamp w (λ _ w',
    dev w' = dev w ∧ finger w' = finger w ∧ output w' = output w
    ∧ httpIn (input w') = httpIn (input w)
    ∧ sensorIn (input w') = sensorIn (input w)).
Proof.
  unfold getTimestamp. repeat wp_step.
  destruct (rtcIn (input w)) as [|probe rest] eqn:Hrtc; [done|].
  destruct (dtValid probe); simpl; repeat wp_step; simpl; [|done].
  destruct rest as [|now rest']; [done|]. repeat wp_step. done.
Qed.

Lemma quiet_wifi n :
  Forall (λ e, isLocal e ∨ e = WifiBegin) n → Forall (λ e, ¬ isPost e) n.
Proof. apply isPost_local. Qed.

Lemma local_wifi n : Forall isLocal n → Forall (λ e, isLocal e ∨ e = WifiBegin) n.
Proof. intros H. eapply Forall_impl; [exact H|]. by left. Qed.

(** After a 404: the outcome is never a success, no further log request
    goes out, and at most one active-event query does. *)
Lemma refreshAndFail_run w :
  wp refreshAndFail w (λ r w',
    r ≠ Some true
    ∧ ∃ new, emitted w w' new ∧ Forall (λ e, ¬ isPost e) new
        ∧ (length (filter isGet new) ≤ 1)%nat).
Proof.
  unfold refreshAndFail. wp_step. eapply wp_mono; [apply refreshActiveEvent_run|].
  intros r w1 (_ & n1 & Hn1 & Hcase); cbn beta iota.
  pose proof (filter_none isGet n1 (isGet_local _ Hn1)) as Hf1.
  pose proof (isPost_local _ Hn1) as Hp1.
  assert (∃ new1, emitted w w1 new1 ∧ Forall (λ e, ¬ isPost e) new1
            ∧ (length (filter isGet new1) ≤ 1)%nat) as (new1 & He & Hp & Hc).
  { destruct Hcase as [[He _]|[He _]].
    - exists n1. rewrite Hf1. simpl. split; [done|]. split; [done|lia].
    - eexists. split; [exact He|]. split.
      + apply Forall_app. split; [done|]. repeat constructor. simpl. tauto.
      + rewrite filter_app, Hf1. simpl. lia. }
  clear Hcase. destruct r as [[]|]; repeat wp_step; simpl.
  - split; [done|]. eexists. split; [emitted_tac|]. split.
    + apply Forall_app. split; [done|]. repeat constructor; simpl; tauto.
    + rewrite filter_app. simpl. rewrite app_nil_r. done.
  - split; [done|]. by exists new1.
Qed.

Lemma wp_run {A} (m : M A) w (Q : option A → World → Prop) :
  Q (result (m w)) (final (m w)) → wp m w Q.
Proof. unfold wp. by destruct (m w). Qed.

Lemma outcome_run {A} (o : Outcome A) : outcome (result o) (final o) = o.
Proof. by destruct o. Qed.

(** Every run of [postAttendance] from a world whose next HTTP answer
    is a 404: either no log request goes out, or one does and the call
    goes on as [refreshAndFail] from the world in which the 404 screen
    has been shown. *)
Lemma postAttendance_notFound fpID type w reply hs :
  httpIn (input w) = reply :: hs → httpCode reply = 404 →
  wp (postAttendance fpID type) w (λ r w',
    (∃ n1, Forall (λ e, isLocal e ∨ e = WifiBegin) n1 ∧ emitted w w' n1)
    ∨ ∃ w1 n1 ts,
        outcome r w' = refreshAndFail w1
        ∧ Forall (λ e, isLocal e ∨ e = WifiBegin) n1
        ∧ emitted w w1
            (n1 ++ HttpPost logUrl (logBody fpID (currentEventId (dev w)) type ts)
                :: notFoundScreen)
        ∧ currentEventId (dev w) ≠ EmptyString
        ∧ dev w1 = dev w ∧ finger w1 = finger w ∧ httpIn (input w1) = hs).
Proof.
  intros Hhttp H404. unfold postAttendance. repeat wp_step.
  destruct (String.length (currentEventId (dev w)) =? 0)%nat eqn:Hlen.
  { repeat wp_step. simpl. left. eexists. split; [|emitted_tac].
    apply Forall_app. split; [apply local_wifi, displayLines_local|].
    repeat constructor; simpl; tauto. }
  assert (Hid : currentEventId (dev w) ≠ EmptyString).
  { intros H. rewrite H in Hlen. done. }
  wp_step. eapply wp_keeps; [apply wifiOnly_connectWiFi|].
  intros [[]|] w1 (Hd & Hf & _ & _ & _ & Hh & _ & n1 & He1 & Hn1); cbn beta iota.
  2:{ left. by exists n1. }
  repeat wp_step.
  destruct (wifiIn (input w1)) as [|up ws] eqn:Hw.
  { left. by exists n1. }
  destruct up; simpl; repeat wp_step; simpl.
  2:{ left. eexists. split; [|emitted_tac].
      apply Forall_app. split; [done|]. apply Forall_app.
      split; [apply local_wifi, displayLines_local|]. repeat constructor; simpl; tauto. }
  eapply wp_mono; [apply getTimestamp_inputs|].
  intros [ts|] w2 (Hd2 & Hf2 & Ho2 & Hh2 & _); cbn beta iota; simpl in *.
  2:{ left. exists n1. split; [done|emitted_tac]. }
  repeat wp_step. simpl. rewrite Hh2, Hh, Hhttp. repeat wp_step.
  rewrite H404. simpl. do 2 wp_step.
  apply wp_run. right. eexists _, n1, ts. split; [apply outcome_run|].
  split; [done|]. split; [unfold notFoundScreen; emitted_tac|].
  split; [done|]. simpl. by rewrite Hd2, Hf2, Hd, Hf.
Qed.

Lemma refreshAndFail_dev w :
  dev (final (refreshAndFail w)) = dev (final (refreshActiveEvent w)).
Proof.
  unfold refreshAndFail, bind. destruct (refreshActiveEvent w) as [[] w'|w']; done.
Qed.

(** C4.  Every call of [postAttendance] whose log request is answered
    404, whether WiFi was up or had to be brought up first, goes on as
    [refreshAndFail] from the world in which the request has gone out
    with a non-empty event identifier and the 404 screen is shown: it
    calls [refreshActiveEvent] once, before it returns, and does not
    return success; the globals it leaves are those the refresh
    leaves, and after the request no further log request and at most
    one active-event query are sent.  With WiFi up that world is known
    in full.  Every log request that [postAttendance] sends goes out
    with a non-empty cached event identifier, none with an empty one;
    and every log request sent in any number of passes of the main
    loop carries a non-empty event identifier. *)
Theorem not_found_triggers_refresh :
  (∀ fpID type w ws ts rtc reply hs,
     currentEventId (dev w) ≠ EmptyString →
     wifiIn (input w) = true :: true :: ws →
     readStamp (rtcIn (input w)) = Some (ts, rtc) →
     httpIn (input w) = reply :: hs →
     httpCode reply = 404 →
     let w1 := emitOn (posted w fpID type ts rtc) notFoundScreen in
     postAttendance fpID type w = refreshAndFail w1
     ∧ result (refreshAndFail w1) ≠ Some true
     ∧ ∃ new, emitted w1 (final (refreshAndFail w1)) new
         ∧ Forall (λ e, ¬ isPost e) new
         ∧ (length (filter isGet new) ≤ 1)%nat)
  ∧ (∀ fpID type w reply hs new,
       httpIn (input w) = reply :: hs →
       httpCode reply = 404 →
       emitted w (final (postAttendance fpID type w)) new →
       Exists isPost new →
       ∃ w1 n1 ts new1,
         postAttendance fpID type w = refreshAndFail w1
         ∧ emitted w w1
             (n1 ++ HttpPost logUrl (logBody fpID (currentEventId (dev w)) type ts)
                 :: notFoundScreen)
         ∧ Forall (λ e, isLocal e ∨ e = WifiBegin) n1
         ∧ currentEventId (dev w) ≠ EmptyString
         ∧ dev w1 = dev w ∧ finger w1 = finger w ∧ httpIn (input w1) = hs
         ∧ result (postAttendance fpID type w) ≠ Some true
         ∧ dev (final (postAttendance fpID type w)) = dev (final (refreshActiveEvent w1))
         ∧ emitted w1 (final (postAttendance fpID type w)) new1
         ∧ Forall (λ e, ¬ isPost e) new1
         ∧ (length (filter isGet new1) ≤ 1)%nat)
  ∧ (∀ fpID type w new,
       emitted w (final (postAttendance fpID type w)) new →
       Forall (submits w fpID type) new
       ∧ (currentEventId (dev w) = EmptyString → Forall (λ e, ¬ isPost e) new))
  ∧ (∀ n w new, emitted w (final (passes n w)) new → Forall wellFormedPost new).
Proof.
  split; [|split; [|split]].
  - intros fpID type w ws ts rtc reply hs Hid Hwifi Hrtc Hhttp H404. cbv zeta. split.
    + apply wp_eq. unfold postAttendance. repeat wp_step.
      destruct (String.length (currentEventId (dev w)) =? 0)%nat eqn:Hlen.
      { destruct (currentEventId (dev w)); [done|simpl in Hlen; lia]. }
      unfold connectWiFi. do 3 wp_step. simpl. rewrite Hwifi. repeat wp_step.
      simpl. repeat wp_step.
      eapply wp_done; [by apply getTimestamp_readStamp|].
      repeat wp_step. simpl. rewrite Hhttp. repeat wp_step. rewrite H404. simpl.
      do 2 wp_step. apply wp_eq. unfold refreshAndFail, posted, emitOn, notFoundScreen.
      simpl. rewrite Hwifi, Hhttp. simpl. reflexivity.
    + pose proof (refreshAndFail_run
        (emitOn (posted w fpID type ts rtc) notFoundScreen)) as H.
      apply wp_outcome in H. exact H.
  - intros fpID type w reply hs new Hhttp H404 Hem Hex.
    pose proof (postAttendance_notFound fpID type w reply hs Hhttp H404) as H.
    apply wp_outcome in H.
    destruct H as [(n1 & Hn1 & Hem1)|(w1 & n1 & ts & Heq & Hn1 & Hem1 & Hid & Hd & Hf & Hh)].
    + exfalso. unfold emitted in *. rewrite Hem in Hem1. apply app_inv_head in Hem1 as <-.
      apply isPost_local in Hn1. apply Exists_exists in Hex as (e & He & Hp).
      rewrite Forall_forall in Hn1. by apply Hn1 in He.
    + rewrite outcome_run in Heq. rewrite Heq.
      pose proof (refreshAndFail_run w1) as H. apply wp_outcome in H.
      destruct H as (Hr & new1 & Hem2 & Hp & Hc).
      exists w1, n1, ts, new1. split_and!; try done. apply refreshAndFail_dev.
  - intros fpID type w new Hem.
    pose proof (postAttendance_run fpID type w) as H. apply wp_outcome in H.
    destruct H as (_ & _ & _ & new' & Hem' & Hsub).
    unfold emitted in *. rewrite Hem in Hem'. apply app_inv_head in Hem' as <-.
    split; [done|]. intros Hempty. eapply Forall_impl; [exact Hsub|].
    intros [] He; simpl in *; tauto.
  - intros n w new Hem. destruct (passes_sound n w) as (_ & new' & Hem' & Hwf).
    unfold emitted in *. rewrite Hem in Hem'. by apply app_inv_head in Hem' as <-.
Qed.

(** * Interrupt delivery *)

Lemma interrupts_frame w :
  finger (final (interrupts w)) = finger w
  ∧ output (final (interrupts w)) = output w
  ∧ sensorIn (input (final (interrupts w))) = sensorIn (input w)
  ∧ keypadIn (input (final (interrupts w))) = keypadIn (input w)
  ∧ currentMode (delivered w) = currentMode (dev w).
Proof.
  unfold delivered, interrupts. destruct (irqIn (input w)) as [|bs rest]; [done|].
  simpl. by destruct (raise_guard bs (dev w)) as (_ & _ & _ & ->).
Qed.

Lemma wp_readFlag flag w (Q : option bool → World → Prop) :
  Q (Some (flag (delivered w))) (final (interrupts w)) → wp (readFlag flag) w Q.
Proof.
  intros H. unfold readFlag. wp_step. apply wp_interrupts. by repeat wp_step.
Qed.

Lemma readsOnly_millis : keeps readsOnly millis.
Proof.
  unfold millis. apply keeps_bind; [apply _|apply readsOnly_next|].
  intros t. apply keeps_ret; apply _.
Qed.

Lemma readsOnly_scanKeys cells ks t : keeps readsOnly (scanKeys cells ks t).
Proof.
  revert t. induction cells as [|cell cells IH]; intros t; simpl.
  - apply keeps_ret; apply _.
  - destruct (bool_decide _); [|apply IH].
    apply keeps_bind; [apply _|apply readsOnly_millis|]. intros t1.
    destruct (_ <? _); [|apply IH].
    apply keeps_bind; [apply _|apply readsOnly_millis|]. intros t2.
    apply keeps_ret; apply _.
Qed.

(** * Keypad entry *)

Lemma keypadLoop_run n s t w :
  wp (keypadLoop n s t) w (λ r w',
    finger w' = finger w
    ∧ match r with
      | Some (inl v) =>
          v = 0 ∧ currentMode (dev w') = MODE_HOME ∧ homeButtonState (dev w') = false
      | _ => currentMode (dev w') = currentMode (dev w)
      end).
Proof.
  revert s t w. induction n as [|n IH]; intros s t w; cbn [keypadLoop].
  { by apply wp_starve. }
  wp_step. apply wp_readFlag.
  destruct (interrupts_frame w) as (Hf & Ho & _ & _ & Hm).
  unfold delivered in *. set (w0 := final (interrupts w)) in *. clearbody w0.
  destruct (homeButtonState (dev w0)) eqn:Hhome; repeat wp_step; [done|].
  destruct (keypadIn (input w0)) as [|ks rest]; [done|].
  wp_step. eapply wp_keeps; [apply readsOnly_scanKeys|].
  intros [[key t']|] w1 (Hd1 & Hf1 & Ho1); cbn beta iota; simpl in *; [|by rewrite Hd1, Hf1].
  assert (Hnext : ∀ s' es, wp (keypadLoop n s' t')
            (mkWorld (dev w1) (finger w1) (input w1) (output w1 ++ es))
            (λ r w', finger w' = finger w
               ∧ match r with
                 | Some (inl v) => v = 0 ∧ currentMode (dev w') = MODE_HOME
                                   ∧ homeButtonState (dev w') = false
                 | _ => currentMode (dev w') = currentMode (dev w)
                 end)).
  { intros s' es. eapply wp_mono; [apply IH|]. simpl. intros r w' [Hf' Hr].
    split; [congruence|]. destruct r as [[v|s'']|]; [done|congruence..]. }
  assert (Hnext0 : ∀ s', wp (keypadLoop n s' t') w1
            (λ r w', finger w' = finger w
               ∧ match r with
                 | Some (inl v) => v = 0 ∧ currentMode (dev w') = MODE_HOME
                                   ∧ homeButtonState (dev w') = false
                 | _ => currentMode (dev w') = currentMode (dev w)
                 end)).
  { intros s'. eapply wp_mono; [apply IH|]. simpl. intros r w' [Hf' Hr].
    split; [congruence|]. destruct r as [[v|s'']|]; [done|congruence..]. }
  destruct (decide (key = Ascii.zero)); [apply Hnext0|].
  destruct (WString.isDigit key).
  { destruct (_ <? _)%nat; [|apply Hnext0]. repeat wp_step. apply Hnext. }
  destruct (decide (key = "#"%char)).
  { repeat wp_step. simpl. split; congruence. }
  destruct (decide (key = "*"%char)); [|apply Hnext0].
  destruct (_ <? _)%nat; [|apply Hnext0]. repeat wp_step. apply Hnext.
Qed.

Lemma toInt_range s :
  (1 <=? WString.toInt s) && (WString.toInt s <=? 1000) = true →
  1 ≤ u16 (WString.toInt s) ≤ 1000.
Proof.
  intros H. apply andb_true_iff in H as [H1 H2].
  apply Z.leb_le in H1, H2. unfold u16. rewrite Z.mod_small; lia.
Qed.

Lemma getKeypadID_run w :
  wp getKeypadID w (λ r w',
    finger w' = finger w
    ∧ match r with
      | Some v =>
          (v = 0 ∧ currentMode (dev w') = MODE_HOME ∧ homeButtonState (dev w') = false)
          ∨ (currentMode (dev w') = currentMode (dev w) ∧ (v = 0 ∨ 1 ≤ v ≤ 1000))
      | None => True
      end).
Proof.
  unfold getKeypadID. repeat wp_step. eapply wp_mono; [apply keypadLoop_run|].
  simpl. intros [[v|s]|] w' [Hf Hr]; repeat wp_step; [split; [done|by left]| |done].
  destruct (0 <? _)%nat; [|repeat wp_step; split; [done|right; auto]].
  destruct (_ && _) eqn:Hrange; repeat wp_step; (split; [done|right; split; [done|]]).
  - right. by apply toInt_range.
  - by left.
Qed.

Lemma emitOn_nil w : emitOn w [] = w.
Proof. destruct w. unfold emitOn. simpl. by rewrite app_nil_r. Qed.

Lemma interrupts_keypadIn w :
  keypadIn (input (final (interrupts w))) = keypadIn (input w).
Proof. apply interrupts_frame. Qed.

Lemma keypad_round n s t w ks rest key t' w1 :
  homeButtonState (delivered w) = false →
  keypadIn (input w) = ks :: rest →
  scanKeys scanOrder ks t (polled w rest) = Done (key, t') w1 →
  if decide (key = "#"%char) then
    keypadLoop (S n) s t w = Done (inr s) (emitOn w1 (confirmedScreen s))
  else
    ∃ es, Forall isLocal es
      ∧ keypadLoop (S n) s t w = keypadLoop n (editId s key) t' (emitOn w1 es).
Proof.
  intros Hhome Hk Hscan. rewrite <- interrupts_keypadIn in Hk.
  assert (Hstep : ∀ o, (∀ w2, w2 = w1 →
      wp (if decide (key = Ascii.zero) then keypadLoop n s t'
          else if WString.isDigit key then
            if (String.length s <? 4)%nat then
              emit [LcdPrint (String key EmptyString)];;
              keypadLoop n (s +:+ String key EmptyString) t'
            else keypadLoop n s t'
          else if decide (key = "#"%char) then
            emit [LcdSetCursor 0 2; LcdPrint ("ID Confirmed: " +:+ s)];;
            ret (inr s)
          else if decide (key = "*"%char) then
            if (0 <? String.length s)%nat then
              let idString' := WString.remove (String.length s - 1) s in
              let cursorPos := 4 + Z.of_nat (String.length idString') in
              emit [LcdSetCursor cursorPos 1; LcdPrint " "; LcdSetCursor cursorPos 1];;
              keypadLoop n idString' t'
            else keypadLoop n s t'
          else keypadLoop n s t') w2 (λ r w', outcome r w' = o)) →
      keypadLoop (S n) s t w = o).
  { intros o H. apply wp_eq. cbn [keypadLoop]. wp_step. apply wp_readFlag.
    rewrite Hhome. repeat wp_step. rewrite Hk. wp_step.
    eapply wp_done; [exact Hscan|]. cbn beta iota. by apply H. }
  destruct (decide (key = "#"%char)) as [->|Hhash].
  { apply Hstep. intros w2 ->. simpl. repeat wp_step. done. }
  unfold editId.
  destruct (decide (key = Ascii.zero)) as [->|Hzero].
  { exists []. split; [constructor|]. apply Hstep. intros w2 ->. simpl.
    rewrite emitOn_nil. by apply wp_eq. }
  destruct (WString.isDigit key) eqn:Hdigit.
  { destruct (String.length s <? 4)%nat eqn:Hlen.
    - exists [LcdPrint (String key EmptyString)]. split; [by repeat constructor|].
      apply Hstep. intros w2 ->. repeat wp_step. by apply wp_eq.
    - exists []. split; [constructor|]. apply Hstep. intros w2 ->.
      rewrite emitOn_nil. by apply wp_eq. }
  destruct (decide (key = "*"%char)) as [->|Hstar].
  { destruct (0 <? String.length s)%nat eqn:Hlen.
    - eexists. split; [|apply Hstep; intros w2 ->; simpl;
                         repeat wp_step; by apply wp_eq].
      by repeat constructor.
    - exists []. split; [constructor|]. apply Hstep. intros w2 ->. simpl.
      rewrite emitOn_nil.
      replace (WString.remove (String.length s - 1) s) with s; [by apply wp_eq|].
      apply Nat.ltb_ge in Hlen. by destruct s; [|simpl in Hlen; lia]. }
  exists []. split; [constructor|]. apply Hstep. intros w2 ->.
  rewrite emitOn_nil. by apply wp_eq.
Qed.

Lemma keypad_cancel n s t w :
  homeButtonState (delivered w) = true →
  keypadLoop (S n) s t w = Done (inl 0) (cancelled (final (interrupts w))).
Proof.
  intros Hhome. apply wp_eq. cbn [keypadLoop]. wp_step. apply wp_readFlag.
  rewrite Hhome. repeat wp_step. done.
Qed.

Lemma digitsOnly_app a b : digitsOnly (a +:+ b) = digitsOnly a && digitsOnly b.
Proof.
  induction a as [|c a IH]; [done|]. rewrite append_cons. simpl.
  by rewrite IH, andb_assoc.
Qed.

Lemma takeChars_digits n s : digitsOnly s = true → digitsOnly (WString.takeChars n s) = true.
Proof.
  revert s. induction n as [|n IH]; intros [|c s]; simpl; try done.
  intros [Hc Hs]%andb_true_iff. rewrite Hc. by apply IH.
Qed.

Lemma takeChars_length n s : (String.length (WString.takeChars n s) ≤ String.length s)%nat.
Proof.
  revert s. induction n as [|n IH]; intros [|c s]; simpl; try lia.
  specialize (IH s). lia.
Qed.

Lemma editId_invariant s key :
  digitsOnly s = true → (String.length s ≤ 4)%nat →
  digitsOnly (editId s key) = true ∧ (String.length (editId s key) ≤ 4)%nat.
Proof.
  intros Hd Hl. unfold editId. destruct (WString.isDigit key) eqn:Hk.
  - destruct (String.length s <? 4)%nat eqn:Hlt; [|done].
    apply Nat.ltb_lt in Hlt. rewrite digitsOnly_app, append_length, Hd. simpl.
    rewrite Hk. split; [done|lia].
  - destruct (decide _); [|done]. unfold WString.remove.
    split; [by apply takeChars_digits|]. pose proof (takeChars_length (String.length s - 1) s).
    lia.
Qed.

(** * Enrollment *)

Lemma sensorLog_app a b : sensorLog (a ++ b) = sensorLog a ++ sensorLog b.
Proof. apply omap_app. Qed.

Lemma sensorLog_local es : Forall isLocal es → sensorLog es = [].
Proof.
  induction 1 as [|e es He _ IH]; [done|].
  destruct e; simpl in He; try done; unfold sensorLog in *; simpl; exact IH.
Qed.

Lemma sensorLog_displayLines l1 l2 l3 l4 : sensorLog (displayLines l1 l2 l3 l4) = [].
Proof. done. Qed.

Lemma sensorLog_cmd c k : sensorLog [SensorCmd c k] = [(c, k)].
Proof. done. Qed.

Lemma sensorLog_led p : sensorLog [DigitalWrite p true; DigitalWrite p false] = [].
Proof. done. Qed.

Lemma sensorLog_nil : sensorLog [] = [].
Proof. done. Qed.

Global Arguments sensorLog : simpl never.

Lemma awaitImage_run want n w :
  wp (awaitImage want n) w (λ r w',
    finger w' = finger w
    ∧ ∃ seg, emitted w w' seg
        ∧ (∀ c k, (c, k) ∈ sensorLog seg → c = GetImage)
        ∧ match r with
          | Some true =>
              currentMode (dev w') = currentMode (dev w)
              ∧ (GetImage, want) ∈ sensorLog seg
          | Some false =>
              currentMode (dev w') = MODE_HOME ∧ homeButtonState (dev w') = false
          | None => currentMode (dev w') = currentMode (dev w)
          end).
Proof.
  revert w. induction n as [|n IH]; intros w; cbn [awaitImage].
  { apply wp_starve. split; [done|]. exists []. split; [apply emitted_refl|].
    split; [|done]. intros c k. rewrite sensorLog_nil. by intros ?%elem_of_nil. }
  repeat wp_step. destruct (sensorIn (input w)) as [|r rest] eqn:Hin.
  { split; [done|]. exists []. split; [apply emitted_refl|].
    split; [|done]. intros c k. rewrite sensorLog_nil. by intros ?%elem_of_nil. }
  wp_step. apply wp_readFlag. cbn beta iota.
  set (w1 := mkWorld (dev w) (obey GetImage r (finger w)) (set_sensorIn rest (input w))
               (output w ++ [SensorCmd GetImage (status r)])).
  destruct (interrupts_frame w1) as (Hf & Ho & _ & _ & Hm).
  unfold delivered in *. set (w2 := final (interrupts w1)) in *. clearbody w2.
  subst w1. simpl in *.
  destruct (status r =? want) eqn:Hwant.
  { repeat wp_step. split; [done|]. exists [SensorCmd GetImage (status r)].
    split; [done|]. rewrite sensorLog_cmd. split.
    - intros c k. by intros [= -> ->]%list_elem_of_singleton.
    - split; [done|]. apply Z.eqb_eq in Hwant as ->. by apply list_elem_of_singleton. }
  destruct (homeButtonState (dev w2)) eqn:Hhome; repeat wp_step.
  { simpl. split; [done|]. eexists. split; [emitted_tac|].
    rewrite sensorLog_app, sensorLog_cmd, sensorLog_displayLines, app_nil_r.
    split; [|done]. intros c k. by intros [= -> ->]%list_elem_of_singleton. }
  eapply wp_mono; [apply IH|]. cbn beta.
  intros res w3 (Hf3 & seg & He3 & Hseg & Hres).
  split; [congruence|]. exists ([SensorCmd GetImage (status r)] ++ seg).
  split; [emitted_tac|]. rewrite sensorLog_app, sensorLog_cmd. split.
  - intros c k [[= -> ->]%list_elem_of_singleton|Hin']%elem_of_app; [done|by eapply Hseg].
  - destruct res as [[]|]; [|done|congruence].
    destruct Hres as [Hm3 Hin3]. split; [congruence|]. apply elem_of_app. by right.
Qed.

Global Arguments awaitImage : simpl never.

Ltac log_norm :=
  rewrite ?sensorLog_app, ?sensorLog_cmd, ?sensorLog_displayLines, ?sensorLog_led,
    ?sensorLog_nil; simpl app.

Ltac await_step res w1 Hf seg He Hseg Hres :=
  lazymatch goal with
  | |- wp (awaitImage _ _) _ _ =>
      eapply wp_mono; [apply awaitImage_run|];
      intros res w1 (Hf & seg & He & Hseg & Hres); cbn beta iota;
      destruct res as [[]|]; simpl in *; wp_crunch
  | _ => idtac
  end.

Ltac enroll_facts :=
  repeat match goal with
         | H : (_ =? _) = true |- _ => apply Z.eqb_eq in H
         | H : (_ =? _) = false |- _ => apply Z.eqb_neq in H
         end;
  repeat match goal with H : status _ = _ |- _ => rewrite H end;
  repeat match goal with H : finger _ = _ |- _ => rewrite H end;
  simpl.

(** Refute a membership [H] in a log made of known commands and of
    polls. *)
Ltac log_cases H :=
  repeat rewrite ?elem_of_cons, ?elem_of_app, ?elem_of_nil in H;
  repeat (lazymatch type of H with _ ∨ _ => destruct H as [H|H] end);
  first
    [ done
    | by simplify_eq
    | solve [simplify_eq; congruence]
    | match goal with
      | Hs : context [GetImage] |- _ => apply Hs in H; discriminate
      end ].

(** Find a command in such a log. *)
Ltac log_search :=
  first [ reflexivity | assumption | left; log_search | right; log_search ].

Ltac log_find :=
  destruct_and?; repeat rewrite ?elem_of_cons, ?elem_of_app; log_search.

Lemma reenrolled (id : Z) (X : gset Z) : {[id]} ∪ X ∖ {[id]} = {[id]} ∪ X.
Proof.
  apply set_eq. intros x.
  rewrite !elem_of_union, elem_of_difference, elem_of_singleton.
  destruct (decide (x = id)); tauto.
Qed.

Ltac solve_stored :=
  let Hm := fresh "Hm" in
  intros ? Hm;
  first [ solve [exfalso; log_cases Hm]
        | solve [ clear Hm; destruct_and?;
                  (eexists [_; _] + eexists [_]); do 4 eexists;
                  split_and!; [simpl; reflexivity | assumption..] ] ].

Ltac solve_enrolled :=
  let HB := fresh "HB" in
  intros HB;
  first [ discriminate HB
        | split; [log_find | first [reflexivity | apply reenrolled]] ].

Ltac solve_aborted :=
  let HC := fresh "HC" in let Hm := fresh "Hm" in
  intros HC;
  first [ by (exfalso; apply HC)
        | split_and!;
          [ intros Hm; log_cases Hm
          | intros Hm; first [reflexivity | exfalso; log_cases Hm]
          | intros Hm; first [reflexivity | exfalso; apply Hm; log_find] ] ].

Ltac solve_cancelled :=
  let HD := fresh "HD" in let Hm := fresh "Hm" in
  intros ? HD;
  first [ discriminate HD
        | destruct_and?; split_and!;
          [ assumption | assumption | intros ? Hm; log_cases Hm ] ].

Ltac solve_deleted :=
  let Hm := fresh "Hm" in
  intros Hm; first [ log_find | exfalso; log_cases Hm ].

Lemma enrollFingerprint_run id w :
  wp (enrollFingerprint id) w (λ r w',
    ∃ new, emitted w w' new ∧ enrollment id w r w' (sensorLog new)).
Proof.
  unfold enrollFingerprint. cbv zeta. wp_crunch.
  all: await_step res1 w1 Hf1 seg1 He1 Hseg1 Hres1.
  all: await_step res2 w2 Hf2 seg2 He2 Hseg2 Hres2.
  all: await_step res3 w3 Hf3 seg3 He3 Hseg3 Hres3.
  all: eexists; (split; [emitted_tac|]); log_norm.
  all: unfold enrollment; enroll_facts.
  all: split_and!; [solve_stored|solve_enrolled|solve_aborted|solve_cancelled|solve_deleted].
Qed.

Lemma without_absent (id : Z) (X : gset Z) : id ∉ X → X ∖ {[id]} = X.
Proof.
  intros Hid. apply set_eq. intros x. rewrite elem_of_difference, elem_of_singleton.
  split; [by intros [? _]|]. intros Hx. split; [done|]. by intros ->.
Qed.

(** C1, amended.  In every run of [enrollFingerprint id] a [storeModel]
    command is sent only at the end of a log in which the first scan
    was captured and extracted, the finger was seen removed, the second
    scan was captured and extracted and [createModel] answered OK.  A
    run that ends enrolled leaves the library with [id] added.  A run
    that ends in any other way has no acknowledged store, and leaves the
    library as it was less [id] when the old template of [id] was
    deleted at the start, as it was otherwise; so it leaves the library
    as it was when [id] held no template.  The old template is deleted
    only after [loadModel id] found it. *)
Theorem enrollFingerprint_store_discipline id w :
  let r := result (enrollFingerprint id w) in
  let w' := final (enrollFingerprint id w) in
  ∃ new, emitted w w' new
    ∧ (∀ code, (StoreModel id, code) ∈ sensorLog new → bothScans id (sensorLog new))
    ∧ (r = Some Enrolled →
       (StoreModel id, FINGERPRINT_OK) ∈ sensorLog new
       ∧ library (finger w') = {[id]} ∪ library (finger w))
    ∧ (r ≠ Some Enrolled →
       ((StoreModel id, FINGERPRINT_OK) ∉ sensorLog new)
       ∧ library (finger w') =
           (if decide ((DeleteModel id, FINGERPRINT_OK) ∈ sensorLog new)
            then library (finger w) ∖ {[id]} else library (finger w))
       ∧ (id ∉ library (finger w) → library (finger w') = library (finger w)))
    ∧ ((DeleteModel id, FINGERPRINT_OK) ∈ sensorLog new →
       (LoadModel id, FINGERPRINT_OK) ∈ sensorLog new).
Proof.
  cbv zeta. pose proof (enrollFingerprint_run id w) as H. apply wp_outcome in H.
  destruct H as (new & Hem & HA & HB & HC & _ & HE).
  exists new. split; [done|]. split; [done|]. split; [done|]. split; [|done].
  intros Hr. destruct (HC Hr) as (Hs & Hd & Hn). split; [done|].
  destruct (decide _) as [Hin|Hout].
  - split; [by apply Hd|]. intros Hid. rewrite (Hd Hin). by apply without_absent.
  - split; [by apply Hn|]. intros _. by apply Hn.
Qed.

Lemma enrollFingerprint_abort_drops_template :
  result (enrollFingerprint 7 reenrollDemo) = Some (Cancelled 1)
  ∧ library (finger reenrollDemo) = {[7]}
  ∧ library (finger (final (enrollFingerprint 7 reenrollDemo))) = ∅
  ∧ ¬ (∀ id w, result (enrollFingerprint id w) ≠ Some Enrolled →
         library (finger (final (enrollFingerprint id w))) = library (finger w)).
Proof.
  split; [by vm_compute|]. split; [done|]. split; [by vm_compute|].
  intros H. specialize (H 7 reenrollDemo).
  assert (Hin : 7 ∈ library (finger (final (enrollFingerprint 7 reenrollDemo)))).
  { rewrite H; by vm_compute. }
  revert Hin. by vm_compute.
Qed.

(** * Home during enrollment *)

(** C6.  Home is pressed while the sensor takes the image of the
    second scan: the poll of that wait answers OK, so the wait ends
    without a look at the Home flag, and the enrollment goes on through
    [image2Tz], [createModel] and [storeModel].  The run ends enrolled
    with template 7 stored, still in Enroll mode and with the Home flag
    set: the enrollment was not aborted. *)
Lemma home_during_scan_not_honoured :
  let w' := final (enrollFingerprint 7 homeDemo) in
  irqIn (input homeDemo) = [[]; []; []; [BtnHome]]
  ∧ irqIn (input w') = []
  ∧ sensorLog (output w')
    = [ (LoadModel 7, 12);
        (GetImage, FINGERPRINT_OK); (Image2Tz 1, FINGERPRINT_OK);
        (GetImage, FINGERPRINT_NOFINGER);
        (GetImage, FINGERPRINT_NOFINGER); (GetImage, FINGERPRINT_OK);
        (Image2Tz 2, FINGERPRINT_OK); (CreateModel, FINGERPRINT_OK);
        (StoreModel 7, FINGERPRINT_OK) ]
  ∧ result (enrollFingerprint 7 homeDemo) = Some Enrolled
  ∧ currentMode (dev w') = MODE_ENROLL
  ∧ homeButtonState (dev w') = true
  ∧ library (finger homeDemo) = ∅
  ∧ library (finger w') = {[7]}.
Proof. cbv zeta. split_and!; by vm_compute. Qed.

(** * Keypad entry *)

Lemma wp_and {A} (m : M A) w (Q1 Q2 : option A → World → Prop) :
  wp m w Q1 → wp m w Q2 → wp m w (λ r w', Q1 r w' ∧ Q2 r w').
Proof. unfold wp. by destruct (m w). Qed.

Lemma keypadLoop_digits n s t w :
  digitsOnly s = true → (String.length s ≤ 4)%nat →
  wp (keypadLoop n s t) w (λ r _,
    match r with
    | Some (inr s') => digitsOnly s' = true ∧ (String.length s' ≤ 4)%nat
    | _ => True
    end).
Proof.
  revert s t w. induction n as [|n IH]; intros s t w Hd Hl; cbn [keypadLoop].
  { by apply wp_starve. }
  wp_step. apply wp_readFlag.
  set (w0 := final (interrupts w)). clearbody w0.
  destruct (homeButtonState (delivered w)); repeat wp_step; [done|].
  destruct (keypadIn (input w0)) as [|ks rest]; [done|].
  wp_step. eapply wp_keeps; [apply readsOnly_scanKeys|].
  intros [[key t']|] w1 _; cbn beta iota; [|done].
  pose proof (editId_invariant s key Hd Hl) as [Hd' Hl']. unfold editId in Hd', Hl'.
  destruct (decide (key = Ascii.zero)); [by apply IH|].
  destruct (WString.isDigit key).
  { destruct (_ <? _)%nat; [|by apply IH]. repeat wp_step. by apply IH. }
  destruct (decide (key = "#"%char)).
  { repeat wp_step. done. }
  destruct (decide (key = "*"%char)); [|by apply IH].
  destruct (_ <? _)%nat; [|by apply IH]. repeat wp_step. by apply IH.
Qed.

Lemma entry_run w :
  wp entry w (λ r w',
    finger w' = finger w
    ∧ match r with
      | Some (inl v) =>
          v = 0 ∧ currentMode (dev w') = MODE_HOME ∧ homeButtonState (dev w') = false
      | Some (inr s) =>
          currentMode (dev w') = currentMode (dev w)
          ∧ digitsOnly s = true ∧ (String.length s ≤ 4)%nat
      | None => currentMode (dev w') = currentMode (dev w)
      end).
Proof.
  unfold entry. wp_step. apply wp_polling.
  eapply wp_mono; [apply wp_and; [apply keypadLoop_run|apply keypadLoop_digits]|].
  - done.
  - simpl. lia.
  - cbn beta. intros r w' [[Hf Hr] Hd]. split; [done|].
    destruct r as [[v|s]|]; done.
Qed.

Lemma getKeypadID_entry w :
  getKeypadID w =
  match entry w with
  | Done (inl v) w' => Done v w'
  | Done (inr idString) w' => Done (idOf idString) w'
  | Starved w' => Starved w'
  end.
Proof.
  unfold getKeypadID, entry, entryScreen, displayMessage, polling, bind, emit.
  cbn [dev finger input output]. rewrite <- app_assoc.
  destruct (keypadLoop _ _ _ _) as [[v|s] w'|w']; [done| |done].
  unfold idOf, ret. destruct (0 <? _)%nat; [|done]. cbv zeta. by destruct (_ && _).
Qed.

Lemma idOf_range s : idOf s = 0 ∨ 1 ≤ idOf s ≤ 1000.
Proof.
  unfold idOf. destruct (0 <? _)%nat; [|by left]. simpl.
  destruct (_ && _) eqn:H; [right; by apply toInt_range|by left].
Qed.

(** C7, amended.  [getKeypadID] returns what the entry loop returned,
    [0], when the loop was cancelled, and [idOf] of the text entered
    when it was left by the terminator key.  Every round of the loop
    looks at the Home flag first and cancels when it is set: value [0],
    flag cleared, mode Home.  Otherwise a key changes the text as
    [editId] says (a digit is appended while there are fewer than four,
    the backspace key removes the last one, anything else is ignored)
    and the terminator key leaves the loop with the text.  The text
    stays made of at most four digits.  A cancelled entry is told from
    the others by the mode, which a cancellation sets to Home and any
    other end leaves as it was, not by the returned value; [idOf] is
    [0] or within 1..1000. *)
Theorem getKeypadID_contract :
  (∀ w, getKeypadID w =
        match entry w with
        | Done (inl v) w' => Done v w'
        | Done (inr idString) w' => Done (idOf idString) w'
        | Starved w' => Starved w'
        end)
  ∧ (∀ n s t w,
       homeButtonState (delivered w) = true →
       keypadLoop (S n) s t w = Done (inl 0) (cancelled (final (interrupts w))))
  ∧ (∀ n s t w ks rest key t' w1,
       homeButtonState (delivered w) = false →
       keypadIn (input w) = ks :: rest →
       scanKeys scanOrder ks t (polled w rest) = Done (key, t') w1 →
       if decide (key = "#"%char) then
         keypadLoop (S n) s t w = Done (inr s) (emitOn w1 (confirmedScreen s))
       else
         ∃ es, Forall isLocal es
           ∧ keypadLoop (S n) s t w = keypadLoop n (editId s key) t' (emitOn w1 es))
  ∧ (∀ s key,
       digitsOnly s = true → (String.length s ≤ 4)%nat →
       digitsOnly (editId s key) = true ∧ (String.length (editId s key) ≤ 4)%nat)
  ∧ (∀ w, wp entry w (λ r w',
       finger w' = finger w
       ∧ match r with
         | Some (inl v) =>
             v = 0 ∧ currentMode (dev w') = MODE_HOME ∧ homeButtonState (dev w') = false
         | Some (inr s) =>
             currentMode (dev w') = currentMode (dev w)
             ∧ digitsOnly s = true ∧ (String.length s ≤ 4)%nat
         | None => currentMode (dev w') = currentMode (dev w)
         end))
  ∧ (∀ s, idOf s = 0 ∨ 1 ≤ idOf s ≤ 1000).
Proof.
  split_and!.
  - apply getKeypadID_entry.
  - apply keypad_cancel.
  - apply keypad_round.
  - apply editId_invariant.
  - apply entry_run.
  - apply idOf_range.
Qed.

Lemma getKeypadID_contract_witness :
  keypadLoop 1 EmptyString 0 (emitOn cancelDemo entryScreen)
  = Done (inl 0) (cancelled (final (interrupts (emitOn cancelDemo entryScreen)))).
Proof.
  apply (proj1 (proj2 getKeypadID_contract)). reflexivity.
Defined.

Lemma getKeypadID_cancelled_like_invalid :
  result (entry cancelDemo) = Some (inl 0)
  ∧ result (getKeypadID cancelDemo) = Some 0
  ∧ result (entry emptyDemo) = Some (inr EmptyString)
  ∧ result (getKeypadID emptyDemo) = Some 0
  ∧ result (entry zeroDemo) = Some (inr "0"%string)
  ∧ result (getKeypadID zeroDemo) = Some 0.
Proof. split_and!; by vm_compute. Qed.

Example getKeypadID_keyDemo :
  result (entry keyDemo) = Some (inr "42"%string)
  ∧ result (getKeypadID keyDemo) = Some 42
  ∧ currentMode (dev (final (getKeypadID keyDemo))) = MODE_ENROLL.
Proof. split_and!; by vm_compute. Qed.

(** * The theorems at work on scripts *)

Lemma cooldown_guard_not_updated :
  matchedScan timeInDemo 42 10000
  ∧ ¬ suppressed (dev timeInDemo) 42 10000
  ∧ guard (dev timeInDemo) = (0, 0)
  ∧ result (processTimeIn timeInDemo) = Some ()
  ∧ guard (dev (final (processTimeIn timeInDemo))) = (0, 0)
  ∧ Forall (λ e, ¬ isNetwork e) (output (final (processTimeIn timeInDemo)))
  ∧ httpIn (input (final (processTimeIn timeInDemo))) = httpIn (input timeInDemo).
Proof.
  split_and!.
  - unfold matchedScan. do 6 eexists. split_and!; reflexivity.
  - intros [_ H]. by vm_compute in H.
  - reflexivity.
  - by vm_compute.
  - by vm_compute.
  - eapply bool_decide_unpack. by vm_compute.
  - by vm_compute.
Qed.

Lemma cooldown_suppression_witness :
  processTimeOut timeOutDemo = submitAndReport 42 "Time-Out" (armed timeOutDemo 42 10000).
Proof.
  refine (proj1 (proj2 (proj2 (cooldown_suppression timeOutDemo 42 10000 _) _))).
  - unfold matchedScan. do 6 eexists. split_and!; reflexivity.
  - intros [_ H]. vm_compute in H. discriminate.
Defined.

Lemma guard_set_before_relay_witness :
  guard (dev (final (submitAndReport 42 "Time-Out" (armed timeOutDemo 42 10000))))
  = (42, 10000).
Proof.
  refine (proj1 (proj2 (guard_set_before_relay timeOutDemo 42 10000 _ _)) "Time-Out"%string).
  - unfold matchedScan. do 6 eexists. split_and!; reflexivity.
  - intros [_ H]. vm_compute in H. discriminate.
Defined.

Lemma refreshActiveEvent_lacking_id_witness :
  result (refreshActiveEvent lackingDemo) = Some ()
  ∧ currentEventId (dev (final (refreshActiveEvent lackingDemo))) = EmptyString.
Proof.
  destruct (proj1 (proj2 (refreshActiveEvent_lacking_id lackingDemo
              (mkHttpReply 200
                 ("{" +:+ idMarker +:+ WString.q +:+ "," +:+ nameMarker +:+ "X"
                  +:+ WString.q +:+ "}")) [] eq_refl eq_refl
              ltac:(intros H; apply hasIdField_fieldAfter in H; by vm_compute in H)))
              (output (final (refreshActiveEvent lackingDemo))) eq_refl)
    as (Hr & Hid & _).
  - vm_compute. do 5 apply Exists_cons_tl. apply Exists_cons_hd. exact I.
  - by split.
Defined.

Example lacking_run :
  let w' := final (refreshActiveEvent lackingDemo) in
  result (refreshActiveEvent lackingDemo) = Some ()
  ∧ In WifiBegin (output w')
  ∧ cache (dev w') = (EmptyString, "X"%string)
  ∧ studentsTimeIn (dev w') = [].
Proof. cbv zeta. split_and!; vm_compute; auto. Qed.

Lemma not_found_triggers_refresh_witness :
  ∃ w1, postAttendance 42 "Time-In" reconnectDemo = refreshAndFail w1
        ∧ dev w1 = dev reconnectDemo
        ∧ result (postAttendance 42 "Time-In" reconnectDemo) ≠ Some true.
Proof.
  destruct (proj1 (proj2 not_found_triggers_refresh) 42 "Time-In"%string reconnectDemo
              (mkHttpReply 404 EmptyString)
              [mkHttpReply 200 ("{" +:+ idMarker +:+ "E2" +:+ WString.q +:+ "}")]
              (output (final (postAttendance 42 "Time-In" reconnectDemo))))
    as (w1 & n1 & ts & new1 & Heq & _ & _ & _ & Hd & _ & _ & Hr & _).
  - reflexivity.
  - reflexivity.
  - reflexivity.
  - vm_compute. do 5 apply Exists_cons_tl. apply Exists_cons_hd. exact I.
  - exists w1. by split_and!.
Defined.

Example not_found_reconnect_run :
  let w' := final (postAttendance 42 "Time-In" reconnectDemo) in
  result (postAttendance 42 "Time-In" reconnectDemo) = Some false
  ∧ In WifiBegin (output w')
  ∧ List.length (filter isPost (output w')) = 1%nat
  ∧ List.length (filter isGet (output w')) = 1%nat
  ∧ currentEventId (dev w') = "E2"%string
  ∧ studentsTimeIn (dev w') = [].
Proof. cbv zeta. split_and!; vm_compute; auto. Qed.

Example not_found_run :
  let w' := final (postAttendance 42 "Time-In" notFoundDemo) in
  result (postAttendance 42 "Time-In" notFoundDemo) = Some false
  ∧ List.length (filter isPost (output w')) = 1%nat
  ∧ List.length (filter isGet (output w')) = 1%nat
  ∧ currentEventId (dev w') = "E2"%string
  ∧ studentsTimeIn (dev w') = [].
Proof. cbv zeta. split_and!; by vm_compute. Qed.

Lemma studentsTimeIn_no_duplicates_witness :
  offline timeInDemo (final (processTimeIn timeInDemo))
  ∧ dev (final (processTimeIn timeInDemo)) = dev timeInDemo.
Proof.
  refine (proj2 (proj2 (proj2 studentsTimeIn_no_duplicates)) timeInDemo 42 10000 _ _).
  - unfold matchedScan. do 6 eexists. split_and!; reflexivity.
  - vm_compute. left.
Defined.

Lemma enrollFingerprint_store_discipline_witness :
  ∃ new, emitted homeDemo (final (enrollFingerprint 7 homeDemo)) new
         ∧ bothScans 7 (sensorLog new).
Proof.
  destruct (enrollFingerprint_store_discipline 7 homeDemo) as (new & Hem & Hs & Hr & _).
  exists new. split; [exact Hem|]. apply (Hs FINGERPRINT_OK). apply Hr. reflexivity.
Defined.

(** * Interrupt handlers *)

Lemma u32_range x : 0 ≤ u32 x < 2 ^ 32.
Proof. unfold u32. apply Z.mod_pos_bound. lia. Qed.

Lemma u32_small x : 0 ≤ x < 2 ^ 32 → u32 x = x.
Proof. unfold u32. apply Z.mod_small. Qed.

Lemma u32_elapsed last e :
  0 ≤ last < 2 ^ 32 → 0 ≤ e < 2 ^ 32 → u32 (u32 (last + e) - last) = e.
Proof.
  intros Hl He. unfold u32.
  rewrite Zminus_mod_idemp_l. replace (last + e - last) with e by lia.
  by apply Z.mod_small.
Qed.

Lemma handler_cases b clock s d :
  (200 < u32 (u32 clock - lastIrq b s)
   ∧ ∃ s', handler b clock (s, d) = (s', raise b d)
        ∧ lastIrq b s' = u32 clock
        ∧ ∀ b', b' ≠ b → lastIrq b' s' = lastIrq b' s)
  ∨ (u32 (u32 clock - lastIrq b s) ≤ 200 ∧ handler b clock (s, d) = (s, d)).
Proof.
  destruct (Z.ltb_spec 200 (u32 (u32 clock - lastIrq b s))) as [Hlt|Hge].
  - left. split; [done|]. apply Z.ltb_lt in Hlt.
    destruct b; simpl in *; rewrite Hlt; eexists; (split; [reflexivity|]);
      (split; [reflexivity|]); by intros [].
  - right. split; [done|]. apply Z.ltb_ge in Hge.
    destruct b; simpl in *; by rewrite Hge.
Qed.

Lemma raise_flags b d b' :
  flagOf b' (raise b d) = if decide (b' = b) then true else flagOf b' d.
Proof. by destruct b, b'. Qed.

Lemma raise_rest b d :
  currentMode (raise b d) = currentMode d
  ∧ studentsTimeIn (raise b d) = studentsTimeIn d
  ∧ cache (raise b d) = cache d
  ∧ guard (raise b d) = guard d
  ∧ lastHomeUpdate (raise b d) = lastHomeUpdate d.
Proof. by destruct b. Qed.

Lemma handler_bounce b clock clock' s d s' :
  200 < u32 (u32 clock - lastIrq b s) →
  handler b clock (s, d) = (s', raise b d) →
  lastIrq b s' = u32 clock →
  u32 (u32 clock' - u32 clock) ≤ 200 →
  handler b clock' (s', raise b d) = (s', raise b d).
Proof.
  intros _ _ Hlast Hnear.
  destruct (handler_cases b clock' s' (raise b d)) as [[Hlt _]|[_ ->]]; [|done].
  rewrite Hlast in Hlt. lia.
Qed.

(** A button handler accepts a falling edge only when more than 200 ms
    have passed since the last edge it accepted: it then sets its own
    flag and remembers the time, leaving the other buttons alone, and
    ignores every further edge of its button within the next 200 ms.
    The test is made on the 32-bit difference, so it holds across the
    wrap-around of [millis()].  An edge in the first 200 ms after
    start-up is ignored. *)
Theorem handler_debounce b clock s d :
  (200 < u32 (u32 clock - lastIrq b s) →
     ∃ s', handler b clock (s, d) = (s', raise b d)
       ∧ lastIrq b s' = u32 clock
       ∧ (∀ b', b' ≠ b → lastIrq b' s' = lastIrq b' s)
       ∧ flagOf b (raise b d) = true
       ∧ (∀ b', b' ≠ b → flagOf b' (raise b d) = flagOf b' d)
       ∧ (∀ clock', u32 (u32 clock' - u32 clock) ≤ 200 →
            handler b clock' (s', raise b d) = (s', raise b d)))
  ∧ (u32 (u32 clock - lastIrq b s) ≤ 200 → handler b clock (s, d) = (s, d))
  ∧ (∀ e, 0 ≤ lastIrq b s < 2 ^ 32 → 200 < e < 2 ^ 32 →
       (handler b (lastIrq b s + e) (s, d)).2 = raise b d)
  ∧ (u32 clock ≤ 200 → handler b clock (bootIsr, d) = (bootIsr, d)).
Proof.
  split; [|split; [|split]].
  - intros Hlt. destruct (handler_cases b clock s d) as [(_ & s' & Hs' & Hl & Ho)|[Hle _]]; [|lia].
    exists s'. split; [done|]. split; [done|]. split; [done|].
    split; [by rewrite raise_flags, decide_True|]. split.
    + intros b' Hb'. by rewrite raise_flags, decide_False.
    + intros clock' Hnear. by eapply handler_bounce.
  - intros Hle. destruct (handler_cases b clock s d) as [[Hlt _]|[_ ->]]; [lia|done].
  - intros e Hl He.
    destruct (handler_cases b (lastIrq b s + e) s d) as [(_ & s' & -> & _)|[Hle _]]; [done|].
    rewrite u32_elapsed in Hle by lia. lia.
  - intros Hboot.
    destruct (handler_cases b clock bootIsr d) as [[Hlt _]|[_ ->]]; [|done].
    replace (lastIrq b bootIsr) with 0 in Hlt by (by destruct b).
    rewrite Z.sub_0_r in Hlt. rewrite (u32_small (u32 clock)) in Hlt by apply u32_range. lia.
Qed.

Lemma handler_debounce_witness :
  ∃ s', handler BtnHome 1000 (bootIsr, bootDevice) = (s', raise BtnHome bootDevice)
    ∧ handler BtnHome 1150 (s', raise BtnHome bootDevice) = (s', raise BtnHome bootDevice).
Proof.
  destruct (proj1 (handler_debounce BtnHome 1000 bootIsr bootDevice))
    as (s' & H1 & _ & _ & _ & _ & H2).
  - vm_compute. reflexivity.
  - exists s'. split; [exact H1|]. apply H2. vm_compute. discriminate.
Defined.

Lemma edges_snoc es e st : edges (es ++ [e]) st = handler e.1 e.2 (edges es st).
Proof. unfold edges. by rewrite foldl_app. Qed.

(** Over any series of edges the handlers only ever raise flags: what
    they do to the globals is to raise the flags of the accepted edges,
    in order; a flag that was set stays set, a flag is set afterwards
    only if it was set or its button had an edge, and the mode, the
    Time-In list, the cache and the guard are as before. *)
Theorem edges_as_interrupts es s d :
  ∃ bs, bs `sublist_of` (es.*1)
    ∧ (edges es (s, d)).2 = foldr raise d (reverse bs)
    ∧ (∀ b, flagOf b d = true → flagOf b (edges es (s, d)).2 = true)
    ∧ (∀ b, flagOf b (edges es (s, d)).2 = true → flagOf b d = true ∨ b ∈ es.*1)
    ∧ currentMode (edges es (s, d)).2 = currentMode d
    ∧ studentsTimeIn (edges es (s, d)).2 = studentsTimeIn d
    ∧ cache (edges es (s, d)).2 = cache d
    ∧ guard (edges es (s, d)).2 = guard d.
Proof.
  induction es as [|[b t] es IH] using rev_ind.
  { exists []. simpl. repeat split; auto. }
  destruct IH as (bs & Hsub & Hd & Hup & Hdown & Hm & Hl & Hc & Hg).
  rewrite edges_snoc, fmap_app. simpl.
  destruct (edges es (s, d)) as [s1 d1] eqn:Hrun. simpl in *.
  destruct (handler_cases b t s1 d1) as [(_ & s' & -> & _)|[_ ->]]; simpl.
  - exists (bs ++ [b]). split; [by apply sublist_app|].
    rewrite reverse_app. simpl. rewrite Hd.
    destruct (raise_rest b (foldr raise d (reverse bs))) as (Hm' & Hl' & Hc' & Hg' & _).
    rewrite <- Hd in *. split; [done|]. split.
    { intros b' Hb'. rewrite raise_flags. destruct (decide _); [done|by apply Hup]. }
    split.
    { intros b'. rewrite raise_flags. destruct (decide (b' = b)) as [->|_].
      - intros _. right. apply elem_of_app. right. by apply list_elem_of_singleton.
      - intros Hb'. destruct (Hdown b' Hb'); [by left|right]. apply elem_of_app. by left. }
    repeat split; congruence.
  - exists bs. split; [by apply sublist_inserts_r|]. split; [done|]. split; [done|].
    split; [|done].
    intros b' Hb'. destruct (Hdown b' Hb'); [by left|right]. apply elem_of_app. by left.
Qed.

(** * Dates and the LCD *)

Lemma below_checked (P : N → bool) (bound : N) :
  forallb (λ k, P (N.of_nat k)) (seq 0 (N.to_nat bound)) = true →
  ∀ n, (n < bound)%N → P n = true.
Proof.
  intros Hall n Hn. rewrite forallb_forall in Hall.
  rewrite <- (N2Nat.id n). apply Hall. apply in_seq. lia.
Qed.

Lemma padded_2 n : (n < 100)%N → String.length (WString.padded 2 n) = 2%nat.
Proof.
  intros Hn. apply Nat.eqb_eq.
  apply (below_checked (λ n, String.length (WString.padded 2 n) =? 2)%nat 100); [|done].
  by vm_compute.
Qed.

Lemma padded_4 n : (n < 10000)%N → String.length (WString.padded 4 n) = 4%nat.
Proof.
  intros Hn. apply Nat.eqb_eq.
  apply (below_checked (λ n, String.length (WString.padded 4 n) =? 4)%nat 10000); [|done].
  by vm_compute.
Qed.

Lemma length_2 s : String.length s = 2%nat → ∃ a b, s = String a (String b EmptyString).
Proof. destruct s as [|a [|b [|c s]]]; try done. by exists a, b. Qed.

Lemma length_4 s :
  String.length s = 4%nat →
  ∃ a b c d, s = String a (String b (String c (String d EmptyString))).
Proof. destruct s as [|a [|b [|c [|d [|e s]]]]]; try done. by exists a, b, c, d. Qed.

Lemma takeChars_bound n s : (String.length (WString.takeChars n s) ≤ n)%nat.
Proof.
  revert s. induction n as [|n IH]; intros [|c s]; simpl; try lia.
  specialize (IH s). lia.
Qed.

Lemma takeChars_all n s : (String.length s ≤ n)%nat → WString.takeChars n s = s.
Proof.
  revert s. induction n as [|n IH]; intros [|c s]; simpl; try done; try lia.
  intros H. rewrite IH; [done|lia].
Qed.

Lemma formatDateTime_fits t :
  fitsFormat t →
  formatDateTime t = dateText t +:+ "T" +:+ timeText t
  ∧ String.length (formatDateTime t) = 19%nat
  ∧ WString.substring 0 10 (formatDateTime t) = dateText t
  ∧ WString.substring 11 19 (formatDateTime t) = timeText t.
Proof.
  intros (Hy & Hm & Hd & Hh & Hmi & Hs).
  unfold formatDateTime, dateText, timeText.
  destruct (length_4 _ (padded_4 _ Hy)) as (y1 & y2 & y3 & y4 & ->).
  destruct (length_2 _ (padded_2 _ Hm)) as (m1 & m2 & ->).
  destruct (length_2 _ (padded_2 _ Hd)) as (d1 & d2 & ->).
  destruct (length_2 _ (padded_2 _ Hh)) as (h1 & h2 & ->).
  destruct (length_2 _ (padded_2 _ Hmi)) as (i1 & i2 & ->).
  destruct (length_2 _ (padded_2 _ Hs)) as (s1 & s2 & ->).
  done.
Qed.

Lemma getTimestamp_run w :
  wp getTimestamp w (λ r w',
    dev w' = dev w ∧ finger w' = finger w ∧ output w' = output w
    ∧ ∀ ts, r = Some ts →
        (∃ probe, head (rtcIn (input w)) = Some probe ∧ dtValid probe = false
           ∧ ts = epochStamp ∧ rtcIn (input w') = tail (rtcIn (input w)))
        ∨ (∃ probe now rest, rtcIn (input w) = probe :: now :: rest ∧ dtValid probe = true
             ∧ ts = formatDateTime now ∧ rtcIn (input w') = rest)).
Proof.
  unfold getTimestamp. repeat wp_step.
  destruct (rtcIn (input w)) as [|probe rest] eqn:Hrtc; [done|].
  destruct (dtValid probe) eqn:Hv; simpl; repeat wp_step; simpl.
  - destruct rest as [|now rest']; [done|]. repeat wp_step.
    simpl. split; [done|]. split; [done|]. split; [done|].
    intros ts [= <-]. right. by exists probe, now, rest'.
  - split; [done|]. split; [done|]. split; [done|].
    intros ts [= <-]. left. by exists probe.
Qed.

(** The timestamp never has more than 19 characters.  When the fields
    the RTC reports fit the format (a year below 10000, the others
    below 100) it has exactly 19: it is the epoch text or the date and
    the time of a reading joined by a T, and the two substrings the
    home screen takes from it are that date and that time. *)
Theorem getTimestamp_format w ts :
  result (getTimestamp w) = Some ts →
  (String.length ts ≤ 19)%nat
  ∧ (Forall fitsFormat (rtcIn (input w)) →
     String.length ts = 19%nat
     ∧ (ts = epochStamp
        ∨ ∃ now, now ∈ rtcIn (input w) ∧ ts = dateText now +:+ "T" +:+ timeText now
            ∧ WString.substring 0 10 ts = dateText now
            ∧ WString.substring 11 19 ts = timeText now)).
Proof.
  intros Hr. pose proof (getTimestamp_run w) as H. apply wp_outcome in H.
  destruct H as (_ & _ & _ & H). destruct (H ts Hr) as
    [(probe & _ & _ & -> & _)|(probe & now & rest & Hrtc & _ & -> & _)].
  - split; [unfold epochStamp; simpl; lia|]. intros _. split; [done|by left].
  - split; [apply takeChars_bound|]. intros Hall. rewrite Hrtc in Hall.
    apply Forall_cons in Hall as [_ Hall]. apply Forall_cons in Hall as [Hnow _].
    destruct (formatDateTime_fits now Hnow) as (He & Hl & Hd & Ht).
    split; [done|]. right. exists now. split; [|done].
    rewrite Hrtc. apply elem_of_cons. right. apply elem_of_cons. by left.
Qed.

Lemma getTimestamp_format_witness :
  String.length (formatDateTime newYearsEve) = 19%nat.
Proof.
  refine (proj1 (proj2 (getTimestamp_format clockDemo (formatDateTime newYearsEve) _) _)).
  - reflexivity.
  - repeat constructor; vm_compute; done.
Defined.

Lemma substring_bound a b s :
  (String.length (WString.substring a b s) ≤ Nat.max a b)%nat.
Proof.
  unfold WString.substring.
  pose proof (takeChars_bound (Nat.max a b - Nat.min a b) (WString.dropChars (Nat.min a b) s)).
  lia.
Qed.

Lemma substring_whole n s : (String.length s ≤ n)%nat → WString.substring 0 n s = s.
Proof. intros H. unfold WString.substring. simpl. rewrite Nat.sub_0_r. by apply takeChars_all. Qed.

Lemma displayLines_fit l1 l2 l3 l4 : Forall fitsRow (displayLines l1 l2 l3 l4).
Proof.
  unfold displayLines. repeat (apply Forall_cons; split); try apply Forall_nil; simpl;
    try exact I; apply (substring_bound 0 20).
Qed.

(** Whatever the four lines, [displayMessage] writes nothing but the
    LCD and changes no global: no row it prints is longer than the 20
    columns, and lines of at most 20 characters are printed whole, each
    at the start of its row, after one clear.  The rows that
    [displayModeScreen] prints fit as well. *)
Theorem displayMessage_rows l1 l2 l3 l4 w :
  (∃ es, emitted w (final (displayMessage l1 l2 l3 l4 w)) es
     ∧ Forall fitsRow es ∧ Forall isLocal es
     ∧ ((String.length l1 ≤ 20)%nat → (String.length l2 ≤ 20)%nat →
        (String.length l3 ≤ 20)%nat → (String.length l4 ≤ 20)%nat →
        es = [ LcdClear; LcdSetCursor 0 0; LcdPrint l1; LcdSetCursor 0 1; LcdPrint l2;
               LcdSetCursor 0 2; LcdPrint l3; LcdSetCursor 0 3; LcdPrint l4 ]))
  ∧ dev (final (displayMessage l1 l2 l3 l4 w)) = dev w
  ∧ (∃ es, emitted w (final (displayModeScreen w)) es
       ∧ Forall fitsRow es ∧ Forall isLocal es)
  ∧ dev (final (displayModeScreen w)) = dev w.
Proof.
  split; [|split; [done|split; [|done]]].
  - exists (displayLines l1 l2 l3 l4). split; [done|].
    split; [apply displayLines_fit|]. split; [apply displayLines_local|].
    intros H1 H2 H3 H4. unfold displayLines. by rewrite !substring_whole.
  - exists (modeScreen (dev w)). split; [done|]. split; [|apply modeScreen_local].
    unfold modeScreen. destruct (_ =? _)%nat; apply displayLines_fit.
Qed.

Lemma dateText_length now : fitsFormat now → String.length (dateText now) = 10%nat.
Proof.
  intros (Hy & Hm & Hd & _). unfold dateText.
  rewrite !append_length, (padded_4 _ Hy), (padded_2 _ Hm), (padded_2 _ Hd). done.
Qed.

Lemma timeText_length now : fitsFormat now → String.length (timeText now) = 8%nat.
Proof.
  intros (_ & _ & _ & Hh & Hm & Hs). unfold timeText.
  rewrite !append_length, (padded_2 _ Hh), (padded_2 _ Hm), (padded_2 _ Hs). done.
Qed.

Lemma homeScreen_rows date time :
  String.length date = 10%nat → String.length time = 8%nat →
  homeScreen date time
  = [ LcdClear;
      LcdSetCursor 0 0; LcdPrint "  Student Biometric";
      LcdSetCursor 0 1; LcdPrint ("      " +:+ date);
      LcdSetCursor 0 2; LcdPrint ("      " +:+ time);
      LcdSetCursor 0 3; LcdPrint "Status: HOME (Idle)" ].
Proof.
  intros Hd Ht. unfold homeScreen, displayLines.
  rewrite !substring_whole; [done|..]; rewrite ?append_length, ?Hd, ?Ht; simpl; lia.
Qed.

(** The home screen.  When the RTC reports an invalid time the screen
    shows the epoch date and time.  When it reports a valid time whose
    fields fit the format, the screen shows the date and the time of
    the next reading, whole, after six spaces. *)
Theorem displayHomeScreen_shows w probe rest :
  rtcIn (input w) = probe :: rest →
  (dtValid probe = false →
   displayHomeScreen w
   = Done () (mkWorld (dev w) (finger w) (set_rtcIn rest (input w))
                (output w ++ homeScreen "1970-01-01" "00:00:00")))
  ∧ (∀ now rest',
       dtValid probe = true → rest = now :: rest' → fitsFormat now →
       displayHomeScreen w
       = Done () (mkWorld (dev w) (finger w) (set_rtcIn rest' (input w))
                    (output w ++ homeScreen (dateText now) (timeText now)))
       ∧ homeScreen (dateText now) (timeText now)
         = [ LcdClear;
             LcdSetCursor 0 0; LcdPrint "  Student Biometric";
             LcdSetCursor 0 1; LcdPrint ("      " +:+ dateText now);
             LcdSetCursor 0 2; LcdPrint ("      " +:+ timeText now);
             LcdSetCursor 0 3; LcdPrint "Status: HOME (Idle)" ]).
Proof.
  intros Hrtc. split.
  - intros Hv.
    unfold displayHomeScreen, getTimestamp, rtcNow, bind, next, displayMessage, emit.
    rewrite Hrtc. simpl. rewrite Hv. done.
  - intros now rest' Hv -> Hfit.
    destruct (formatDateTime_fits now Hfit) as (He & Hl & Hd & Ht).
    split; [|by apply homeScreen_rows; [apply dateText_length|apply timeText_length]].
    unfold displayHomeScreen, getTimestamp, rtcNow, bind, next, displayMessage, emit.
    rewrite Hrtc. simpl. rewrite Hv. simpl. by rewrite Hd, Ht.
Qed.

Lemma displayHomeScreen_shows_witness :
  displayHomeScreen clockDemo
  = Done () (mkWorld bootDevice (mkSensor ∅ 0) noInputs
               (homeScreen (dateText newYearsEve) (timeText newYearsEve))).
Proof.
  refine (proj1 (proj2 (displayHomeScreen_shows clockDemo newYearsEve [newYearsEve] _)
                   newYearsEve [] _ _ _)).
  - reflexivity.
  - reflexivity.
  - reflexivity.
  - vm_compute. done.
Defined.

(** * Typing on the keypad *)

Lemma scanKeys_idle cells last w :
  scanKeys cells (mkKeyScan []) last w = Done (Ascii.zero, last) w.
Proof. induction cells as [|c cells IH]; [done|]. simpl. exact IH. Qed.

Lemma scanKeys_single cells c0 last w t t' rest :
  c0 ∈ cells →
  clockIn (input w) = t :: t' :: rest →
  KEY_DEBOUNCE_MS < u32 (u32 t - last) →
  scanKeys cells (press c0) last w
  = Done (keys c0.1 c0.2, u32 t')
      (mkWorld (dev w) (finger w) (set_clockIn rest (input w)) (output w)).
Proof.
  intros Hin Hclock Hlate. induction cells as [|c cells IH]; [by apply elem_of_nil in Hin|].
  cbn [scanKeys press lowCells]. destruct (decide (c = c0)) as [->|Hne].
  - rewrite bool_decide_eq_true_2 by (by apply list_elem_of_singleton).
    unfold millis, bind, next, ret. rewrite Hclock. simpl.
    apply Z.ltb_lt in Hlate. rewrite Hlate. done.
  - rewrite bool_decide_eq_false_2 by (by intros ?%list_elem_of_singleton).
    apply IH. apply elem_of_cons in Hin as [->|Hin]; done.
Qed.

(** A pass in which every clock reading is within the debounce time of
    the last accepted key gives no key, whatever is held down. *)
Lemma scanKeys_bounce cells ks last w :
  Forall (λ t, u32 (u32 t - last) ≤ KEY_DEBOUNCE_MS) (clockIn (input w)) →
  wp (scanKeys cells ks last) w (λ r w',
    dev w' = dev w ∧ finger w' = finger w ∧ output w' = output w
    ∧ ∀ key t', r = Some (key, t') → key = Ascii.zero ∧ t' = last).
Proof.
  revert w. induction cells as [|c cells IH]; intros w Hall; simpl.
  { apply wp_ret. split; [done|]. split; [done|]. split; [done|]. by intros ? ? [= <- <-]. }
  destruct (bool_decide _); [|by apply IH].
  wp_step. apply wp_millis. destruct (clockIn (input w)) as [|t ts] eqn:Hc; [done|].
  apply Forall_cons in Hall as [Ht Hts].
  destruct (Z.ltb_spec KEY_DEBOUNCE_MS (u32 (u32 t - last))) as [Hlt|Hge]; [lia|].
  eapply wp_mono; [apply IH; simpl; done|]. simpl. intros r w' Hr. exact Hr.
Qed.

Lemma cellOf_scanned key : cellOf key ∈ scanOrder.
Proof.
  unfold cellOf. repeat (destruct (decide _)); vm_compute;
    repeat first [by left | right].
Qed.

Lemma raise_other bs d :
  BtnHome ∉ bs → homeButtonState (foldr raise d bs) = homeButtonState d.
Proof.
  induction bs as [|b bs IH]; [done|]. intros Hno.
  apply not_elem_of_cons in Hno as [Hb Hbs]. simpl.
  rewrite <- (IH Hbs). by destruct b.
Qed.

Lemma undisturbed_interrupts w :
  undisturbed w →
  undisturbed (final (interrupts w)) ∧ homeButtonState (delivered w) = false.
Proof.
  intros [Hd Hq]. unfold delivered, interrupts, undisturbed.
  destruct (irqIn (input w)) as [|bs rest] eqn:Hirq; simpl; [by rewrite Hirq|].
  apply Forall_cons in Hq as [Hbs Hrest]. rewrite raise_other by done. done.
Qed.

Lemma interrupts_inputs w :
  clockIn (input (final (interrupts w))) = clockIn (input w)
  ∧ keypadIn (input (final (interrupts w))) = keypadIn (input w)
  ∧ finger (final (interrupts w)) = finger w
  ∧ output (final (interrupts w)) = output w
  ∧ currentMode (dev (final (interrupts w))) = currentMode (dev w).
Proof.
  unfold interrupts. destruct (irqIn (input w)) as [|bs rest]; [done|]. simpl.
  by destruct (raise_guard bs (dev w)) as (_ & _ & _ & ->).
Qed.

Lemma spaced_length_cons (times : list (Z * Z)) (k : ascii) (ks : list ascii) :
  List.length times = List.length (k :: ks) →
  ∃ t t' times', times = (t, t') :: times' ∧ List.length times' = List.length ks.
Proof. destruct times as [|[t t'] times']; [done|]. intros [= H]. by exists t, t', times'. Qed.

Lemma keypadLoop_typed ks : ∀ n s last w times more moreClock,
  undisturbed w →
  Forall (λ k, onPad k ∧ k ≠ "#"%char) ks →
  keypadIn (input w) = (press <$> (cellOf <$> ks)) ++ more →
  clockIn (input w) = readings times ++ moreClock →
  List.length times = List.length ks →
  spaced last times →
  ∃ w', keypadLoop (List.length ks + n) s last w
        = keypadLoop n (foldl editId s ks) (lastOf last times) w'
      ∧ undisturbed w'
      ∧ keypadIn (input w') = more
      ∧ clockIn (input w') = moreClock
      ∧ finger w' = finger w
      ∧ currentMode (dev w') = currentMode (dev w)
      ∧ ∃ es, emitted w w' es ∧ Forall isLocal es.
Proof.
  induction ks as [|k ks IH]; intros n s last w times more moreClock Hu Hks Hpad Hclock Hlen Hsp.
  { destruct times; [|done]. exists w. simpl in *.
    repeat split; try done; try apply Hu. exists []. split; [apply emitted_refl|constructor]. }
  destruct (spaced_length_cons _ _ _ Hlen) as (t & t' & times' & -> & Hlen').
  apply Forall_cons in Hks as [[Hon Hk] Hks]. destruct Hsp as [Hlate Hsp].
  destruct (undisturbed_interrupts w Hu) as [Hu0 Hhome].
  destruct (interrupts_inputs w) as (Hc0 & Hk0 & Hf0 & Ho0 & Hm0).
  simpl in Hpad, Hclock.
  set (w1 := mkWorld (dev (final (interrupts w))) (finger (final (interrupts w)))
               (set_clockIn (readings times' ++ moreClock)
                  (set_keypadIn ((press <$> (cellOf <$> ks)) ++ more)
                     (input (final (interrupts w)))))
               (output (final (interrupts w)))).
  assert (Hscan : scanKeys scanOrder (press (cellOf k)) last
                    (polled w ((press <$> (cellOf <$> ks)) ++ more))
                  = Done (k, u32 t') w1).
  { unfold onPad in Hon.
    replace (Done (k, u32 t') w1)
      with (Done (keys (cellOf k).1 (cellOf k).2, u32 t') w1) by (by rewrite Hon).
    erewrite (scanKeys_single scanOrder (cellOf k) last _ t t' (readings times' ++ moreClock));
      [reflexivity|apply cellOf_scanned| |done].
    unfold polled. simpl. by rewrite Hc0, Hclock. }
  pose proof (keypad_round (List.length ks + n) s last w _ _ k (u32 t') w1 Hhome Hpad Hscan)
    as Hround.
  rewrite decide_False in Hround by done. destruct Hround as (es & Hes & Hstep).
  assert (Hu2 : undisturbed (emitOn w1 es)) by exact Hu0.
  destruct (IH n (editId s k) (u32 t') (emitOn w1 es) times' more moreClock
              Hu2 Hks eq_refl eq_refl Hlen' Hsp)
    as (w' & Hrun & Hu' & Hk' & Hc' & Hf' & Hm' & es' & Hem' & Hes').
  exists w'. split.
  { unfold lastOf in *. cbn [foldl List.length Nat.add snd]. rewrite Hstep. exact Hrun. }
  split; [done|]. split; [done|]. split; [done|].
  split; [by rewrite Hf'|]. split; [by rewrite Hm'|].
  exists (es ++ es'). split; [|by apply Forall_app].
  unfold emitted in *. rewrite Hem'. simpl. rewrite Ho0. by rewrite app_assoc.
Qed.

Lemma keypadLoop_terminator n s last w t t' more moreClock :
  undisturbed w →
  keypadIn (input w) = press (cellOf "#") :: more →
  clockIn (input w) = t :: t' :: moreClock →
  KEY_DEBOUNCE_MS < u32 (u32 t - last) →
  ∃ w', keypadLoop (S n) s last w = Done (inr s) w'
      ∧ keypadIn (input w') = more
      ∧ clockIn (input w') = moreClock
      ∧ finger w' = finger w
      ∧ currentMode (dev w') = currentMode (dev w)
      ∧ ∃ es, emitted w w' es ∧ Forall isLocal es.
Proof.
  intros Hu Hpad Hclock Hlate.
  destruct (undisturbed_interrupts w Hu) as [Hu0 Hhome].
  destruct (interrupts_inputs w) as (Hc0 & Hk0 & Hf0 & Ho0 & Hm0).
  set (w1 := mkWorld (dev (final (interrupts w))) (finger (final (interrupts w)))
               (set_clockIn moreClock (set_keypadIn more (input (final (interrupts w)))))
               (output (final (interrupts w)))).
  assert (Hscan : scanKeys scanOrder (press (cellOf "#")) last (polled w more)
                  = Done ("#"%char, u32 t') w1).
  { erewrite (scanKeys_single scanOrder (cellOf "#") last _ t t' moreClock);
      [reflexivity|apply cellOf_scanned| |done].
    unfold polled. simpl. by rewrite Hc0, Hclock. }
  pose proof (keypad_round n s last w _ _ "#"%char (u32 t') w1 Hhome Hpad Hscan) as Hround.
  rewrite decide_True in Hround by done.
  eexists. split; [exact Hround|]. simpl. repeat split; try done.
  exists (confirmedScreen s). split; [|by repeat constructor].
  unfold emitted. simpl. by rewrite Ho0.
Qed.

Lemma editId_digits (chars : list ascii) : ∀ acc,
  Forall (λ c, WString.isDigit c = true) chars →
  (String.length acc + List.length chars ≤ 4)%nat →
  foldl editId acc chars = acc +:+ string_of_list_ascii chars.
Proof.
  induction chars as [|c chars IH]; intros acc Hd Hl; simpl.
  { clear. induction acc as [|a acc IH]; [done|]. by rewrite append_cons, <- IH. }
  apply Forall_cons in Hd as [Hc Hd]. simpl in Hl.
  unfold editId at 2. rewrite Hc.
  destruct (Nat.ltb_spec (String.length acc) 4) as [_|Hge]; [|lia].
  rewrite IH; [|done|rewrite append_length; simpl; lia].
  by rewrite append_assoc, append_cons, append_nil.
Qed.

Lemma digitsOnly_chars s :
  digitsOnly s = true → Forall (λ c, WString.isDigit c = true) (list_ascii_of_string s).
Proof.
  induction s as [|c s IH]; simpl; [constructor|].
  intros [Hc Hs]%andb_true_iff. constructor; [done|by apply IH].
Qed.

Lemma digit_onPad c : WString.isDigit c = true → onPad c ∧ c ≠ "#"%char.
Proof.
  intros Hd. split; [|by intros ->].
  unfold WString.isDigit in Hd. apply andb_true_iff in Hd as [H1 H2].
  apply Nat.leb_le in H1, H2.
  rewrite <- (ascii_nat_embedding c).
  assert (Hcases : ∃ k, (k < 10)%nat ∧ nat_of_ascii c = (48 + k)%nat).
  { exists (nat_of_ascii c - 48)%nat. lia. }
  destruct Hcases as (k & Hk & ->).
  do 10 (destruct k as [|k]; [by vm_compute|]). lia.
Qed.

Lemma length_chars s : List.length (list_ascii_of_string s) = String.length s.
Proof. induction s as [|c s IH]; simpl; [done|by rewrite IH]. Qed.

Lemma spaced_last last times t t' :
  spaced last (times ++ [(t, t')]) →
  spaced last times ∧ KEY_DEBOUNCE_MS < u32 (u32 t - lastOf last times).
Proof.
  revert last. induction times as [|[a b] times IH]; intros last; simpl; [tauto|].
  intros [H1 H2]. destruct (IH _ H2). done.
Qed.

Lemma getKeypadID_typed_run w text times more moreClock :
  undisturbed w →
  digitsOnly text = true → (String.length text ≤ 4)%nat →
  keypadIn (input w) = (press <$> (cellOf <$> entryKeys text)) ++ more →
  clockIn (input w) = readings times ++ moreClock →
  List.length times = S (String.length text) →
  spaced 0 times →
  ∃ w', getKeypadID w = Done (idOf text) w'
      ∧ currentMode (dev w') = currentMode (dev w)
      ∧ finger w' = finger w
      ∧ keypadIn (input w') = more
      ∧ clockIn (input w') = moreClock
      ∧ ∃ es, emitted w w' es ∧ Forall isLocal es.
Proof.
  intros Hu Hd Hl Hpad Hclock Hlen Hsp.
  rewrite getKeypadID_entry. unfold entry, bind, emit, polling.
  cbn [dev finger input output].
  set (w0 := mkWorld (dev w) (finger w) (input w) (output w ++ entryScreen)).
  unfold entryKeys in Hpad. rewrite !fmap_app, <- app_assoc in Hpad. simpl in Hpad.
  assert (Hsplit : ∃ times1 t t', times = times1 ++ [(t, t')]
            ∧ List.length times1 = String.length text).
  { clear -Hlen. destruct times as [|[t t'] tail _] using rev_ind; [done|].
    exists tail, t, t'. split; [done|]. rewrite length_app in Hlen. simpl in Hlen. lia. }
  destruct Hsplit as (times1 & t & t' & -> & Hlen1).
  assert (Hsp1 : spaced 0 times1 ∧ KEY_DEBOUNCE_MS < u32 (u32 t - lastOf 0 times1)).
  { by apply (spaced_last 0 times1 t t'). }
  destruct Hsp1 as [Hsp1 Hlast].
  unfold readings in Hclock. rewrite flat_map_app, <- app_assoc in Hclock. simpl in Hclock.
  replace (S (List.length (keypadIn (input w))))
    with (List.length (list_ascii_of_string text) + S (S (List.length more)))%nat
    by (rewrite Hpad, !length_app, !length_fmap; simpl; lia).
  destruct (keypadLoop_typed (list_ascii_of_string text) (S (S (List.length more)))
              EmptyString 0 w0 times1 (press (cellOf "#") :: more) (t :: t' :: moreClock))
    as (w1 & Hrun & Hu1 & Hk1 & Hc1 & Hf1 & Hm1 & es1 & Hem1 & Hes1); try done.
  { eapply Forall_impl; [by apply digitsOnly_chars|]. intros c Hc. by apply digit_onPad. }
  { by rewrite length_chars. }
  rewrite Hrun.
  rewrite editId_digits; [|by apply digitsOnly_chars|by rewrite length_chars].
  rewrite append_nil, string_of_list_ascii_of_string.
  destruct (keypadLoop_terminator (S (List.length more)) text (lastOf 0 times1) w1 t t'
              more moreClock Hu1 Hk1 Hc1 Hlast)
    as (w2 & -> & Hk2 & Hc2 & Hf2 & Hm2 & es2 & Hem2 & Hes2).
  exists w2. split; [done|]. split; [by rewrite Hm2, Hm1|]. split; [by rewrite Hf2, Hf1|].
  split; [done|]. split; [done|].
  exists (entryScreen ++ es1 ++ es2). split.
  - unfold emitted in *. rewrite Hem2, Hem1. simpl. by rewrite <- !app_assoc.
  - apply Forall_app. split; [|by apply Forall_app].
    unfold entryScreen. apply Forall_app. split; [apply displayLines_local|by repeat constructor].
Qed.

Lemma idOf_ofInt n :
  1 ≤ n ≤ 1000 →
  digitsOnly (WString.ofInt n) = true
  ∧ (String.length (WString.ofInt n) ≤ 4)%nat
  ∧ idOf (WString.ofInt n) = n.
Proof.
  intros Hn.
  assert (Hall : forallb (λ k, let s := WString.ofInt (Z.of_nat k) in
              digitsOnly s && (String.length s <=? 4)%nat && (idOf s =? Z.of_nat k))
            (seq 1 1000) = true) by (by vm_compute).
  rewrite forallb_forall in Hall.
  assert (Hin : In (Z.to_nat n) (seq 1 1000)) by (apply in_seq; lia).
  apply Hall in Hin. rewrite Z2Nat.id in Hin by lia. cbv zeta in Hin.
  apply andb_true_iff in Hin as [Hin H3]. apply andb_true_iff in Hin as [H1 H2].
  apply Nat.leb_le in H2. apply Z.eqb_eq in H3. done.
Qed.

(** Typing at most four digits and then the terminator, each key more
    than the debounce time after the one before and with no Home press,
    makes [getKeypadID] return [idOf] of the digits typed: the mode and
    the sensor are as before, exactly the keys and the clock readings
    of the entry were consumed, and nothing was written but the LCD. *)
Theorem getKeypadID_typed w text times more moreClock :
  undisturbed w →
  digitsOnly text = true → (String.length text ≤ 4)%nat →
  keypadIn (input w) = (press <$> (cellOf <$> entryKeys text)) ++ more →
  clockIn (input w) = readings times ++ moreClock →
  List.length times = S (String.length text) →
  spaced 0 times →
  ∃ w', getKeypadID w = Done (idOf text) w'
      ∧ currentMode (dev w') = currentMode (dev w)
      ∧ finger w' = finger w
      ∧ keypadIn (input w') = more
      ∧ clockIn (input w') = moreClock
      ∧ ∃ es, emitted w w' es ∧ Forall isLocal es.
Proof. apply getKeypadID_typed_run. Qed.

Lemma getKeypadID_typed_witness :
  ∃ w', getKeypadID typingDemo = Done (idOf "42") w'
      ∧ currentMode (dev w') = MODE_ENROLL.
Proof.
  destruct (getKeypadID_typed typingDemo "42" [(300, 301); (600, 601); (900, 901)] [] [])
    as (w' & Hrun & Hmode & _).
  - split; [reflexivity|constructor].
  - reflexivity.
  - simpl. lia.
  - reflexivity.
  - reflexivity.
  - reflexivity.
  - vm_compute. done.
  - exists w'. split; [exact Hrun|exact Hmode].
Defined.

(** Round trip of an identifier through the keypad: typing the decimal
    digits of [n], for [n] in 1..1000, and then the terminator makes
    [getKeypadID] return [n] and leaves the mode as it was. *)
Theorem getKeypadID_roundtrip w n times more moreClock :
  1 ≤ n ≤ 1000 →
  undisturbed w →
  keypadIn (input w) = (press <$> (cellOf <$> entryKeys (WString.ofInt n))) ++ more →
  clockIn (input w) = readings times ++ moreClock →
  List.length times = S (String.length (WString.ofInt n)) →
  spaced 0 times →
  result (getKeypadID w) = Some n
  ∧ currentMode (dev (final (getKeypadID w))) = currentMode (dev w).
Proof.
  intros Hn Hu Hpad Hclock Hlen Hsp.
  destruct (idOf_ofInt n Hn) as (Hd & Hl & Hid).
  destruct (getKeypadID_typed_run w (WString.ofInt n) times more moreClock)
    as (w' & -> & Hm & _); try done.
  by rewrite Hid.
Qed.

Lemma getKeypadID_roundtrip_witness :
  result (getKeypadID typingDemo) = Some 42.
Proof.
  refine (proj1 (getKeypadID_roundtrip typingDemo 42 [(300, 301); (600, 601); (900, 901)]
                   [] [] _ _ _ _ _ _)).
  - lia.
  - split; [reflexivity|constructor].
  - reflexivity.
  - reflexivity.
  - reflexivity.
  - vm_compute. done.
Defined.

(** Key bounce.  A pass over the matrix during which every clock
    reading is within the debounce time of the last accepted key
    returns no key and keeps the time of the last key, whatever is held
    down; it changes no global and writes nothing. *)
Theorem scanKeys_debounce cells ks last w :
  Forall (λ t, u32 (u32 t - last) ≤ KEY_DEBOUNCE_MS) (clockIn (input w)) →
  (∀ key t', result (scanKeys cells ks last w) = Some (key, t') →
     key = Ascii.zero ∧ t' = last)
  ∧ dev (final (scanKeys cells ks last w)) = dev w
  ∧ output (final (scanKeys cells ks last w)) = output w.
Proof.
  intros Hall. pose proof (scanKeys_bounce cells ks last w Hall) as H.
  apply wp_outcome in H. destruct H as (Hd & _ & Ho & Hr). done.
Qed.

Lemma scanKeys_debounce_witness :
  dev (final (scanKeys scanOrder (press (1, 1)%nat) 1000 bounceDemo)) = enrolling.
Proof.
  refine (proj1 (proj2 (scanKeys_debounce scanOrder (press (1, 1)%nat) 1000 bounceDemo _))).
  repeat constructor; vm_compute; discriminate.
Defined.

(** * What attendance processing leaves alone *)

Lemma steady_refl d : steady d d.
Proof. done. Qed.

Lemma steady_trans d1 d2 d3 : steady d1 d2 → steady d2 d3 → steady d1 d3.
Proof.
  intros (Hm & Hf) (Hm' & Hf'). split; [congruence|].
  intros b. by rewrite Hf', Hf.
Qed.

Global Instance attends_preorder : PreOrder attends.
Proof.
  split.
  - intros w. split; [apply steady_refl|]. repeat split.
    exists []. split; [apply emitted_refl|constructor].
  - intros w1 w2 w3 (Hs & Hl & Hi & Hk & n1 & He1 & Hn1) (Hs' & Hl' & Hi' & Hk' & n2 & He2 & Hn2).
    split; [by eapply steady_trans|]. repeat split; try congruence.
    exists (n1 ++ n2). split; [by eapply emitted_trans|by apply Forall_app].
Qed.

Lemma attends_emit es : Forall readsFinger es → keeps attends (emit es).
Proof. intros H w. split; [apply steady_refl|]. repeat split. by exists es. Qed.

Lemma attends_modDev f : (∀ d, steady d (f d)) → keeps attends (modDev f).
Proof.
  intros H w. split; [apply H|]. repeat split.
  exists []. split; [by apply emitted_nil|constructor].
Qed.

Lemma attends_same d f i i' o :
  irqIn i' = irqIn i → keypadIn i' = keypadIn i →
  attends (mkWorld d f i o) (mkWorld d f i' o).
Proof.
  intros Hi Hk. split; [apply steady_refl|]. repeat split; try done.
  exists []. split; [by apply emitted_nil|constructor].
Qed.

Lemma attends_next {X} (queue : Inputs → list X) put :
  (∀ l i, irqIn (put l i) = irqIn i ∧ keypadIn (put l i) = keypadIn i) →
  keeps attends (next queue put).
Proof.
  intros Hput w. unfold next. destruct (queue (input w)) as [|x rest]; [reflexivity|].
  simpl. destruct w as [d f i o]. apply attends_same; apply Hput.
Qed.

Lemma attends_millis : keeps attends millis.
Proof.
  unfold millis. apply keeps_bind; [apply _|by apply attends_next|].
  intros t. apply keeps_ret; apply _.
Qed.
Lemma attends_wifiConnected : keeps attends wifiConnected.
Proof. by apply attends_next. Qed.
Lemma attends_rtcNow : keeps attends rtcNow.
Proof. by apply attends_next. Qed.

Lemma attends_sensor c :
  c = GetImage ∨ c = Image2Tz 1 ∨ c = FingerSearch → keeps attends (sensor c).
Proof.
  intros Hc w. unfold sensor, bind, next. destruct (sensorIn (input w)) as [|r rest]; [reflexivity|].
  simpl. split; [apply steady_refl|]. split; [by destruct Hc as [->|[->| ->]]|].
  repeat split. exists [SensorCmd c (status r)]. split; [done|].
  constructor; [exact Hc|constructor].
Qed.

Create HintDb attends discriminated.
Global Hint Resolve attends_millis attends_wifiConnected attends_rtcNow : attends.

Ltac attends_side :=
  lazymatch goal with
  | |- Forall _ _ => repeat constructor; simpl; tauto
  | |- ∀ d, steady _ _ => intros []; split; [reflexivity|by intros []]
  | |- _ ∨ _ => tauto
  | _ => idtac
  end.

Ltac attends_step :=
  lazymatch goal with
  | |- keeps _ (bind _ _) => apply keeps_bind; [apply _ | | intros ?]
  | |- keeps _ (ret _) => apply keeps_ret; apply _
  | |- keeps _ starve => apply keeps_starve; apply _
  | |- keeps _ getDev => apply keeps_getDev; apply _
  | |- keeps _ getFinger => apply keeps_getFinger; apply _
  | |- keeps _ (polling _ _) => apply keeps_polling; intros ?
  | |- keeps _ (emit _) => apply attends_emit; attends_side
  | |- keeps _ (modDev _) => apply attends_modDev; attends_side
  | |- keeps _ (sensor _) => apply attends_sensor; attends_side
  | |- keeps _ (if ?c then _ else _) => destruct c
  | |- keeps _ (match ?x with _ => _ end) => destruct x
  | |- keeps _ _ => first [assumption | solve [auto with attends]]
  end.

Ltac attends_auto := repeat attends_step.

Lemma attends_displayMessage l1 l2 l3 l4 : keeps attends (displayMessage l1 l2 l3 l4).
Proof. unfold displayMessage. apply attends_emit. unfold displayLines. attends_side. Qed.
Lemma attends_ledFlashSuccess : keeps attends ledFlashSuccess.
Proof. unfold ledFlashSuccess. attends_auto. Qed.
Lemma attends_ledFlashFailure : keeps attends ledFlashFailure.
Proof. unfold ledFlashFailure. attends_auto. Qed.
Lemma attends_httpGET url : keeps attends (httpGET url).
Proof. unfold httpGET. attends_auto. by apply attends_next. Qed.
Lemma attends_httpPOST url body : keeps attends (httpPOST url body).
Proof. unfold httpPOST. attends_auto. by apply attends_next. Qed.
Global Hint Resolve attends_displayMessage attends_ledFlashSuccess attends_ledFlashFailure
  attends_httpGET attends_httpPOST : attends.

Lemma attends_getTimestamp : keeps attends getTimestamp.
Proof. unfold getTimestamp. attends_auto. Qed.
Global Hint Resolve attends_getTimestamp : attends.

Lemma attends_displayHomeScreen : keeps attends displayHomeScreen.
Proof. unfold displayHomeScreen. attends_auto. Qed.

Lemma attends_displayModeScreen : keeps attends displayModeScreen.
Proof.
  unfold displayModeScreen. attends_step; [attends_auto|].
  apply attends_emit. eapply Forall_impl; [apply modeScreen_local|]. by intros [].
Qed.
Global Hint Resolve attends_displayHomeScreen attends_displayModeScreen : attends.

Lemma attends_wifiWait n start : keeps attends (wifiWait n start).
Proof. induction n as [|n IH]; simpl; attends_auto. Qed.
Global Hint Resolve attends_wifiWait : attends.

Lemma attends_connectWiFi : keeps attends connectWiFi.
Proof. unfold connectWiFi. attends_auto. Qed.
Global Hint Resolve attends_connectWiFi : attends.

Lemma attends_refreshActiveEvent : keeps attends refreshActiveEvent.
Proof. unfold refreshActiveEvent. attends_auto. Qed.
Global Hint Resolve attends_refreshActiveEvent : attends.

Lemma attends_postAttendance fpID type : keeps attends (postAttendance fpID type).
Proof. unfold postAttendance. attends_auto. Qed.
Global Hint Resolve attends_postAttendance : attends.

Lemma attends_loggedScreen id type : keeps attends (loggedScreen id type).
Proof. unfold loggedScreen. attends_auto. Qed.
Lemma attends_noMatchScreen : keeps attends noMatchScreen.
Proof. unfold noMatchScreen. attends_auto. Qed.
Global Hint Resolve attends_loggedScreen attends_noMatchScreen : attends.

Lemma attends_processTimeIn : keeps attends processTimeIn.
Proof. unfold processTimeIn. attends_auto. Qed.

Lemma attends_processTimeOut : keeps attends processTimeOut.
Proof. unfold processTimeOut. attends_auto. Qed.

(** Time-In and Time-Out processing, the refresh of the active event
    and a log request leave the mode, the four button flags and the
    template library as they were, deliver no interrupt, read no key,
    and send the sensor nothing but [getImage], [image2Tz(1)] and
    [fingerSearch]. *)
Theorem attendance_leaves_templates w :
  attends w (final (processTimeIn w))
  ∧ attends w (final (processTimeOut w))
  ∧ attends w (final (refreshActiveEvent w))
  ∧ ∀ fpID type, attends w (final (postAttendance fpID type w)).
Proof.
  split; [apply attends_processTimeIn|]. split; [apply attends_processTimeOut|].
  split; [apply attends_refreshActiveEvent|]. intros fpID type. apply attends_postAttendance.
Qed.

(** * Log requests *)

Lemma isPost_isLocal n : Forall isLocal n → Forall (λ e, ¬ isPost e) n.
Proof. intros H. by apply quiet_wifi, local_wifi. Qed.

Lemma postAttendance_cases fpID type w :
  wp (postAttendance fpID type) w (postOutcome fpID type w).
Proof.
  unfold postAttendance. repeat wp_step.
  destruct (String.length (currentEventId (dev w)) =? 0)%nat eqn:Hlen.
  { repeat wp_step. simpl. eexists. split; [|left; split; [emitted_tac|done]].
    apply Forall_app. split; [apply local_wifi, displayLines_local|].
    repeat constructor; simpl; tauto. }
  assert (Hid : currentEventId (dev w) ≠ EmptyString).
  { intros H. rewrite H in Hlen. done. }
  wp_step. eapply wp_keeps; [apply wifiOnly_connectWiFi|].
  intros [[]|] w1 (Hd & Hf & _ & _ & _ & Hh & _ & n1 & He1 & Hn1); cbn beta iota.
  2:{ exists n1. split; [done|]. left. done. }
  repeat wp_step.
  destruct (wifiIn (input w1)) as [|up ws] eqn:Hw.
  { exists n1. split; [done|]. left. done. }
  destruct up; simpl; repeat wp_step; simpl.
  2:{ eexists. split; [|left; split; [emitted_tac|by rewrite Hd]].
      apply Forall_app. split; [done|]. apply Forall_app.
      split; [apply local_wifi, displayLines_local|]. repeat constructor; simpl; tauto. }
  eapply wp_mono; [apply getTimestamp_inputs|].
  intros [ts|] w2 (Hd2 & Hf2 & Ho2 & Hh2 & _); cbn beta iota; simpl in *.
  2:{ exists n1. split; [done|]. left. split; [emitted_tac|]. by rewrite Hd2, Hd. }
  repeat wp_step. simpl. rewrite Hh2, Hh.
  destruct (httpIn (input w)) as [|reply hs] eqn:Hhttp; simpl.
  { exists n1. split; [done|]. right. exists ts, []. rewrite Hhttp.
    split; [emitted_tac|]. split; [constructor|]. split; [done|]. by rewrite Hd2, Hd. }
  repeat wp_step.
  destruct ((httpCode reply =? 200) || (httpCode reply =? 201)) eqn:Hcode.
  { repeat wp_step. 
    destruct (decide (type = "Time-In"%string)) as [Hty|Hty]; repeat wp_step; simpl.
    all: exists n1; (split; [done|]); right; exists ts; eexists; rewrite Hhttp, Hcode.
    all: unfold logged; rewrite ?decide_True, ?decide_False by done.
    all: split; [emitted_tac|]; split; [apply isPost_isLocal; by repeat constructor|]; split; [done|].
    all: split; [done|]; rewrite Hd2, Hd; split; [done|]; by repeat constructor. }
  destruct (httpCode reply =? 404) eqn:H404.
  { repeat wp_step. eapply wp_mono; [apply refreshActiveEvent_run|].
    intros r w3 (Hf3 & n3 & Hn3 & Hcase); cbn beta iota; simpl in *.
    apply Z.eqb_eq in H404.
    assert (∃ new3, emitted
              (mkWorld (dev w2) (finger w2) (set_httpIn hs (input w2))
                 ((output w2 ++ [HttpPost logUrl (logBody fpID (currentEventId (dev w)) type ts)])
                  ++ displayLines "--- FAILED ---" "No Active Event" "(Server 404)" "Refreshing..."))
              w3 new3
            ∧ Forall (λ e, ¬ isPost e) new3) as (new3 & He3 & Hs3).
    { destruct Hcase as [[He3 _]|[He3 _]].
      - exists n3. split; [done|]. by apply quiet_wifi.
      - eexists. split; [exact He3|]. apply Forall_app. split; [by apply quiet_wifi|].
        repeat constructor; simpl; tauto. }
    clear Hcase.
    destruct r as [[]|]; repeat wp_step; simpl.
    all: exists n1; (split; [done|]); right; exists ts; eexists; rewrite Hhttp, Hcode.
    - split; [emitted_tac|]. split; [|done].
      apply Forall_app. split; [apply isPost_isLocal, displayLines_local|].
      apply Forall_app. split; [done|]. apply isPost_isLocal. by repeat constructor.
    - split; [emitted_tac|]. split; [|done].
      apply Forall_app. split; [apply isPost_isLocal, displayLines_local|done]. }
  repeat wp_step; simpl. apply Z.eqb_neq in H404.
  exists n1. split; [done|]. right. exists ts. eexists. rewrite Hhttp, Hcode.
  split; [emitted_tac|].
  assert (Hloc : Forall isLocal
            (displayLines "--- FAILED ---" "Server Error"
               ("Code: " +:+ WString.ofInt (httpCode reply)) EmptyString
             ++ [DigitalWrite RED_LED_PIN true; DigitalWrite RED_LED_PIN false])).
  { apply Forall_app. split; [apply displayLines_local|by repeat constructor]. }
  split; [by apply isPost_isLocal|]. split; [done|]. split; [done|].
  intros _. by rewrite Hd2, Hd.
Qed.

Lemma filter_post n1 e n2 :
  Forall (λ e, isLocal e ∨ e = WifiBegin) n1 → isPost e → Forall (λ e, ¬ isPost e) n2 →
  filter isPost (n1 ++ e :: n2) = [e].
Proof.
  intros H1 He H2. rewrite filter_app, filter_cons_True by done.
  by rewrite (filter_none isPost n1 (quiet_wifi _ H1)), (filter_none isPost n2 H2).
Qed.

(** A call of [postAttendance] sends at most one log request.  When it
    sends none the globals are as before and the call does not report
    success.  It reports success only when one request was sent with a
    non-empty event identifier and answered 200 or 201; the identifier
    is then appended to the Time-In list for a Time-In and the globals
    are as before for any other type.  An answer other than 200 and 201
    is never a success, and other than 404 leaves the globals as they
    were. *)
Theorem postAttendance_outcomes fpID type w :
  let r := result (postAttendance fpID type w) in
  let w' := final (postAttendance fpID type w) in
  ∃ new, emitted w w' new
    ∧ (List.length (filter isPost new) ≤ 1)%nat
    ∧ (Forall (λ e, ¬ isPost e) new → dev w' = dev w ∧ r ≠ Some true)
    ∧ (r = Some true →
       ∃ reply hs ts,
         httpIn (input w) = reply :: hs
         ∧ (httpCode reply = 200 ∨ httpCode reply = 201)
         ∧ currentEventId (dev w) ≠ EmptyString
         ∧ filter isPost new
           = [HttpPost logUrl (logBody fpID (currentEventId (dev w)) type ts)]
         ∧ dev w' = logged fpID type (dev w))
    ∧ (∀ reply hs,
         httpIn (input w) = reply :: hs →
         httpCode reply ≠ 200 → httpCode reply ≠ 201 →
         r ≠ Some true ∧ (httpCode reply ≠ 404 → dev w' = dev w)).
Proof.
  cbv zeta. pose proof (postAttendance_cases fpID type w) as H. apply wp_outcome in H.
  destruct H as (n1 & Hn1 & [(Hem & Hd & Hr)|(ts & n2 & Hem & Hn2 & Hid & Hcase)]).
  - exists n1. split; [done|]. split.
    { rewrite (filter_none isPost n1 (quiet_wifi _ Hn1)). simpl. lia. }
    split; [done|]. split; [done|]. intros reply hs _ _ _. done.
  - eexists. split; [exact Hem|]. rewrite filter_post by done. split; [simpl; lia|].
    split.
    { intros Hq. apply Forall_app in Hq as [_ Hq]. apply Forall_cons in Hq as [Hq _].
      by destruct Hq. }
    destruct (httpIn (input w)) as [|reply hs]; [destruct Hcase as [-> ?]|].
    { split; [done|]. by intros ? ? [=]. }
    destruct ((httpCode reply =? 200) || (httpCode reply =? 201)) eqn:Hcode.
    + destruct Hcase as (Hr & Hd & _). split.
      * intros _. exists reply, hs, ts. split; [done|]. split; [|done].
        apply orb_true_iff in Hcode as [H|H]; apply Z.eqb_eq in H; auto.
      * intros ? ? [= <- <-] H200 H201. apply orb_true_iff in Hcode as [H|H];
          apply Z.eqb_eq in H; done.
    + destruct Hcase as [Hr Hd]. split; [done|].
      intros ? ? [= <- <-] _ _. split; [done|]. intros H404. by apply Hd.
Qed.

Lemma postAttendance_outcomes_witness :
  result (postAttendance 42 "Time-Out" acceptedDemo) = Some true
  ∧ studentsTimeIn (dev (final (postAttendance 42 "Time-Out" acceptedDemo))) = [42]
  ∧ result (postAttendance 42 "Time-Out" offlineDemo) = Some false.
Proof.
  destruct (postAttendance_outcomes 42 "Time-Out" acceptedDemo) as (new & _ & _ & _ & H & _).
  split; [reflexivity|]. split; [|reflexivity].
  destruct (H eq_refl) as (reply & hs & ts & _ & _ & _ & _ & ->). reflexivity.
Defined.

(** * Scans that match nothing *)

Lemma scan_idle w r rest :
  sensorIn (input w) = r :: rest → status r ≠ FINGERPRINT_OK →
  processTimeIn w = Done () (afterScan w 1 (finger w) [SensorCmd GetImage (status r)])
  ∧ processTimeOut w = Done () (afterScan w 1 (finger w) [SensorCmd GetImage (status r)]).
Proof.
  intros Hin Hne. apply Z.eqb_neq in Hne.
  unfold processTimeIn, processTimeOut, sensor, bind, next, modFinger, emit, ret, afterScan.
  rewrite Hin. simpl. rewrite Hne. simpl. by destruct (finger w).
Qed.

Lemma scan_unreadable w r1 r2 rest :
  sensorIn (input w) = r1 :: r2 :: rest →
  status r1 = FINGERPRINT_OK → status r2 ≠ FINGERPRINT_OK →
  processTimeIn w = Done () (afterScan w 2 (finger w) (unreadableEffects w (status r2)))
  ∧ processTimeOut w = Done () (afterScan w 2 (finger w) (unreadableEffects w (status r2))).
Proof.
  intros Hin H1 Hne. apply Z.eqb_neq in Hne.
  unfold processTimeIn, processTimeOut, displayModeScreen, sensor, bind, next, modFinger,
    emit, ret, getDev, afterScan, unreadableEffects.
  rewrite Hin. simpl. rewrite H1. simpl. rewrite Hne. simpl.
  rewrite <- !app_assoc. by destruct (finger w).
Qed.

Lemma scan_noMatch w r1 r2 r3 rest :
  sensorIn (input w) = r1 :: r2 :: r3 :: rest →
  status r1 = FINGERPRINT_OK → status r2 = FINGERPRINT_OK → status r3 ≠ FINGERPRINT_OK →
  let f := mkSensor (library (finger w)) (u16 (matched r3)) in
  processTimeIn w = Done () (afterScan w 3 f (noMatchEffects w (status r3)))
  ∧ processTimeOut w = Done () (afterScan w 3 f (noMatchEffects w (status r3))).
Proof.
  intros Hin H1 H2 Hne. apply Z.eqb_neq in Hne.
  unfold processTimeIn, processTimeOut, noMatchScreen, displayModeScreen, displayMessage,
    ledFlashFailure, sensor, bind, next, modFinger, emit, ret, getDev, afterScan,
    noMatchEffects.
  rewrite Hin. simpl. rewrite H1. simpl. rewrite H2. simpl. rewrite Hne. simpl.
  rewrite <- !app_assoc. done.
Qed.

Lemma noMatchEffects_offline w code : Forall (λ e, ¬ isNetwork e) (noMatchEffects w code).
Proof.
  unfold noMatchEffects. repeat (apply Forall_app; split).
  - repeat constructor. simpl. tauto.
  - apply quiet_local, processingBanner_local.
  - repeat constructor; simpl; tauto.
  - apply quiet_local, displayLines_local.
  - repeat constructor; simpl; tauto.
  - apply quiet_local, modeScreen_local.
Qed.

Lemma unreadableEffects_offline w code : Forall (λ e, ¬ isNetwork e) (unreadableEffects w code).
Proof.
  unfold unreadableEffects. repeat (apply Forall_app; split).
  - repeat constructor. simpl. tauto.
  - apply quiet_local, processingBanner_local.
  - repeat constructor; simpl; tauto.
  - apply quiet_local, modeScreen_local.
Qed.

(** Scans that match nothing end the same way in Time-In and Time-Out
    mode, without a change to the globals or the template library and
    without anything on the network.  When [getImage] finds no finger
    the pass ends after that one command.  When the image cannot be
    converted the processing banner is followed by the mode screen.
    When the search finds no template the no-match screen and the red
    LED are shown, then the mode screen. *)
Theorem scan_without_match w r1 rest :
  sensorIn (input w) = r1 :: rest →
  (status r1 ≠ FINGERPRINT_OK →
   processTimeIn w = Done () (afterScan w 1 (finger w) [SensorCmd GetImage (status r1)])
   ∧ processTimeOut w = processTimeIn w)
  ∧ (∀ r2 rest2,
       status r1 = FINGERPRINT_OK → rest = r2 :: rest2 → status r2 ≠ FINGERPRINT_OK →
       processTimeIn w = Done () (afterScan w 2 (finger w) (unreadableEffects w (status r2)))
       ∧ processTimeOut w = processTimeIn w
       ∧ Forall (λ e, ¬ isNetwork e) (unreadableEffects w (status r2)))
  ∧ (∀ r2 r3 rest3,
       status r1 = FINGERPRINT_OK → rest = r2 :: r3 :: rest3 →
       status r2 = FINGERPRINT_OK → status r3 ≠ FINGERPRINT_OK →
       processTimeIn w
       = Done () (afterScan w 3 (mkSensor (library (finger w)) (u16 (matched r3)))
                    (noMatchEffects w (status r3)))
       ∧ processTimeOut w = processTimeIn w
       ∧ Forall (λ e, ¬ isNetwork e) (noMatchEffects w (status r3))).
Proof.
  intros Hin. split; [|split].
  - intros Hne. destruct (scan_idle w r1 rest Hin Hne) as [-> ->]. done.
  - intros r2 rest2 H1 -> Hne. destruct (scan_unreadable w r1 r2 rest2 Hin H1 Hne) as [-> ->].
    split; [done|]. split; [done|]. apply unreadableEffects_offline.
  - intros r2 r3 rest3 H1 -> H2 Hne.
    destruct (scan_noMatch w r1 r2 r3 rest3 Hin H1 H2 Hne) as [-> ->].
    split; [done|]. split; [done|]. apply noMatchEffects_offline.
Qed.

Lemma scan_without_match_witness :
  processTimeIn strangerDemo
  = Done () (afterScan strangerDemo 3 (mkSensor {[42]} 0) (noMatchEffects strangerDemo 9)).
Proof.
  refine (proj1 (proj2 (proj2 (scan_without_match strangerDemo ok [ok; mkReply 9 0] _))
                   ok (mkReply 9 0) [] _ _ _ _)).
  - reflexivity.
  - reflexivity.
  - reflexivity.
  - reflexivity.
  - vm_compute. discriminate.
Defined.

(** * Connecting *)





(** * Refreshing the cache *)

Lemma refreshActiveEvent_online w reply hs ws :
  wifiIn (input w) = true :: true :: ws →
  httpIn (input w) = reply :: hs →
  refreshActiveEvent w
  = Done () (mkWorld (absorbReply reply (dev w)) (finger w)
               (set_httpIn hs (set_wifiIn ws (input w)))
               (output w ++ [HttpGet activeEventUrl])).
Proof.
  intros Hw Hh.
  unfold refreshActiveEvent, connectWiFi, httpGET, wifiConnected, bind, next, emit, getDev,
    absorbReply.
  rewrite Hw. simpl. rewrite Hh. simpl.
  destruct (httpCode reply =? 200).
  { unfold modDev. simpl. destruct (decide _); done. }
  destruct (httpCode reply =? 404); [|done].
  unfold modDev. simpl. by destruct (0 <? _)%nat.
Qed.

Lemma absorbReply_idempotent reply d :
  absorbReply reply (absorbReply reply d) = absorbReply reply d.
Proof.
  unfold absorbReply. destruct (httpCode reply =? 200).
  { destruct (decide (_ ≠ currentEventId d)); simpl; by rewrite decide_False by auto. }
  destruct (httpCode reply =? 404); [|done].
  by destruct (0 <? String.length (currentEventId d))%nat.
Qed.

(** Refreshing twice in a row, with WiFi up and the same answer of the
    server both times, returns and leaves the globals as the first
    refresh left them: the second refresh changes nothing, so it does
    not empty the Time-In list again. *)
Theorem refreshActiveEvent_twice w reply hs ws :
  wifiIn (input w) = true :: true :: true :: true :: ws →
  httpIn (input w) = reply :: reply :: hs →
  dev (final ((refreshActiveEvent;; refreshActiveEvent) w)) = dev (final (refreshActiveEvent w))
  ∧ dev (final (refreshActiveEvent w)) = absorbReply reply (dev w)
  ∧ result ((refreshActiveEvent;; refreshActiveEvent) w) = Some ().
Proof.
  intros Hw Hh. unfold bind.
  rewrite (refreshActiveEvent_online w reply (reply :: hs) (true :: true :: ws) Hw Hh).
  simpl. erewrite (refreshActiveEvent_online _ reply hs ws); [|reflexivity..]. simpl.
  by rewrite absorbReply_idempotent.
Qed.

Lemma refreshActiveEvent_twice_witness :
  dev (final ((refreshActiveEvent;; refreshActiveEvent) twiceDemo))
  = dev (final (refreshActiveEvent twiceDemo)).
Proof.
  refine (proj1 (refreshActiveEvent_twice twiceDemo
            (mkHttpReply 200 ("{" +:+ idMarker +:+ "E2" +:+ WString.q +:+ "}")) [] [] _ _)).
  - reflexivity.
  - reflexivity.
Defined.

(** * Passes of the main loop *)

Lemma enrollFingerprint_mode id w :
  wp (enrollFingerprint id) w (λ r w',
    match r with
    | Some (Cancelled _) => currentMode (dev w') = MODE_HOME
    | _ => currentMode (dev w') = currentMode (dev w)
    end).
Proof.
  unfold enrollFingerprint. cbv zeta. wp_crunch.
  all: await_step res1 w1 Hf1 seg1 He1 Hseg1 Hres1.
  all: await_step res2 w2 Hf2 seg2 He2 Hseg2 Hres2.
  all: await_step res3 w3 Hf3 seg3 He3 Hseg3 Hres3.
  all: simpl in *; destruct_and?; try done; congruence.
Qed.

Lemma loop_dispatch w :
  loop w =
  if homeButtonState (dev (looks 1 w)) then homePass (looks 1 w)
  else if timeInButtonState (dev (looks 2 w)) then timeInPass (looks 2 w)
  else if timeOutButtonState (dev (looks 3 w)) then timeOutPass (looks 3 w)
  else if enrollButtonState (dev (looks 4 w)) then enrollPass (looks 4 w)
  else idlePass (looks 4 w).
Proof.
  assert (Hflag : ∀ {A} flag (k : bool → M A) w0,
            bind (readFlag flag) k w0 = k (flag (dev (final (interrupts w0)))) (final (interrupts w0))).
  { intros A flag k w0. unfold readFlag, bind, getDev, ret.
    unfold interrupts. by destruct (irqIn (input w0)). }
  unfold loop. rewrite Hflag. cbn [looks].
  destruct (homeButtonState _); [done|].
  rewrite Hflag. destruct (timeInButtonState _); [done|].
  rewrite Hflag. destruct (timeOutButtonState _); [done|].
  rewrite Hflag. destruct (enrollButtonState _); done.
Qed.

Lemma looks_frame n w :
  finger (looks n w) = finger w
  ∧ output (looks n w) = output w
  ∧ sensorIn (input (looks n w)) = sensorIn (input w)
  ∧ keypadIn (input (looks n w)) = keypadIn (input w)
  ∧ currentMode (dev (looks n w)) = currentMode (dev w)
  ∧ guard (dev (looks n w)) = guard (dev w)
  ∧ studentsTimeIn (dev (looks n w)) = studentsTimeIn (dev w)
  ∧ cache (dev (looks n w)) = cache (dev w).
Proof.
  induction n as [|n IH]; [done|]. cbn [looks].
  destruct IH as (Hf & Ho & Hs & Hk & Hm & Hg & Hl & Hc).
  destruct (interrupts_frame (looks n w)) as (Hf' & Ho' & Hs' & Hk' & Hm').
  unfold delivered in Hm'. rewrite Hf', Ho', Hs', Hk', Hm'.
  repeat split; try done.
  all: unfold interrupts; destruct (irqIn (input (looks n w))) as [|bs rest]; [done|]; simpl.
  all: destruct (raise_guard bs (dev (looks n w))) as (Hg' & Hl' & Hc' & _); congruence.
Qed.

Lemma absorbReply_steady reply d : steady d (absorbReply reply d).
Proof.
  unfold absorbReply, steady.
  destruct (_ =? 200); [destruct (decide _); simpl; repeat split; by intros []|].
  destruct (_ =? 404); [destruct (_ <? _)%nat; simpl; repeat split; by intros []|done].
Qed.

Lemma sensorLog_wifi n : Forall (λ e, isLocal e ∨ e = WifiBegin) n → sensorLog n = [].
Proof.
  induction 1 as [|e es He _ IH]; [done|].
  unfold sensorLog in *. destruct He as [He| ->]; [|exact IH].
  destruct e; simpl in He; try done; exact IH.
Qed.

Lemma set_currentMode_flags m x b : flagOf b (set_currentMode m x) = flagOf b x.
Proof. by destruct b. Qed.

Lemma modePass_run (clear : Device → Device) m b w0 :
  (∀ d, flagOf b (clear d) = false
        ∧ (∀ b', b' ≠ b → flagOf b' (clear d) = flagOf b' d)
        ∧ guard (clear d) = guard d ∧ studentsTimeIn (clear d) = studentsTimeIn d) →
  wp (modDev clear;; modDev (set_currentMode m);; refreshActiveEvent;; displayModeScreen) w0
    (modeSwitched m b w0).
Proof.
  intros Hclear. repeat wp_step.
  set (d0 := set_currentMode m (clear (dev w0))).
  assert (Hd0 : currentMode d0 = m ∧ flagOf b d0 = false
            ∧ (∀ b', b' ≠ b → flagOf b' d0 = flagOf b' (dev w0))
            ∧ guard d0 = guard (dev w0) ∧ studentsTimeIn d0 = studentsTimeIn (dev w0)).
  { destruct (Hclear (dev w0)) as (H1 & H2 & H3 & H4). subst d0.
    split; [done|]. rewrite set_currentMode_flags. split; [done|]. split.
    - intros b' Hb'. rewrite set_currentMode_flags. by apply H2.
    - split; [exact H3|exact H4]. }
  destruct Hd0 as (Hm0 & Hb0 & Ho0 & Hg0 & Hl0).
  eapply wp_mono; [apply refreshActiveEvent_run|].
  intros r w1 (Hf1 & n1 & Hn1 & Hcase); cbn beta iota; simpl in *.
  assert (Hdev : steady d0 (dev w1) ∧ guard (dev w1) = guard d0
            ∧ (studentsTimeIn (dev w1) = studentsTimeIn d0 ∨ studentsTimeIn (dev w1) = [])).
  { destruct Hcase as [[_ ->]|[_ Hd]]; [by repeat split; auto|].
    destruct (httpIn (input w0)) as [|reply hs]; [destruct Hd as [_ ->]; by repeat split; auto|].
    destruct Hd as (_ & -> & _). split; [apply absorbReply_steady|].
    destruct (absorbReply_frame reply d0) as (Hg & _ & Hl). done. }
  destruct Hdev as ((Hm1 & Hfl1) & Hg1 & Hl1).
  assert (∃ new1, emitted w0 w1 new1 ∧ Forall (λ e, ¬ isPost e) new1
            ∧ (List.length (filter isGet new1) ≤ 1)%nat ∧ sensorLog new1 = [])
    as (new1 & Hem1 & Hp1 & Hc1 & Hs1).
  { pose proof (filter_none isGet n1 (isGet_local _ Hn1)) as Hfn.
    destruct Hcase as [[He _]|[He _]].
    - exists n1. split; [done|]. split; [by apply isPost_local|]. rewrite Hfn.
      split; [simpl; lia|by apply sensorLog_wifi].
    - eexists. split; [exact He|]. split.
      + apply Forall_app. split; [by apply isPost_local|]. repeat constructor. simpl. tauto.
      + rewrite filter_app, Hfn, sensorLog_app, (sensorLog_wifi _ Hn1). simpl. split; [lia|done]. }
  assert (Hfinal : ∀ d', d' = dev w1 →
            currentMode d' = m ∧ flagOf b d' = false
            ∧ (∀ b', b' ≠ b → flagOf b' d' = flagOf b' (dev w0))
            ∧ guard d' = guard (dev w0)
            ∧ (studentsTimeIn d' = studentsTimeIn (dev w0) ∨ studentsTimeIn d' = [])).
  { intros d' ->. split; [by rewrite Hm1|]. split; [by rewrite Hfl1|].
    split; [intros b' Hb'; by rewrite Hfl1, Ho0|]. split; [by rewrite Hg1|].
    rewrite <- Hl0. done. }
  destruct r as [[]|]; unfold displayModeScreen; repeat wp_step; unfold modeSwitched; simpl.
  - destruct (Hfinal _ eq_refl) as (H1 & H2 & H3 & H4 & H5).
    split; [done|]. split; [done|]. split; [done|]. split; [done|]. split; [done|].
    split; [done|]. exists (new1 ++ modeScreen (dev w1)). split; [emitted_tac|].
    split; [apply Forall_app; split; [done|apply isPost_isLocal, modeScreen_local]|].
    rewrite filter_app, sensorLog_app, Hs1, (sensorLog_local _ (modeScreen_local _)).
    rewrite (filter_none isGet (modeScreen (dev w1))), app_nil_r.
    + split; [done|]. split; [done|]. intros _. by exists new1.
    + eapply Forall_impl; [apply modeScreen_local|]. intros []; simpl; tauto.
  - destruct (Hfinal _ eq_refl) as (H1 & H2 & H3 & H4 & H5).
    split; [done|]. split; [done|]. split; [done|]. split; [done|]. split; [done|].
    split; [done|]. exists new1. split; [done|]. split; [done|]. split; [done|].
    split; [done|]. done.
Qed.

(** A pass of the main loop that finds the Time-In flag set, or else
    the Time-Out flag, with Home not pressed: the mode is the one of
    the button, its flag is cleared and the other flags are as
    delivered, the guard and the sensor are as before, the Time-In list
    is kept or emptied, at most one active-event query and no log
    request were sent, no sensor command was sent, and a pass that
    returns has drawn the mode screen of the refreshed cache last. *)
Theorem mode_button_pass w :
  homeButtonState (dev (looks 1 w)) = false →
  (timeInButtonState (dev (looks 2 w)) = true →
   modeSwitched MODE_TIME_IN BtnTimeIn (looks 2 w) (result (loop w)) (final (loop w)))
  ∧ (timeInButtonState (dev (looks 2 w)) = false →
     timeOutButtonState (dev (looks 3 w)) = true →
     modeSwitched MODE_TIME_OUT BtnTimeOut (looks 3 w) (result (loop w)) (final (loop w))).
Proof.
  intros Hhome. rewrite loop_dispatch, Hhome. split.
  - intros ->. apply wp_outcome. apply modePass_run.
    intros d. split; [done|]. split; [by intros []|done].
  - intros -> ->. apply wp_outcome. apply modePass_run.
    intros d. split; [done|]. split; [by intros []|done].
Qed.

Lemma mode_button_pass_witness :
  modeSwitched MODE_TIME_IN BtnTimeIn (looks 2 timeInPressDemo)
    (result (loop timeInPressDemo)) (final (loop timeInPressDemo)).
Proof.
  apply (proj1 (mode_button_pass timeInPressDemo eq_refl)). reflexivity.
Defined.

Lemma homePass_run w0 :
  wp homePass w0 (λ _ w',
    dev w' = set_currentMode MODE_HOME (set_homeButtonState false (dev w0))
    ∧ finger w' = finger w0
    ∧ ∃ new, emitted w0 w' new ∧ Forall isLocal new).
Proof.
  unfold homePass. repeat wp_step. unfold displayHomeScreen. wp_step.
  eapply wp_mono; [apply getTimestamp_inputs|].
  intros [dt|] w1 (Hd1 & Hf1 & Ho1 & _); simpl in *; repeat wp_step; simpl.
  - split; [done|]. split; [congruence|]. eexists. split; [|apply displayLines_local].
    unfold emitted. simpl. by rewrite Ho1.
  - split; [done|]. split; [congruence|]. exists []. split; [|constructor].
    unfold emitted. by rewrite Ho1, app_nil_r.
Qed.

(** Home comes first.  A pass of the main loop that finds the Home flag
    set clears it and sets the mode to Home, whatever the other flags:
    these stay as they were delivered, for the next pass; the sensor is
    as before and nothing went to the sensor or the network. *)
Theorem home_button_first w :
  homeButtonState (dev (looks 1 w)) = true →
  let w' := final (loop w) in
  dev w' = set_currentMode MODE_HOME (set_homeButtonState false (dev (looks 1 w)))
  ∧ (∀ b, b ≠ BtnHome → flagOf b (dev w') = flagOf b (dev (looks 1 w)))
  ∧ finger w' = finger w
  ∧ ∃ new, emitted w w' new ∧ Forall isLocal new.
Proof.
  intros Hhome. cbv zeta. rewrite loop_dispatch, Hhome.
  destruct (looks_frame 1 w) as (Hf & Ho & _).
  pose proof (homePass_run (looks 1 w)) as Hrun.
  apply wp_outcome in Hrun. destruct Hrun as (Hd & Hfin & new & Hem & Hnew).
  split; [done|]. split; [intros b Hb; rewrite Hd; by destruct b|].
  split; [congruence|]. exists new. split; [|done]. unfold emitted in *. by rewrite Hem, Ho.
Qed.

Lemma home_button_first_witness :
  currentMode (dev (final (loop twoButtonsDemo))) = MODE_HOME
  ∧ timeInButtonState (dev (final (loop twoButtonsDemo))) = true.
Proof.
  destruct (home_button_first twoButtonsDemo eq_refl) as (Hd & _).
  rewrite Hd. split; reflexivity.
Defined.

Lemma calm_enrollPass : keeps calm enrollPass.
Proof. unfold enrollPass. calm_auto. Qed.

Lemma enrollPass_run w0 :
  wp enrollPass w0 (λ r w', r = Some () → currentMode (dev w') = MODE_HOME).
Proof.
  unfold enrollPass. repeat wp_step.
  eapply wp_mono; [apply getKeypadID_run|].
  intros [id|] w1 [_ Hr]; cbn beta iota; [|done]. repeat wp_step.
  assert (Hhome : ∀ w2, wp (d ← getDev;
              if decide (currentMode d = MODE_ENROLL) then
                modDev (set_currentMode MODE_HOME);; displayHomeScreen
              else ret ()) w2
            (λ r w', currentMode (dev w2) ≠ MODE_ENROLL → currentMode (dev w2) = MODE_HOME →
                     r = Some () → currentMode (dev w') = MODE_HOME)
          ∧ (currentMode (dev w2) = MODE_ENROLL →
             wp (d ← getDev;
              if decide (currentMode d = MODE_ENROLL) then
                modDev (set_currentMode MODE_HOME);; displayHomeScreen
              else ret ()) w2 (λ r w', r = Some () → currentMode (dev w') = MODE_HOME))).
  { intros w2. split.
    - repeat wp_step. destruct (decide _) as [He|He]; repeat wp_step; [|done].
      eapply wp_keeps; [apply attends_displayHomeScreen|]. intros r w3 ((Hm & _) & _). done.
    - intros He. repeat wp_step. rewrite decide_True by done. repeat wp_step.
      eapply wp_keeps; [apply attends_displayHomeScreen|].
      intros r w3 ((Hm & _) & _) _. by rewrite Hm. }
  destruct (decide (currentMode (dev w1) = MODE_ENROLL)) as [He|He].
  - destruct (0 <? id).
    + repeat wp_step. eapply wp_mono; [apply enrollFingerprint_mode|].
      intros [exit|] w2 Hmode; cbn beta iota; [|done]. repeat wp_step.
      destruct exit; try (apply (Hhome w2); congruence).
      repeat wp_step. rewrite decide_False by (by rewrite Hmode). by apply wp_ret.
    + repeat wp_step. apply (Hhome _). done.
  - repeat wp_step. rewrite decide_False by done. apply wp_ret. intros _.
    destruct Hr as [(_ & Hm & _)|[Hm _]]; [done|]. simpl in Hm. done.
Qed.

(** A pass of the main loop that handles the Enroll button and returns
    ends in Home mode, whatever was typed and however the enrollment
    went; it leaves the guard as it was and sends no log request. *)
Theorem enroll_pass_returns_home w :
  homeButtonState (dev (looks 1 w)) = false →
  timeInButtonState (dev (looks 2 w)) = false →
  timeOutButtonState (dev (looks 3 w)) = false →
  enrollButtonState (dev (looks 4 w)) = true →
  (result (loop w) = Some () → currentMode (dev (final (loop w))) = MODE_HOME)
  ∧ guard (dev (final (loop w))) = guard (dev w)
  ∧ ∃ new, emitted w (final (loop w)) new ∧ Forall (λ e, ¬ isPost e) new.
Proof.
  intros H1 H2 H3 H4. rewrite loop_dispatch, H1, H2, H3, H4.
  destruct (looks_frame 4 w) as (_ & Ho & _ & _ & _ & Hg & _).
  split; [|split].
  - pose proof (enrollPass_run (looks 4 w)) as H. by apply wp_outcome in H.
  - destruct (calm_enrollPass (looks 4 w)) as (Hg' & _). by rewrite Hg'.
  - destruct (calm_enrollPass (looks 4 w)) as (_ & _ & new & Hem & Hnew).
    exists new. split; [|done]. unfold emitted in *. by rewrite Hem, Ho.
Qed.

Lemma enroll_pass_returns_home_witness :
  currentMode (dev (final (loop enrollPressDemo))) = MODE_HOME.
Proof.
  apply (proj1 (enroll_pass_returns_home enrollPressDemo eq_refl eq_refl eq_refl eq_refl)).
  reflexivity.
Defined.

Lemma attends_idlePass : keeps attends idlePass.
Proof.
  unfold idlePass. attends_step; [attends_auto|].
  destruct (currentMode _);
    [attends_auto|apply attends_processTimeIn|apply attends_processTimeOut|attends_auto].
Qed.

Lemma idlePass_home w0 :
  currentMode (dev w0) = MODE_HOME →
  wp idlePass w0 (λ _ w',
    finger w' = finger w0
    ∧ sensorIn (input w') = sensorIn (input w0)
    ∧ httpIn (input w') = httpIn (input w0)
    ∧ guard (dev w') = guard (dev w0) ∧ cache (dev w') = cache (dev w0)
    ∧ studentsTimeIn (dev w') = studentsTimeIn (dev w0)
    ∧ ∃ new, emitted w0 w' new ∧ Forall isLocal new
        ∧ (∀ t ts, clockIn (input w0) = t :: ts →
             u32 (u32 t - lastHomeUpdate (dev w0)) ≤ 1000 → new = [] ∧ dev w' = dev w0)).
Proof.
  intros Hmode. unfold idlePass. repeat wp_step. rewrite Hmode.
  wp_step. apply wp_millis. destruct (clockIn (input w0)) as [|t ts] eqn:Hc.
  { repeat split. exists []. split; [apply emitted_refl|]. split; [constructor|done]. }
  destruct (1000 <? u32 (u32 t - lastHomeUpdate (dev w0))) eqn:Hlate.
  - wp_step. apply wp_millis. simpl. destruct ts as [|t' ts'].
    { repeat split. exists []. split; [by apply emitted_nil|]. split; [constructor|].
      intros ? ? [= <- <-] Hle. apply Z.ltb_lt in Hlate. lia. }
    repeat wp_step. eapply wp_mono; [apply getTimestamp_inputs|].
    intros [dt|] w1 (Hd1 & Hf1 & Ho1 & Hh1 & Hs1); simpl in *; repeat wp_step; simpl.
    + rewrite Hd1. repeat split; try done.
      eexists. split; [unfold emitted; simpl; by rewrite Ho1|]. split; [by repeat constructor|].
      intros ? ? [= <- <-] Hle. apply Z.ltb_lt in Hlate. lia.
    + rewrite Hd1. repeat split; try done.
      exists []. split; [unfold emitted; simpl; by rewrite Ho1, app_nil_r|].
      split; [constructor|]. intros ? ? [= <- <-] Hle. apply Z.ltb_lt in Hlate. lia.
  - apply wp_ret. repeat split. exists []. split; [by apply emitted_nil|].
    split; [constructor|]. intros ? ? [= <- <-] _. done.
Qed.

(** A pass of the main loop that finds no flag set leaves the mode, the
    flags as they were delivered and the template library as they
    were.  In Enroll mode it does nothing more than look at the flags.
    In Home mode it reads no sensor answer, leaves the guard, the cache
    and the Time-In list as they were and sends nothing to the sensor
    or the network, and it writes nothing at all when no more than
    1000 ms have passed since it last updated the clock on the
    screen. *)
Theorem idle_pass w :
  homeButtonState (dev (looks 1 w)) = false →
  timeInButtonState (dev (looks 2 w)) = false →
  timeOutButtonState (dev (looks 3 w)) = false →
  enrollButtonState (dev (looks 4 w)) = false →
  let w' := final (loop w) in
  attends (looks 4 w) w'
  ∧ (currentMode (dev w) = MODE_ENROLL → loop w = Done () (looks 4 w))
  ∧ (currentMode (dev w) = MODE_HOME →
     finger w' = finger w
     ∧ sensorIn (input w') = sensorIn (input w)
     ∧ guard (dev w') = guard (dev w) ∧ cache (dev w') = cache (dev w)
     ∧ studentsTimeIn (dev w') = studentsTimeIn (dev w)
     ∧ ∃ new, emitted w w' new ∧ Forall isLocal new
         ∧ (∀ t ts, clockIn (input (looks 4 w)) = t :: ts →
              u32 (u32 t - lastHomeUpdate (dev (looks 4 w))) ≤ 1000 → new = [])).
Proof.
  intros H1 H2 H3 H4. cbv zeta. rewrite loop_dispatch, H1, H2, H3, H4.
  destruct (looks_frame 4 w) as (Hf & Ho & Hs & _ & Hm & Hg & Hl & Hc).
  split; [apply attends_idlePass|]. split.
  - intros He. unfold idlePass, bind, getDev. by rewrite Hm, He.
  - intros Hh. pose proof (idlePass_home (looks 4 w)) as H. rewrite Hm in H.
    specialize (H Hh). apply wp_outcome in H.
    destruct H as (Hf' & Hs' & _ & Hg' & Hc' & Hl' & new & Hem & Hloc & Hquiet).
    split; [congruence|]. split; [congruence|]. split; [congruence|]. split; [congruence|].
    split; [congruence|]. exists new. split; [unfold emitted in *; by rewrite Hem, Ho|].
    split; [done|]. intros t ts Hclock Hle. by destruct (Hquiet t ts Hclock Hle).
Qed.

Lemma idle_pass_witness :
  sensorIn (input (final (loop idleDemo))) = [ok]
  ∧ currentMode (dev (final (loop idleDemo))) = MODE_HOME.
Proof.
  destruct (idle_pass idleDemo eq_refl eq_refl eq_refl eq_refl) as (Ha & _ & Hh).
  destruct (Hh eq_refl) as (_ & Hs & _). split; [exact Hs|].
  destruct Ha as ((Hm & _) & _). exact Hm.
Defined.

Lemma loop_out_of_enroll w :
  currentMode (dev w) ≠ MODE_ENROLL →
  result (loop w) = Some () →
  currentMode (dev (final (loop w))) ≠ MODE_ENROLL.
Proof.
  intros Hne. rewrite loop_dispatch.
  destruct (homeButtonState (dev (looks 1 w))).
  { intros _. pose proof (homePass_run (looks 1 w)) as H. apply wp_outcome in H.
    destruct H as (-> & _). done. }
  destruct (timeInButtonState (dev (looks 2 w))).
  { intros _. assert (H : modeSwitched MODE_TIME_IN BtnTimeIn (looks 2 w)
                            (result (timeInPass (looks 2 w))) (final (timeInPass (looks 2 w)))).
    { apply wp_outcome. apply modePass_run. intros d. split; [done|].
      split; [by intros []|done]. }
    destruct H as (-> & _). done. }
  destruct (timeOutButtonState (dev (looks 3 w))).
  { intros _. assert (H : modeSwitched MODE_TIME_OUT BtnTimeOut (looks 3 w)
                            (result (timeOutPass (looks 3 w))) (final (timeOutPass (looks 3 w)))).
    { apply wp_outcome. apply modePass_run. intros d. split; [done|].
      split; [by intros []|done]. }
    destruct H as (-> & _). done. }
  destruct (enrollButtonState (dev (looks 4 w))).
  { intros Hr. pose proof (enrollPass_run (looks 4 w)) as H. apply wp_outcome in H.
    rewrite (H Hr). done. }
  intros _. destruct (attends_idlePass (looks 4 w)) as ((Hm & _) & _).
  destruct (looks_frame 4 w) as (_ & _ & _ & _ & Hm4 & _). rewrite Hm, Hm4. done.
Qed.

Lemma passes_S n w :
  passes (S n) w =
  match loop w with
  | Done _ w1 => passes n w1
  | Starved w1 => Starved w1
  end.
Proof. done. Qed.

(** The device is never left in Enroll mode: from a mode other than
    Enroll, any number of passes of the main loop that return end in a
    mode other than Enroll. *)
Theorem passes_out_of_enroll n w :
  currentMode (dev w) ≠ MODE_ENROLL →
  result (passes n w) = Some () →
  currentMode (dev (final (passes n w))) ≠ MODE_ENROLL.
Proof.
  revert w. induction n as [|n IH]; intros w Hne; [done|].
  rewrite passes_S. pose proof (loop_out_of_enroll w Hne) as Hloop.
  destruct (loop w) as [[] w1|w1]; [|done]. intros Hr. apply IH; [|done]. by apply Hloop.
Qed.

Lemma passes_out_of_enroll_witness :
  currentMode (dev (final (passes 1 enrollPressDemo))) ≠ MODE_ENROLL.
Proof.
  apply (passes_out_of_enroll 1 enrollPressDemo).
  - vm_compute. discriminate.
  - reflexivity.
Defined.

(** * The answer of the server *)

Lemma idMarker_chars :
  idMarker
  = String WString.dquote (String "_" (String "i" (String "d"
      (String WString.dquote (String ":" (String WString.dquote EmptyString)))))).
Proof. reflexivity. Qed.

Lemma nameMarker_chars :
  nameMarker
  = String WString.dquote (String "n" (String "a" (String "m" (String "e"
      (String WString.dquote (String ":" (String WString.dquote EmptyString))))))).
Proof. reflexivity. Qed.

(** Decide a prefix test on the characters at hand. *)
Ltac prefix_false :=
  cbn [String.prefix];
  repeat match goal with
         | |- context [ascii_dec ?a ?b] =>
             let Heq := fresh "Heq" in
             destruct (ascii_dec a b) as [Heq|_];
             [first [by vm_compute in Heq | idtac]|];
             cbn [String.prefix]
         end;
  try done.

Lemma name_not_in_id id rest :
  quoteFree id = true →
  String.prefix
    (String "n" (String "a" (String "m" (String "e"
       (String WString.dquote (String ":" (String WString.dquote EmptyString)))))))
    (id +:+ String WString.dquote (String "," rest)) = false.
Proof.
  intros Hq.
  destruct id as [|c1 [|c2 [|c3 [|c4 [|c5 id]]]]];
    rewrite ?append_cons, ?append_nil; prefix_false.
  simpl in Hq. rewrite !andb_true_iff in Hq. destruct Hq as (_ & _ & _ & _ & Hc & _).
  subst c5. by vm_compute in Hc.
Qed.

Lemma find_idMarker id name rest :
  WString.find idMarker (eventPayload id name rest) = Some 1%nat.
Proof.
  unfold eventPayload. rewrite (append_cons "{"), append_nil.
  rewrite find_skip by (rewrite idMarker_chars; prefix_false).
  by rewrite find_here.
Qed.

Lemma find_nameMarker id name rest :
  quoteFree id = true →
  WString.find nameMarker (eventPayload id name rest) = Some (String.length id + 10)%nat.
Proof.
  intros Hq. unfold eventPayload.
  rewrite (append_cons "{"), append_nil.
  rewrite idMarker_chars at 1. rewrite !append_cons, append_nil.
  unfold WString.q at 1. rewrite !append_cons, !append_nil.
  rewrite (nameMarker_chars) at 1.
  do 7 (rewrite find_skip by prefix_false).
  rewrite find_skip by (cbn [String.prefix]; destruct (ascii_dec _ _); [|done];
                        by apply name_not_in_id).
  rewrite find_past by done.
  do 2 (rewrite find_skip by prefix_false).
  rewrite <- nameMarker_chars, find_here. simpl. f_equal. lia.
Qed.

Lemma eventPayload_fields id name rest :
  quoteFree id = true → quoteFree name = true →
  fieldAfter idMarker 7 (eventPayload id name rest) = id
  ∧ fieldAfter nameMarker 8 (eventPayload id name rest) = name.
Proof.
  intros Hid Hname. split.
  - change 7 with (Z.of_nat (String.length idMarker)).
    apply (fieldAfter_found idMarker "{" id); [|done].
    apply find_idMarker.
  - change 8 with (Z.of_nat (String.length nameMarker)).
    set (pre := "{" +:+ idMarker +:+ id +:+ WString.q +:+ ",").
    assert (Hp : eventPayload id name rest
                 = pre +:+ nameMarker +:+ name +:+ WString.q +:+ rest).
    { subst pre. unfold eventPayload. by rewrite !append_assoc. }
    rewrite Hp. apply fieldAfter_found; [|done]. rewrite <- Hp, find_nameMarker by done.
    f_equal. subst pre. rewrite !append_length. simpl. lia.
Qed.

(** Round trip of the active event through the JSON of the server.
    With WiFi up, when the answer is a 200 whose payload starts with
    the identifier field followed by the name field, and neither text
    holds a double quote, the refresh returns and caches exactly that
    identifier and that name;
    the Time-In list is kept if the identifier is the cached one and
    emptied otherwise; the guard and the mode are as before. *)
Theorem refreshActiveEvent_decodes w id name rest hs ws :
  quoteFree id = true → quoteFree name = true →
  wifiIn (input w) = true :: true :: ws →
  httpIn (input w) = mkHttpReply 200 (eventPayload id name rest) :: hs →
  ∃ w', refreshActiveEvent w = Done () w'
      ∧ cache (dev w') = (id, name)
      ∧ studentsTimeIn (dev w')
        = (if decide (id = currentEventId (dev w)) then studentsTimeIn (dev w) else [])
      ∧ guard (dev w') = guard (dev w)
      ∧ currentMode (dev w') = currentMode (dev w).
Proof.
  intros Hid Hname Hw Hh. destruct (eventPayload_fields id name rest Hid Hname) as [Hi Hn].
  rewrite (refreshActiveEvent_online w _ hs ws Hw Hh). eexists. split; [done|].
  unfold absorbReply. simpl. rewrite Hi, Hn.
  destruct (decide (id ≠ currentEventId (dev w))) as [Hne|Heq].
  - by rewrite decide_False.
  - apply dec_stable in Heq. by rewrite decide_True.
Qed.

Lemma refreshActiveEvent_decodes_witness :
  ∃ w', refreshActiveEvent eventDemo = Done () w'
      ∧ cache (dev w') = ("64f0", "Assembly")%string.
Proof.
  destruct (refreshActiveEvent_decodes eventDemo "64f0" "Assembly" "}" [] [])
    as (w' & Hrun & Hcache & _).
  - reflexivity.
  - reflexivity.
  - reflexivity.
  - reflexivity.
  - exists w'. split; [exact Hrun|exact Hcache].
Defined.

(** * Start-up *)

Lemma scanFrom_first verify rates :
  (scanFrom verify rates 0 = 0 ∧ Forall (λ br, br ≠ 0 → verify br = false) rates)
  ∨ ∃ pre br post, rates = pre ++ br :: post ∧ verify br = true
      ∧ Forall (λ x, verify x = false) pre ∧ scanFrom verify rates 0 = br.
Proof.
  induction rates as [|br rates IH]; simpl; [left; by split|].
  destruct (verify br) eqn:Hv.
  - right. exists [], br, rates. by repeat split.
  - destruct IH as [[H0 Hall]|(pre & b & post & -> & Hb & Hpre & Hres)].
    + left. split; [done|]. constructor; [done|done].
    + right. exists (br :: pre), b, post. repeat split; try done. by constructor.
Qed.

Lemma calm_setup rtcBegin verify : keeps calm (setup rtcBegin verify).
Proof. unfold setup. cbv zeta. calm_auto. Qed.

Lemma attends_setup rtcBegin verify : keeps attends (setup rtcBegin verify).
Proof. unfold setup. cbv zeta. attends_auto. Qed.

Lemma filter_isGet_displayLines l1 l2 l3 l4 : filter isGet (displayLines l1 l2 l3 l4) = [].
Proof. done. Qed.

Lemma bootTail_run w0 :
  wp (connectWiFi;; refreshActiveEvent;; displayHomeScreen) w0 (λ r w',
    finger w' = finger w0
    ∧ ∃ new, emitted w0 w' new
        ∧ Forall (λ e, ¬ isPost e) new
        ∧ sensorLog new = []
        ∧ (List.length (filter isGet new) ≤ 1)%nat
        ∧ (r = Some () → ∃ pre date time, new = pre ++ homeScreen date time)).
Proof.
  wp_step. eapply wp_keeps; [apply wifiOnly_connectWiFi|].
  intros r0 w1 (Hd1 & Hf1 & _ & _ & _ & Hh1 & _ & n1 & He1 & Hn1); cbn beta iota.
  pose proof (filter_none isGet n1 (isGet_local _ Hn1)) as Hg1.
  pose proof (sensorLog_wifi _ Hn1) as Hs1.
  pose proof (isPost_local _ Hn1) as Hp1.
  destruct r0 as [[]|].
  2:{ split; [done|]. exists n1. split; [done|]. split; [done|]. rewrite Hg1. split; [done|].
      split; [simpl; lia|done]. }
  wp_step. eapply wp_mono; [apply refreshActiveEvent_run|].
  intros r1 w2 (Hf2 & n2 & Hn2 & Hcase); cbn beta iota.
  assert (∃ new2, emitted w1 w2 new2 ∧ Forall (λ e, ¬ isPost e) new2 ∧ sensorLog new2 = []
            ∧ (List.length (filter isGet new2) ≤ 1)%nat) as (new2 & He2 & Hp2 & Hs2 & Hg2).
  { pose proof (filter_none isGet n2 (isGet_local _ Hn2)) as Hfn.
    destruct Hcase as [[He _]|[He _]].
    - exists n2. split; [done|]. split; [by apply isPost_local|]. rewrite Hfn.
      split; [by apply sensorLog_wifi|simpl; lia].
    - eexists. split; [exact He|]. split.
      + apply Forall_app. split; [by apply isPost_local|]. repeat constructor. simpl. tauto.
      + rewrite filter_app, Hfn, sensorLog_app, (sensorLog_wifi _ Hn2). simpl. split; [done|lia]. }
  clear Hcase.
  assert (Hcount : (List.length (filter isGet (n1 ++ new2)) ≤ 1)%nat).
  { by rewrite filter_app, Hg1. }
  assert (Hlog : sensorLog (n1 ++ new2) = []) by (by rewrite sensorLog_app, Hs1, Hs2).
  assert (Hem : emitted w0 w2 (n1 ++ new2)) by (by eapply emitted_trans).
  assert (Hpost : Forall (λ e, ¬ isPost e) (n1 ++ new2)) by (by apply Forall_app).
  destruct r1 as [[]|].
  2:{ split; [congruence|]. exists (n1 ++ new2). done. }
  unfold displayHomeScreen. wp_step. eapply wp_mono; [apply getTimestamp_inputs|].
  intros [dt|] w3 (Hd3 & Hf3 & Ho3 & _); cbn beta iota; repeat wp_step; simpl.
  - split; [congruence|]. eexists. split.
    { unfold emitted in *. simpl. rewrite Ho3, Hem. by rewrite <- app_assoc. }
    split; [apply Forall_app; split; [done|apply isPost_isLocal, displayLines_local]|].
    rewrite sensorLog_app, Hlog, filter_app, sensorLog_displayLines, filter_isGet_displayLines.
    rewrite !app_nil_r. split; [done|]. split; [done|]. intros _. eexists _, _, _. reflexivity.
  - split; [congruence|]. exists (n1 ++ new2). split; [|done].
    unfold emitted in *. by rewrite Ho3.
Qed.

(** [setup] first writes both LEDs off and the three status lines, the
    sensor line saying OK exactly when a baud rate was found, and then
    goes on whatever the RTC and the sensor answered: it leaves the
    mode, the flags, the guard and the templates as they were, and
    after the status lines sends no log request, no sensor command and
    at most one active-event query; when it returns it has drawn the
    home screen last.  The baud rate found is the first of 57600,
    115200 and 9600 at which the sensor answers, and 0 when it
    answers at none. *)
Theorem setup_boots rtcBegin verify w :
  let r := result (setup rtcBegin verify w) in
  let w' := final (setup rtcBegin verify w) in
  finger w' = finger w
  ∧ steady (dev w) (dev w')
  ∧ guard (dev w') = guard (dev w)
  ∧ (∃ rest, emitted w w' (bootLines rtcBegin (scanBaudRates verify) ++ rest)
       ∧ Forall (λ e, ¬ isPost e) rest
       ∧ sensorLog rest = []
       ∧ (List.length (filter isGet rest) ≤ 1)%nat
       ∧ (r = Some () → ∃ pre date time, rest = pre ++ homeScreen date time))
  ∧ ((scanBaudRates verify = 0 ∧ Forall (λ br, verify br = false) baudRates)
     ∨ ∃ pre post, baudRates = pre ++ scanBaudRates verify :: post
         ∧ verify (scanBaudRates verify) = true
         ∧ Forall (λ x, verify x = false) pre).
Proof.
  cbv zeta.
  destruct (attends_setup rtcBegin verify w) as (Hst & _).
  destruct (calm_setup rtcBegin verify w) as (Hg & _ & _).
  assert (Hrun : wp (setup rtcBegin verify) w (λ r w',
            finger w' = finger w
            ∧ ∃ rest, emitted w w' (bootLines rtcBegin (scanBaudRates verify) ++ rest)
                ∧ Forall (λ e, ¬ isPost e) rest
                ∧ sensorLog rest = []
                ∧ (List.length (filter isGet rest) ≤ 1)%nat
                ∧ (r = Some () → ∃ pre date time, rest = pre ++ homeScreen date time))).
  { unfold setup. cbv zeta. do 3 wp_step.
    set (w0 := mkWorld (dev w) (finger w) (input w)
                 (output w ++ bootLines rtcBegin (scanBaudRates verify))).
    assert (Hboot : ∀ Q, wp (connectWiFi;; refreshActiveEvent;; displayHomeScreen) w0 Q →
              wp ((if negb rtcBegin then emit [LcdSetCursor 0 1; LcdPrint "RTC INIT FAILED!"]
                   else emit [LcdSetCursor 0 1; LcdPrint "RTC INIT OK!"]);;
                  (if scanBaudRates verify =? 0
                   then emit [LcdSetCursor 0 2; LcdPrint "FP SENSOR FAILED!"]
                   else emit [LcdSetCursor 0 2; LcdPrint "FP SENSOR OK!"]);;
                  connectWiFi;; refreshActiveEvent;; displayHomeScreen)
                (mkWorld (dev w) (finger w) (input w)
                   (((output w ++ [DigitalWrite GREEN_LED_PIN false])
                     ++ [DigitalWrite RED_LED_PIN false])
                    ++ [LcdSetCursor 0 0; LcdPrint "System Booting..."])) Q).
    { intros Q HQ. subst w0. unfold bootLines in *.
      destruct rtcBegin; simpl negb; cbn iota; wp_step; apply wp_emit;
        destruct (scanBaudRates verify =? 0); wp_step; apply wp_emit; simpl;
        simpl in HQ; rewrite <- !app_assoc in *; simpl in *; exact HQ. }
    apply Hboot. eapply wp_mono; [apply bootTail_run|].
    intros r w' (Hf & new & Hem & Hrest). split; [done|].
    exists new. split; [|done].
    unfold emitted in *. subst w0. simpl in Hem. by rewrite Hem, app_assoc. }
  apply wp_outcome in Hrun. destruct Hrun as (Hf & rest & Hem & Hrest).
  split; [done|]. split; [done|]. split; [done|]. split; [by exists rest|].
  unfold scanBaudRates.
  destruct (scanFrom_first verify baudRates) as [[H0 Hall]|(pre & br & post & Hb & Hv & Hpre & Hres)].
  - left. split; [done|]. unfold baudRates in *.
    apply Forall_cons in Hall as [H1 Hall]. apply Forall_cons in Hall as [H2 Hall].
    apply Forall_cons in Hall as [H3 _].
    repeat (apply Forall_cons; split); [by apply H1|by apply H2|by apply H3|constructor].
  - right. exists pre, post. by rewrite Hres.
Qed.
